(** * TaskManager: board visibility, ownership scope and recently-viewed ranking

    A shallow embedding of the Django views of the TaskManager backend
    ([accounts/models.py], [config/utils/redis_handler.py],
    [boards/views.py]) together with the properties stated about them.

    Conventions.
    - A Python exception is a value of [Exception]; a call that may raise
      returns a [Result].
    - A view runs against a [World]: the relational tables and the Redis
      server.  Writes made before an exception is raised are kept, as they
      are in an autocommit Django request.
    - Model instances are records; a foreign key is the primary key of the
      row it points to and is dereferenced through the table.
    - A [string] holds a Python [str] one code point per character, so
      the texts here are those made of code points below 256. *)

From Stdlib Require Import ZArith Lia Ascii String.
From stdpp Require Import base decidable option list gmap strings pretty sorting.

Local Open Scope string_scope.
Local Open Scope Z_scope.

(** ** Exceptions and results *)

Module Py.

Inductive Exception : Type :=
| Http404                   (* django.http.Http404 *)
| PermissionDenied          (* rest_framework.exceptions.PermissionDenied *)
| ValidationError           (* serializer.is_valid(raise_exception=True) *)
| DoesNotExist              (* Model.DoesNotExist *)
| MultipleObjectsReturned   (* Model.MultipleObjectsReturned *)
| FieldError                (* django.core.exceptions.FieldError *)
| ValueError                (* int() of a text that is not a number *)
| AttributeError            (* attribute access on None *)
| IntegrityError            (* NULL written to a NOT NULL column *)
| ConnectionError.          (* redis.ConnectionError *)

#[global] Instance Exception_eq_dec : EqDecision Exception.
Proof. solve_decision. Defined.

Inductive Result (A : Type) : Type :=
| Ok (a : A)
| Raise (e : Exception).
Arguments Ok {A} a.
Arguments Raise {A} e.

#[global] Instance Result_ret : MRet Result := @Ok.
#[global] Instance Result_bind : MBind Result := fun A B f m =>
  match m with
  | Ok a => f a
  | Raise e => Raise e
  end.

(** [try: m except e: h] *)
Definition try_except {A} (m : Result A) (e : Exception) (h : Result A) : Result A :=
  match m with
  | Ok a => Ok a
  | Raise e' => if decide (e' = e) then h else Raise e'
  end.

(** [Model.objects.get(...)] over the rows that satisfy the lookup. *)
Definition objects_get {A} (rows : list A) : Result A :=
  match rows with
  | [] => Raise DoesNotExist
  | [x] => Ok x
  | _ :: _ :: _ => Raise MultipleObjectsReturned
  end.

(** [django.shortcuts.get_object_or_404]: only [DoesNotExist] becomes a 404. *)
Definition get_object_or_404 {A} (rows : list A) : Result A :=
  try_except (objects_get rows) DoesNotExist (Raise Http404).

End Py.
Export Py.

(** ** The relational data model *)

(** [django.contrib.contenttypes]: a content type is identified by the
    lower-cased name of its model class. *)
Definition ContentType : Type := string.
Definition ContentType_objects_get (model : string) : ContentType := model.

(** [accounts.models.CustomUser].  The concrete columns are the declared
    ones plus those of [AbstractBaseUser] and [PermissionsMixin]. *)
Record CustomUser : Type := {
  user_id : Z;
  email : string;
  first_name : string;
  last_name : string;
  starred_boards : gset Z
}.

(** The names a queryset lookup on [CustomUser] may use. *)
Definition CustomUser_fields : list string :=
  ["id"; "pk"; "password"; "last_login"; "is_superuser"; "groups";
   "user_permissions"; "email"; "first_name"; "last_name"; "is_active";
   "is_staff"; "is_email_verified"; "date_joined"; "profile_pic";
   "boards"; "starred_boards"].

(** [projects.models]: the fields the views and the serializers read. *)
Record Project : Type := {
  project_id : Z;
  project_owner : Z
}.

Record ProjectMembership : Type := {
  pm_id : Z;
  pm_project : Z;
  pm_member : Z;
  access_level : Z
}.

(** [boards.models]: the fields the views read and write. *)
Record Board : Type := {
  board_id : Z;
  board_title : string;
  owner_id : Z;
  owner_model : ContentType;
  image : option string;
  image_url : string;
  color : string
}.

Record List_ : Type := {
  list_id : Z;
  list_board : Z;
  list_order : Z
}.

Record Item : Type := {
  item_id : Z;
  item_title : string;
  item_list : Z;
  item_order : Z;
  assigned_to : gset Z;
  labels : gset Z;
  item_image : option string;
  item_image_url : string;
  item_color : string
}.

Record Label : Type := {
  label_id : Z;
  label_board : Z
}.

Record Comment : Type := {
  comment_id : Z;
  comment_item : Z;
  comment_author : Z
}.

(** The views never read a field of an attachment; its parent is the item
    it is attached to. *)
Record Attachment : Type := {
  attachment_id : Z;
  attachment_item : Z
}.

Record DB : Type := {
  users : list CustomUser;
  projects : list Project;
  memberships : list ProjectMembership;
  boards : list Board;
  lists : list List_;
  items : list Item;
  label_rows : list Label;
  comments : list Comment;
  attachments : list Attachment
}.

#[global] Instance Board_eq_dec : EqDecision Board.
Proof. solve_decision. Defined.

(** ** accounts/models.py *)

Module Accounts.

(** [ProjectMembership.objects.get(member=self, project__id=owner_id)] *)
Definition ProjectMembership_get (db : DB) (member project : Z) : Result ProjectMembership :=
  objects_get
    (filter (λ pm, pm_member pm = member ∧ pm_project pm = project) (memberships db)).

(** [CustomUser.can_view_board] *)
Definition can_view_board (db : DB) (self : CustomUser) (board : Board) : Result bool :=
  if decide (owner_model board = ContentType_objects_get "project") then
    match ProjectMembership_get db (user_id self) (owner_id board) with
    | Ok pmem => Ok true
    | Raise DoesNotExist => Ok false
    | Raise e => Raise e
    end
  else
    if decide (owner_id board ≠ user_id self) then Ok false
    else Ok true.

End Accounts.
Export Accounts.

(** ** config/utils/redis_handler.py and the Redis sorted-set commands *)

Module Redis.

(** A sorted set maps each member to its score.  The scores written by the
    views are 14-digit integers, which Redis stores exactly. *)
Record Server : Type := {
  reachable : bool;
  zsets : gmap string (gmap string Z)
}.

(** The [redis.Redis] connection object held by the singleton. *)
Inductive Client : Type := Connection.

Definition ping (srv : Server) : Result bool :=
  if reachable srv then Ok true else Raise ConnectionError.

(** [RedisClient.__new__] followed by [get_redis()], evaluated once when
    the module is imported: a connection error while pinging is caught and
    leaves [redis = None]. *)
Definition RedisClient_new (srv : Server) : Result (option Client) :=
  try_except (_ ← ping srv; Ok (Some Connection)) ConnectionError (Ok None).

(** Order of [ZRANGE ... REV]: score descending, members of equal score in
    descending byte order. *)
Definition zset_before (x y : string * Z) : Prop :=
  x.2 > y.2 ∨ (x.2 = y.2 ∧ String.leb y.1 x.1 = true).

#[global] Instance zset_before_dec x y : Decision (zset_before x y).
Proof. unfold zset_before. apply _. Defined.

Definition zset_desc (z : gmap string Z) : list (string * Z) :=
  merge_sort zset_before (map_to_list z).

(** Index normalisation of ZRANGE: negative indexes count from the end,
    [stop] is inclusive, out-of-range bounds are clamped. *)
Definition zslice {A} (l : list A) (start stop : Z) : list A :=
  let n := Z.of_nat (length l) in
  let start := if decide (start < 0) then start + n else start in
  let stop := if decide (stop < 0) then stop + n else stop in
  let start := if decide (start < 0) then 0 else start in
  if decide (start > stop ∨ start >= n) then []
  else
    let stop := if decide (stop >= n) then n - 1 else stop in
    take (Z.to_nat (stop - start + 1)) (drop (Z.to_nat start) l).

(** [r.zadd(key, {member: score})] on a reachable server. *)
Definition server_zadd (srv : Server) (key member : string) (score : Z) : Server :=
  {| reachable := reachable srv;
     zsets := <[key := <[member := score]> (default ∅ (zsets srv !! key))]> (zsets srv) |}.

(** [r.zrange(key, start, stop, desc=True)] on a reachable server; a
    missing key is an empty set. *)
Definition server_zrange_desc (srv : Server) (key : string) (start stop : Z) : list string :=
  (zslice (zset_desc (default ∅ (zsets srv !! key))) start stop).*1.

(** The two calls as the views make them on the module-level [r], which
    is [None] when the connection failed at import time. *)
Definition zadd (r : option Client) (srv : Server) (key member : string) (score : Z)
  : Result unit * Server :=
  match r with
  | None => (Raise AttributeError, srv)
  | Some _ =>
      if reachable srv then (Ok (), server_zadd srv key member score)
      else (Raise ConnectionError, srv)
  end.

Definition zrange_desc (r : option Client) (srv : Server) (key : string) (start stop : Z)
  : Result (list string) :=
  match r with
  | None => Raise AttributeError
  | Some _ =>
      if reachable srv then Ok (server_zrange_desc srv key start stop)
      else Raise ConnectionError
  end.

End Redis.

(** ** Requests, permissions and the generic view machinery *)

Module Rest.

(** The values of a request body that the views read as keys: null,
    integers and strings. *)
Inductive JSON : Type :=
| JNull
| JInt (z : Z)
| JStr (s : string).

#[global] Instance JSON_eq_dec : EqDecision JSON.
Proof. solve_decision. Defined.

Inductive Method : Type := GET | HEAD | OPTIONS | POST | PUT | PATCH | DELETE.

#[global] Instance Method_eq_dec : EqDecision Method.
Proof. solve_decision. Defined.

(** [rest_framework.permissions.SAFE_METHODS] *)
Definition SAFE_METHODS : list Method := [GET; HEAD; OPTIONS].

(** An authenticated request: the requester, the parsed body
    ([request.data]) and the query string ([request.GET]). *)
Record Request : Type := {
  user : CustomUser;
  method : Method;
  data : gmap string JSON;
  query : gmap string string
}.

(** [timezone.now()] *)
Record datetime : Type := {
  year : Z; month : Z; day : Z; hour : Z; minute : Z; second : Z
}.

(** [int(now.strftime("%Y%m%d%H%M%S"))] for a four-digit year. *)
Definition strftime_int (now : datetime) : Z :=
  ((((year now * 100 + month now) * 100 + day now) * 100 + hour now) * 100
   + minute now) * 100 + second now.

Record World : Type := {
  db : DB;
  redis : Redis.Server
}.

(** A view body: it may raise, and it leaves a world behind either way. *)
Definition View (A : Type) : Type := World → Result A * World.

#[global] Instance View_ret : MRet View := λ A a w, (Ok a, w).
#[global] Instance View_bind : MBind View := λ A B f m w,
  match m w with
  | (Ok a, w') => f a w'
  | (Raise e, w') => (Raise e, w')
  end.

Definition lift {A} (m : DB → Result A) : View A := λ w, (m (db w), w).
Definition on_redis {A} (m : Redis.Server → Result A * Redis.Server) : View A := λ w,
  let '(x, srv) := m (redis w) in (x, {| db := db w; redis := srv |}).
Definition write_db (f : DB → DB) : View unit := λ w,
  (Ok (), {| db := f (db w); redis := redis w |}).

(** Python's [int] on a text, as CPython parses it in base 10: blanks
    around the number are skipped, one sign may lead, and the digits may
    be separated by single underscores.  The blanks are those of the
    characters a [string] holds here, the code points below 256: tab to
    carriage return, the space, NEL and the no-break space (the separators
    28 to 31 are blank to [str.isspace] but not to [int]).  A number of more
    than [sys.int_info.default_max_str_digits] digits is refused. *)
Definition int_blank (a : ascii) : bool :=
  let n := Z.of_N (N_of_ascii a) in
  bool_decide (9 ≤ n ≤ 13 ∨ n = 32 ∨ n = 133 ∨ n = 160).

Fixpoint skip_blanks (s : string) : string :=
  match s with
  | EmptyString => EmptyString
  | String a s' => if int_blank a then skip_blanks s' else s
  end.

(** A character is dropped when it is blank and everything after it has
    been dropped. *)
Fixpoint drop_trailing_blanks (s : string) : string :=
  match s with
  | EmptyString => EmptyString
  | String a s' =>
      match drop_trailing_blanks s' with
      | EmptyString => if int_blank a then EmptyString else String a EmptyString
      | rest => String a rest
      end
  end.

Definition digit_of (a : ascii) : option Z :=
  let n := Z.of_N (N_of_ascii a) in
  if decide (48 ≤ n ≤ 57) then Some (n - 48) else None.

(** The digits of a number: at least one, an underscore only between two
    digits.  [after_digit] tells whether the character before was a
    digit. *)
Fixpoint parse_digits (after_digit : bool) (acc : Z) (s : string) : option Z :=
  match s with
  | EmptyString => if after_digit then Some acc else None
  | String a s' =>
      if decide (a = "_"%char) then
        if after_digit then parse_digits false acc s' else None
      else
        match digit_of a with
        | Some d => parse_digits true (10 * acc + d) s'
        | None => None
        end
  end.

Fixpoint count_digits (s : string) : nat :=
  match s with
  | EmptyString => 0
  | String a s' => (if digit_of a is Some _ then 1 else 0) + count_digits s'
  end.

Definition max_str_digits : Z := 4300.

Definition int (s : string) : Result Z :=
  let s := drop_trailing_blanks (skip_blanks s) in
  let '(negative, body) :=
    match s with
    | EmptyString => (false, s)
    | String a s' =>
        if decide (a = "-"%char) then (true, s')
        else if decide (a = "+"%char) then (false, s')
        else (false, s)
    end in
  match parse_digits false 0 body with
  | Some z =>
      if decide (Z.of_nat (count_digits body) ≤ max_str_digits)
      then Ok (if negative : bool then - z else z)
      else Raise ValueError
  | None => Raise ValueError
  end.

(** A primary key taken from the request body. *)
Definition pk_of_json (v : JSON) : Result (option Z) :=
  match v with
  | JNull => Ok None
  | JInt z => Ok (Some z)
  | JStr s => z ← int s; Ok (Some z)
  end.

(** The objects the permission classes are asked about. *)
Inductive Obj : Type :=
| OProject (p : Project)
| OBoard (b : Board)
| OList (l : List_)
| OItem (i : Item)
| OLabel (l : Label)
| OComment (c : Comment)
| OAttachment (a : Attachment).

Inductive PermissionClass : Type :=
| IsAuthenticated
| AllowAny
| IsProjectMember
| CanViewBoard
| IsAuthorOrReadOnly.

End Rest.
Export Rest.

(** ** Permission classes *)

Module Permissions.

(** Related-object access through a foreign key ([list.board],
    [item.list], [comment.item]). *)
Definition List_board (db : DB) (l : List_) : Result Board :=
  objects_get (filter (λ b, board_id b = list_board l) (boards db)).

Definition Item_list (db : DB) (i : Item) : Result List_ :=
  objects_get (filter (λ l, list_id l = item_list i) (lists db)).

Definition Label_board (db : DB) (l : Label) : Result Board :=
  objects_get (filter (λ b, board_id b = label_board l) (boards db)).

Definition Comment_item (db : DB) (c : Comment) : Result Item :=
  objects_get (filter (λ i, item_id i = comment_item c) (items db)).

Definition Attachment_item (db : DB) (a : Attachment) : Result Item :=
  objects_get (filter (λ i, item_id i = attachment_item a) (items db)).

(** Modelled from the spec: [boards/permissions.py] (class [CanViewBoard])
    is not among the sources.  The Access Evaluator is the gating
    predicate: the object handed to the permission is a board and the
    answer is [request.user.can_view_board(board)]. *)
Definition CanViewBoard_has_object_permission
    (db : DB) (req : Request) (obj : Obj) : Result bool :=
  match obj with
  | OBoard b => can_view_board db (user req) b
  | _ => Raise AttributeError
  end.

(** Modelled from the spec: [boards/permissions.py] (class
    [IsAuthorOrReadOnly]) is not among the sources.  Edit and delete are
    allowed only to the comment's author; read follows the parent
    Item, List, Board chain through the Access Evaluator. *)
Definition IsAuthorOrReadOnly_has_object_permission
    (db : DB) (req : Request) (obj : Obj) : Result bool :=
  match obj with
  | OComment c =>
      if decide (method req ∈ SAFE_METHODS) then
        i ← Comment_item db c;
        l ← Item_list db i;
        b ← List_board db l;
        can_view_board db (user req) b
      else Ok (bool_decide (comment_author c = user_id (user req)))
  | _ => Raise AttributeError
  end.

(** Modelled from the spec: [projects/permissions.py] (class
    [IsProjectMember]) is not among the sources.  The caller of the
    project scope verifies that the requester is a member of the project. *)
Definition IsProjectMember_has_object_permission
    (db : DB) (req : Request) (obj : Obj) : Result bool :=
  match obj with
  | OProject p =>
      Ok (bool_decide (Exists (λ pm, pm_member pm = user_id (user req)
                                     ∧ pm_project pm = project_id p)
                              (memberships db)))
  | _ => Raise AttributeError
  end.

(** [rest_framework.permissions]: [AllowAny] and, for an authenticated
    request, [IsAuthenticated] grant every object. *)
Definition has_object_permission
    (db : DB) (p : PermissionClass) (req : Request) (obj : Obj) : Result bool :=
  match p with
  | IsAuthenticated => Ok true
  | AllowAny => Ok true
  | IsProjectMember => IsProjectMember_has_object_permission db req obj
  | CanViewBoard => CanViewBoard_has_object_permission db req obj
  | IsAuthorOrReadOnly => IsAuthorOrReadOnly_has_object_permission db req obj
  end.

(** [APIView.check_object_permissions]: the first permission that answers
    false ends the request with [PermissionDenied]. *)
Fixpoint check_object_permissions
    (db : DB) (permission_classes : list PermissionClass)
    (req : Request) (obj : Obj) : Result unit :=
  match permission_classes with
  | [] => Ok ()
  | p :: ps =>
      granted ← has_object_permission db p req obj;
      if (granted : bool) then check_object_permissions db ps req obj
      else Raise PermissionDenied
  end.

End Permissions.
Export Permissions.

(** ** boards/views.py *)

Module Views.

(** Text matching of [title__icontains] on ASCII letters. *)
Definition lower_ascii (a : ascii) : ascii :=
  let n := Z.of_N (N_of_ascii a) in
  if decide (65 ≤ n ≤ 90) then ascii_of_N (N_of_ascii a + 32) else a.

Fixpoint lower (s : string) : string :=
  match s with
  | EmptyString => EmptyString
  | String a s' => String (lower_ascii a) (lower s')
  end.

Fixpoint contains (needle hay : string) : bool :=
  String.prefix needle hay ||
  match hay with
  | EmptyString => false
  | String _ hay' => contains needle hay'
  end.

Definition icontains (text search : string) : bool :=
  contains (lower search) (lower text).

(** [queryset.order_by('title')] *)
Definition title_le (a b : Board) : Prop :=
  Is_true (String.leb (board_title a) (board_title b)).

#[global] Instance title_le_dec a b : Decision (title_le a b).
Proof. unfold title_le. apply _. Defined.

Definition order_by_title (qs : list Board) : list Board :=
  merge_sort title_le qs.

(** The [Case] over [When(pk=pk, then=pos)] for [pos, pk] enumerating
    [board_ids]: the position of the first matching [When], NULL (here -1) without one. *)
Definition Case_When_pos (board_ids : list Z) (b : Board) : Z :=
  match list_find (λ pk, pk = board_id b) board_ids with
  | Some (pos, _) => Z.of_nat pos
  | None => -1
  end.

Definition preserved_le (board_ids : list Z) (a b : Board) : Prop :=
  Case_When_pos board_ids a ≤ Case_When_pos board_ids b.

#[global] Instance preserved_le_dec board_ids a b : Decision (preserved_le board_ids a b).
Proof. unfold preserved_le. apply _. Defined.

Definition order_by_preserved (board_ids : list Z) (qs : list Board) : list Board :=
  merge_sort (preserved_le board_ids) qs.

(** Field values handed to [serializer.save]: the validated data of the
    request and the keyword arguments of the call.  [None] leaves the
    field as it is. *)
Record BoardFields : Type := {
  set_title : option string;
  set_image : option (option string);
  set_image_url : option string;
  set_color : option string
}.

Definition override {A} (kwarg validated : option A) : option A :=
  match kwarg with
  | Some v => Some v
  | None => validated
  end.

(** The dict of [validated_data] updated with the keyword arguments. *)
Definition BoardFields_merge (validated kwargs : BoardFields) : BoardFields :=
  {| set_title := override (set_title kwargs) (set_title validated);
     set_image := override (set_image kwargs) (set_image validated);
     set_image_url := override (set_image_url kwargs) (set_image_url validated);
     set_color := override (set_color kwargs) (set_color validated) |}.

(** [ModelSerializer.update]: [setattr] of every given field. *)
Definition Board_setattrs (f : BoardFields) (b : Board) : Board :=
  {| board_id := board_id b;
     board_title := default (board_title b) (set_title f);
     owner_id := owner_id b;
     owner_model := owner_model b;
     image := default (image b) (set_image f);
     image_url := default (image_url b) (set_image_url f);
     color := default (color b) (set_color f) |}.

Definition with_boards (f : list Board → list Board) (d : DB) : DB :=
  {| users := users d; projects := projects d; memberships := memberships d;
     boards := f (boards d); lists := lists d; items := items d;
     label_rows := label_rows d; comments := comments d;
     attachments := attachments d |}.

(** [instance.save()]: the row with the instance's primary key is rewritten. *)
Definition Board_save (b : Board) : DB → DB :=
  with_boards (fmap (λ row, if decide (board_id row = board_id b) then b else row)).

(** [rest_framework.mixins]: every handler of a
    [RetrieveUpdateDestroyAPIView] starts with [self.get_object()]. *)
Definition retrieve {A} (get_object : View A) : View A :=
  instance ← get_object;
  mret instance.

Definition update {A F} (get_object : View A) (validate : A → Result F)
    (perform_update : A → F → View A) : View A :=
  instance ← get_object;
  validated ← lift (λ _, validate instance);
  perform_update instance validated.

Definition destroy {A} (get_object : View A) (delete : A → DB → DB) : View unit :=
  instance ← get_object;
  write_db (delete instance).

Section WithClient.

(** The module-level [r = redis_client]. *)
Variable r : option Redis.Client.

(** The validation step of [BoardSerializer] ([boards/serializers.py] is
    not among the sources): it either rejects the request or yields the
    validated data. *)
Variable BoardSerializer_validate : Request → Board → Result BoardFields.

(** *** BoardList *)

Definition BoardList_permission_classes : list PermissionClass :=
  [IsAuthenticated; IsProjectMember].

Definition BoardList_get_project (db : DB) (req : Request) (pk : Z) : Result Project :=
  project ← get_object_or_404 (filter (λ p, project_id p = pk) (projects db));
  _ ← check_object_permissions db BoardList_permission_classes req (OProject project);
  Ok project.

Definition BoardList_get_queryset (req : Request) (w : World) : Result (list Board) :=
  let project_id := query req !! "project" in
  let sort := query req !! "sort" in
  let search := query req !! "q" in
  if decide (sort = Some "recent") then
    let redis_key := email (user req) +:+ ":RecentlyViewedBoards" in
    board_ids ← Redis.zrange_desc r (redis w) redis_key 0 3;
    pks ← mapM int board_ids;
    Ok (order_by_preserved pks
          (filter (λ b, board_id b ∈ pks) (boards (db w))))
  else
    queryset ←
      match project_id with
      | None =>
          let project_ids :=
            pm_project <$> filter (λ pm, pm_member pm = user_id (user req))
                                  (memberships (db w)) in
          Ok (filter (λ b,
                (owner_id b = user_id (user req)
                 ∧ owner_model b = ContentType_objects_get "customuser")
                ∨ (owner_id b ∈ project_ids
                   ∧ owner_model b = ContentType_objects_get "project"))
              (boards (db w)))
      | Some project_id =>
          pid ← int project_id;
          let queryset :=
            filter (λ b, owner_id b = pid
                         ∧ owner_model b = ContentType_objects_get "project")
                   (boards (db w)) in
          _ ← BoardList_get_project (db w) req pid;
          Ok queryset
      end;
    match search with
    | Some q => Ok (take 2 (filter (λ b, Is_true (icontains (board_title b) q)) queryset))
    | None => Ok (order_by_title queryset)
    end.

(** *** BoardDetail *)

Definition BoardDetail_permission_classes : list PermissionClass := [CanViewBoard].

Definition BoardDetail_get_queryset (req : Request) (d : DB) : list Board :=
  let project_ids :=
    pm_project <$> filter (λ pm, pm_member pm = user_id (user req)) (memberships d) in
  filter (λ b,
    (owner_id b = user_id (user req)
     ∧ owner_model b = ContentType_objects_get "customuser")
    ∨ (owner_id b ∈ project_ids
       ∧ owner_model b = ContentType_objects_get "project"))
  (boards d).

(** [BoardDetail.get_object]: the view is recorded in the requester's
    sorted set, then [GenericAPIView.get_object] looks the board up in the
    queryset and checks the object permissions. *)
Definition BoardDetail_get_object (now : datetime) (req : Request) (pk : Z) : View Board :=
  let redis_key := email (user req) +:+ ":RecentlyViewedBoards" in
  let cur_time_int := strftime_int now in
  _ ← on_redis (λ srv, Redis.zadd r srv redis_key (pretty pk) cur_time_int);
  lift (λ d,
    obj ← get_object_or_404
            (filter (λ b, board_id b = pk) (BoardDetail_get_queryset req d));
    _ ← check_object_permissions d BoardDetail_permission_classes req (OBoard obj);
    Ok obj).

(** [serializer.save] with keyword arguments, on the board serializer. *)
Definition BoardSerializer_save
    (instance : Board) (validated kwargs : BoardFields) : View Board :=
  let b := Board_setattrs (BoardFields_merge validated kwargs) instance in
  _ ← write_db (Board_save b);
  mret b.

Definition no_fields : BoardFields :=
  {| set_title := None; set_image := None; set_image_url := None; set_color := None |}.

(** [BoardDetail.perform_update]; the result is [serializer.instance]. *)
Definition BoardDetail_perform_update
    (req : Request) (instance : Board) (validated : BoardFields) : View Board :=
  let req_data := data req in
  if decide (is_Some (req_data !! "image")) then
    BoardSerializer_save instance validated
      {| set_title := None; set_image := None;
         set_image_url := Some ""; set_color := Some "" |}
  else if decide (is_Some (req_data !! "image_url")) then
    BoardSerializer_save instance validated
      {| set_title := None; set_image := Some None;
         set_image_url := None; set_color := Some "" |}
  else if decide (is_Some (req_data !! "color")) then
    BoardSerializer_save instance validated
      {| set_title := None; set_image := Some None;
         set_image_url := Some ""; set_color := None |}
  else mret instance.

(** [UpdateModelMixin.update] as [BoardDetail] inherits it. *)
Definition BoardDetail_update (now : datetime) (req : Request) (pk : Z) : View Board :=
  update (BoardDetail_get_object now req pk)
         (BoardSerializer_validate req)
         (BoardDetail_perform_update req).

End WithClient.

(** *** ListDetail *)

Definition ListDetail_permission_classes : list PermissionClass := [CanViewBoard].

Definition ListDetail_get_object (req : Request) (pk : Z) : View List_ :=
  lift (λ d,
    list ← get_object_or_404 (filter (λ l, list_id l = pk) (lists d));
    board ← List_board d list;
    _ ← check_object_permissions d ListDetail_permission_classes req (OBoard board);
    Ok list).

(** *** ItemDetail *)

Record ItemFields : Type := {
  set_item_title : option string;
  set_item_list : option (option Z);
  set_item_image : option (option string);
  set_item_image_url : option string;
  set_item_color : option string
}.

Definition ItemFields_merge (validated kwargs : ItemFields) : ItemFields :=
  {| set_item_title := override (set_item_title kwargs) (set_item_title validated);
     set_item_list := override (set_item_list kwargs) (set_item_list validated);
     set_item_image := override (set_item_image kwargs) (set_item_image validated);
     set_item_image_url :=
       override (set_item_image_url kwargs) (set_item_image_url validated);
     set_item_color := override (set_item_color kwargs) (set_item_color validated) |}.

Definition no_item_fields : ItemFields :=
  {| set_item_title := None; set_item_list := None; set_item_image := None;
     set_item_image_url := None; set_item_color := None |}.

Definition Item_setattrs (f : ItemFields) (list : Z) (i : Item) : Item :=
  {| item_id := item_id i;
     item_title := default (item_title i) (set_item_title f);
     item_list := list;
     item_order := item_order i;
     assigned_to := assigned_to i;
     labels := labels i;
     item_image := default (item_image i) (set_item_image f);
     item_image_url := default (item_image_url i) (set_item_image_url f);
     item_color := default (item_color i) (set_item_color f) |}.

Definition with_items (f : list Item → list Item) (d : DB) : DB :=
  {| users := users d; projects := projects d; memberships := memberships d;
     boards := boards d; lists := lists d; items := f (items d);
     label_rows := label_rows d; comments := comments d;
     attachments := attachments d |}.

Definition Item_save (i : Item) : DB → DB :=
  with_items (fmap (λ row, if decide (item_id row = item_id i) then i else row)).

(** [serializer.save] on the item serializer; [list=None] cannot be stored. *)
Definition ItemSerializer_save
    (instance : Item) (validated kwargs : ItemFields) : View Item :=
  let f := ItemFields_merge validated kwargs in
  match set_item_list f with
  | Some None => λ w, (Raise IntegrityError, w)
  | new_list =>
      let i := Item_setattrs f (default (item_list instance) (new_list ≫= id)) instance in
      _ ← write_db (Item_save i);
      mret i
  end.

(** The value of a [CustomUser] column named in a lookup. *)
Definition CustomUser_column (name : string) (u : CustomUser) : JSON :=
  if decide (name = "id" ∨ name = "pk") then JInt (user_id u)
  else if decide (name = "email") then JStr (email u)
  else if decide (name = "first_name") then JStr (first_name u)
  else if decide (name = "last_name") then JStr (last_name u)
  else JNull.

(** [User.objects.get(name=value)]: a keyword that is not a field of the
    model cannot be resolved. *)
Definition User_objects_get (d : DB) (name : string) (value : JSON) : Result CustomUser :=
  if decide (name ∈ CustomUser_fields) then
    objects_get (filter (λ u, CustomUser_column name u = value) (users d))
  else Raise FieldError.

Definition ItemDetail_get_user (d : DB) (username : JSON) (board : Board)
  : Result (option CustomUser) :=
  user ← try_except (User_objects_get d "username" username) DoesNotExist (Raise Http404);
  can ← can_view_board d user board;
  if (can : bool) then Ok (Some user) else Ok None.

Definition ItemDetail_get_label (d : DB) (pk : JSON) (board : Board)
  : Result (option Label) :=
  k ← pk_of_json pk;
  label ← get_object_or_404 (filter (λ l, Some (label_id l) = k) (label_rows d));
  label_board ← Label_board d label;
  if decide (board_id board = board_id label_board) then Ok (Some label) else Ok None.

Definition ItemDetail_get_list (d : DB) (pk : JSON) (board : Board)
  : Result (option List_) :=
  k ← pk_of_json pk;
  list ← get_object_or_404 (filter (λ l, Some (list_id l) = k) (lists d));
  list_board ← List_board d list;
  if decide (board_id board = board_id list_board) then Ok (Some list) else Ok None.

Definition ItemDetail_permission_classes : list PermissionClass := [CanViewBoard].

Definition ItemDetail_get_object (req : Request) (pk : Z) : View Item :=
  lift (λ d,
    item ← get_object_or_404 (filter (λ i, item_id i = pk) (items d));
    list ← Item_list d item;
    board ← List_board d list;
    _ ← check_object_permissions d ItemDetail_permission_classes req (OBoard board);
    Ok item).

(** [item.list.board] *)
Definition Item_list_board (d : DB) (item : Item) : Result Board :=
  list ← Item_list d item;
  List_board d list.

(** Membership toggle on a many-to-many relation: [remove] when the row
    exists, [add] otherwise. *)
Definition toggle (pk : Z) (related : gset Z) : gset Z :=
  if decide (pk ∈ related) then related ∖ {[pk]} else related ∪ {[pk]}.

Definition Item_with_assigned_to (s : gset Z) (i : Item) : Item :=
  {| item_id := item_id i; item_title := item_title i; item_list := item_list i;
     item_order := item_order i; assigned_to := s; labels := labels i;
     item_image := item_image i; item_image_url := item_image_url i;
     item_color := item_color i |}.

Definition Item_with_labels (s : gset Z) (i : Item) : Item :=
  {| item_id := item_id i; item_title := item_title i; item_list := item_list i;
     item_order := item_order i; assigned_to := assigned_to i; labels := s;
     item_image := item_image i; item_image_url := item_image_url i;
     item_color := item_color i |}.

(** [ItemDetail.perform_update]; the result is [serializer.instance]. *)
Definition ItemDetail_perform_update
    (req : Request) (instance : Item) (validated : ItemFields) : View Item :=
  let req_data := data req in
  item ←
    (if decide (is_Some (req_data !! "image")) then
       ItemSerializer_save instance validated
         {| set_item_title := None; set_item_list := None; set_item_image := None;
            set_item_image_url := Some ""; set_item_color := Some "" |}
     else if decide (is_Some (req_data !! "image_url")) then
       ItemSerializer_save instance validated
         {| set_item_title := None; set_item_list := None;
            set_item_image := Some None;
            set_item_image_url := None; set_item_color := Some "" |}
     else if decide (is_Some (req_data !! "color")) then
       ItemSerializer_save instance validated
         {| set_item_title := None; set_item_list := None;
            set_item_image := Some None;
            set_item_image_url := Some ""; set_item_color := None |}
     else ItemSerializer_save instance validated no_item_fields);
  item ←
    match req_data !! "assigned_to" with
    | Some username =>
        user ← lift (λ d, board ← Item_list_board d item;
                          ItemDetail_get_user d username board);
        match user with
        | None => λ w, (Raise AttributeError, w)
        | Some user =>
            let item' := Item_with_assigned_to (toggle (user_id user) (assigned_to item)) item in
            _ ← write_db (Item_save item');
            mret item'
        end
    | None => mret item
    end;
  item ←
    match req_data !! "labels" with
    | Some pk =>
        label ← lift (λ d, board ← Item_list_board d item;
                           ItemDetail_get_label d pk board);
        match label with
        | None => λ w, (Raise AttributeError, w)
        | Some label =>
            let item' := Item_with_labels (toggle (label_id label) (labels item)) item in
            _ ← write_db (Item_save item');
            mret item'
        end
    | None => mret item
    end;
  match req_data !! "list" with
  | Some pk =>
      list ← lift (λ d, board ← Item_list_board d item;
                        ItemDetail_get_list d pk board);
      ItemSerializer_save item validated
        {| set_item_title := None; set_item_list := Some (list_id <$> list);
           set_item_image := None; set_item_image_url := None;
           set_item_color := None |}
  | None => mret item
  end.

Inductive Response (A : Type) : Type :=
| HTTP_200 (body : A)
| HTTP_400 (field : string) (message : string).
Arguments HTTP_200 {A} body.
Arguments HTTP_400 {A} field message.

Section WithItemSerializer.

Variable ItemSerializer_validate : Request → Item → Result ItemFields.

(** [ItemDetail.put] *)
Definition ItemDetail_put (req : Request) (pk : Z) : View (Response Item) :=
  item ← ItemDetail_get_object req pk;
  checked ←
    match data req !! "assigned_to" with
    | Some username =>
        user ← lift (λ d, board ← Item_list_board d item;
                          ItemDetail_get_user d username board);
        mret (if user is None
              then Some (HTTP_400 "assigned_to" "This user cannot view this board")
              else None)
    | None => mret None
    end;
  match checked with
  | Some response => mret response
  | None =>
  checked ←
    match data req !! "labels" with
    | Some label_pk =>
        label ← lift (λ d, board ← Item_list_board d item;
                           ItemDetail_get_label d label_pk board);
        mret (if label is None
              then Some (HTTP_400 "labels" "This label doees not belong to this board")
              else None)
    | None => mret None
    end;
  match checked with
  | Some response => mret response
  | None =>
  checked ←
    match data req !! "list" with
    | Some list_pk =>
        list ← lift (λ d, board ← Item_list_board d item;
                          ItemDetail_get_list d list_pk board);
        mret (if list is None
              then Some (HTTP_400 "list" "This list doesn't belong to this baord")
              else None)
    | None => mret None
    end;
  match checked with
  | Some response => mret response
  | None =>
      item ← update (ItemDetail_get_object req pk)
                    (ItemSerializer_validate req)
                    (ItemDetail_perform_update req);
      mret (HTTP_200 item)
  end end end.

End WithItemSerializer.

(** *** CommentDetail *)

Definition CommentDetail_permission_classes : list PermissionClass :=
  [IsAuthorOrReadOnly].

Definition CommentDetail_get_object (req : Request) (pk : Z) : View Comment :=
  lift (λ d,
    comment ← get_object_or_404 (filter (λ c, comment_id c = pk) (comments d));
    _ ← check_object_permissions d CommentDetail_permission_classes req (OComment comment);
    Ok comment).

(** *** LabelDetail

    The module defines the class twice.  The second [class] statement
    rebinds the name, so [views.LabelDetail] is the one below with
    [AllowAny]; the first definition is kept here under its own name. *)

Definition LabelDetail_first_permission_classes : list PermissionClass :=
  [CanViewBoard].

Definition LabelDetail_first_get_object (req : Request) (pk : Z) : View Label :=
  lift (λ d,
    label ← get_object_or_404 (filter (λ l, label_id l = pk) (label_rows d));
    board ← Label_board d label;
    _ ← check_object_permissions d LabelDetail_first_permission_classes req (OBoard board);
    Ok label).

Definition LabelDetail_permission_classes : list PermissionClass := [AllowAny].

(** [GenericAPIView.get_object] over [Label.objects.all()]. *)
Definition LabelDetail_get_object (req : Request) (pk : Z) : View Label :=
  lift (λ d,
    obj ← get_object_or_404 (filter (λ l, label_id l = pk) (label_rows d));
    _ ← check_object_permissions d LabelDetail_permission_classes req (OLabel obj);
    Ok obj).

(** *** AttachmentDetail *)

Definition AttachmentDetail_permission_classes : list PermissionClass := [AllowAny].

(** [GenericAPIView.get_object] over [Attachment.objects.all()]. *)
Definition AttachmentDetail_get_object (req : Request) (pk : Z) : View Attachment :=
  lift (λ d,
    obj ← get_object_or_404 (filter (λ a, attachment_id a = pk) (attachments d));
    _ ← check_object_permissions d AttachmentDetail_permission_classes req
          (OAttachment obj);
    Ok obj).

Definition with_attachments (f : list Attachment → list Attachment) (d : DB) : DB :=
  {| users := users d; projects := projects d; memberships := memberships d;
     boards := boards d; lists := lists d; items := items d;
     label_rows := label_rows d; comments := comments d;
     attachments := f (attachments d) |}.

(** [instance.delete()] as [DestroyModelMixin.perform_destroy] calls it. *)
Definition Attachment_delete (a : Attachment) : DB → DB :=
  with_attachments (filter (λ row, attachment_id row ≠ attachment_id a)).

End Views.
Export Views.

(** * Vocabulary of the properties *)

Definition is_member (db : DB) (user project : Z) : Prop :=
  Exists (λ pm, pm_member pm = user ∧ pm_project pm = project) (memberships db).

#[global] Instance is_member_dec db user project : Decision (is_member db user project).
Proof. unfold is_member. apply _. Defined.

(** The unique constraint of [ProjectMembership] on (project, member). *)
Definition membership_unique (db : DB) : Prop :=
  NoDup ((λ pm, (pm_project pm, pm_member pm)) <$> memberships db).

(** The same memberships with their access levels rewritten. *)
Definition with_access_levels (level : ProjectMembership → Z) (db : DB) : DB :=
  {| users := users db; projects := projects db;
     memberships :=
       (λ pm, {| pm_id := pm_id pm; pm_project := pm_project pm;
                 pm_member := pm_member pm; access_level := level pm |})
       <$> memberships db;
     boards := boards db; lists := lists db; items := items db;
     label_rows := label_rows db; comments := comments db;
     attachments := attachments db |}.

(** The scope of a user with no project id, in the words of the
    specification: the boards owned by the user and the boards owned by a
    project the user is a member of. *)
Definition in_user_scope (db : DB) (U : CustomUser) (B : Board) : Prop :=
  (owner_model B = ContentType_objects_get "customuser" ∧ owner_id B = user_id U)
  ∨ (owner_model B = ContentType_objects_get "project"
     ∧ is_member db (user_id U) (owner_id B)).

#[global] Instance in_user_scope_dec db U B : Decision (in_user_scope db U B).
Proof. unfold in_user_scope. apply _. Defined.

(** The three appearance fields of a board and which of them are set. *)
Definition image_active (b : Board) : bool :=
  match image b with
  | Some name => bool_decide (name ≠ "")
  | None => false
  end.

Definition active_backgrounds (b : Board) : nat :=
  (Nat.b2n (image_active b) + Nat.b2n (bool_decide (image_url b ≠ ""))
   + Nat.b2n (bool_decide (color b ≠ "")))%nat.

(** The branch of [BoardDetail.perform_update] a request takes. *)
Inductive UpdatePath : Type := ByImage | ByImageUrl | ByColor.

Definition takes_path (req : Request) (p : UpdatePath) : Prop :=
  match p with
  | ByImage => is_Some (data req !! "image")
  | ByImageUrl => data req !! "image" = None ∧ is_Some (data req !! "image_url")
  | ByColor =>
      data req !! "image" = None ∧ data req !! "image_url" = None
      ∧ is_Some (data req !! "color")
  end.

(** The score of a member in the sorted set stored under a key. *)
Definition zscore (srv : Redis.Server) (key member : string) : option Z :=
  default ∅ (Redis.zsets srv !! key) !! member.

(** A sequence of recorded views, oldest first: each is one [zadd] of a
    member with its timestamp, as [BoardDetail.get_object] issues it. *)
Fixpoint record_views (srv : Redis.Server) (key : string) (views : list (string * Z))
  : Redis.Server :=
  match views with
  | [] => srv
  | v :: rest => record_views (Redis.server_zadd srv key v.1 v.2) key rest
  end.

(** The timestamp of the last view of a member in such a sequence. *)
Fixpoint last_recorded (views : list (string * Z)) (member : string) : option Z :=
  match views with
  | [] => None
  | v :: rest =>
      match last_recorded rest member with
      | Some t => Some t
      | None => if decide (v.1 = member) then Some v.2 else None
      end
  end.

(** A small installation used to run the views: Alice owns a personal
    board, Bob is the only member of project 5, which owns a board, and one
    board row carries the content type of another model. *)
Module Sample.

Definition alice : CustomUser :=
  {| user_id := 1; email := "alice@example.org"; first_name := "Alice";
     last_name := "A"; starred_boards := ∅ |}.
Definition bob : CustomUser :=
  {| user_id := 2; email := "bob@example.org"; first_name := "Bob";
     last_name := "B"; starred_boards := ∅ |}.

Definition alice_board : Board :=
  {| board_id := 10; board_title := "Home"; owner_id := 1;
     owner_model := "customuser"; image := None; image_url := "";
     color := "red" |}.
Definition project_board : Board :=
  {| board_id := 11; board_title := "Roadmap"; owner_id := 5;
     owner_model := "project"; image := None; image_url := "";
     color := "" |}.
Definition stray_board : Board :=
  {| board_id := 12; board_title := "Stray"; owner_id := 2;
     owner_model := "list"; image := None; image_url := ""; color := "" |}.

Definition todo : List_ := {| list_id := 20; list_board := 10; list_order := 1 |}.
Definition task : Item :=
  {| item_id := 30; item_title := "Write"; item_list := 20; item_order := 1;
     assigned_to := ∅; labels := ∅; item_image := None; item_image_url := "";
     item_color := "" |}.
Definition urgent : Label := {| label_id := 50; label_board := 10 |}.
Definition note : Comment :=
  {| comment_id := 60; comment_item := 30; comment_author := 1 |}.
Definition remark : Comment :=
  {| comment_id := 61; comment_item := 30; comment_author := 2 |}.
Definition scan : Attachment := {| attachment_id := 40; attachment_item := 30 |}.

Definition db0 : DB :=
  {| users := [alice; bob];
     projects := [{| project_id := 5; project_owner := 2 |}];
     memberships :=
       [{| pm_id := 1; pm_project := 5; pm_member := 2; access_level := 2 |}];
     boards := [alice_board; project_board; stray_board];
     lists := [todo];
     items := [task];
     label_rows := [urgent];
     comments := [note; remark];
     attachments := [scan] |}.

Definition up : Redis.Server := {| Redis.reachable := true; Redis.zsets := ∅ |}.

Definition w0 : World := {| db := db0; redis := up |}.

Definition noon : datetime :=
  {| year := 2025; month := 3; day := 14; hour := 12; minute := 0; second := 0 |}.

Definition request (u : CustomUser) (m : Method) (body : list (string * JSON))
    (params : list (string * string)) : Request :=
  {| user := u; method := m; data := list_to_map body; query := list_to_map params |}.

End Sample.

(** * Further parts of the code *)

(** ** accounts/models.py: one-time passwords and the display name *)

Module AccountsMore.

(** A point in time, as microseconds since the epoch: the difference of
    two aware datetimes depends on nothing else. *)
Definition instant : Type := Z.

(** [datetime.timedelta], normalised as Python keeps it:
    [0 <= seconds < 86400] and [0 <= microseconds < 1000000], the sign is
    carried by [days]. *)
Record timedelta : Type := {
  days : Z;
  seconds : Z;
  microseconds : Z
}.

(** [later - earlier] *)
Definition datetime_sub (later earlier : instant) : timedelta :=
  let us := later - earlier in
  {| days := us `div` 86400000000;
     seconds := (us `div` 1000000) `mod` 86400;
     microseconds := us `mod` 1000000 |}.

Record OTP : Type := {
  otp_user : Z;
  otp : string;
  created_at : instant
}.

(** [OTP.is_valid]: [OTP_EXPIRATION_TIME] is the value of the setting, if
    declared; the result comes with the warnings issued. *)
Definition is_valid (OTP_EXPIRATION_TIME : option Z) (now : instant) (self : OTP)
  : bool * list string :=
  let expiration_time := OTP_EXPIRATION_TIME in
  let '(expiration_time, warned) :=
    match expiration_time with
    | None =>
        (300,
         ["OTP_EXPIRATION_TIME is not set in settings. Using default value of 5 minutes."])
    | Some t => (t, [])
    end in
  (bool_decide (seconds (datetime_sub now (created_at self)) < expiration_time), warned).

(** [str.isspace] on the characters a [string] holds here, the code points
    below 256: the ASCII blanks and separators, NEL and the no-break space. *)
Definition isspace (a : ascii) : bool :=
  let n := Z.of_N (N_of_ascii a) in
  bool_decide (9 ≤ n ≤ 13 ∨ 28 ≤ n ≤ 32 ∨ n = 133 ∨ n = 160).

Fixpoint lstrip (s : string) : string :=
  match s with
  | EmptyString => EmptyString
  | String a s' => if isspace a then lstrip s' else s
  end.

(** [rstrip]: a character is dropped when it is blank and everything after
    it has been dropped. *)
Fixpoint rstrip (s : string) : string :=
  match s with
  | EmptyString => EmptyString
  | String a s' =>
      match rstrip s' with
      | EmptyString => if isspace a then EmptyString else String a EmptyString
      | rest => String a rest
      end
  end.

Definition strip (s : string) : string := rstrip (lstrip s).

(** [CustomUser.full_name]; a missing name and an empty one are the same
    to [or ''], and both are the empty string of the record. *)
Definition full_name (self : CustomUser) : string :=
  strip (first_name self +:+ " " +:+ last_name self).

End AccountsMore.

(** ** config/utils/redis_handler.py: the singleton *)

Module RedisSingleton.

(** The class attribute [RedisClient._instance]: [None] before the first
    construction, afterwards the instance with its [redis] attribute. *)
Definition class_state : Type := option (option Redis.Client).

(** [RedisClient()]: the first construction connects, every later one
    returns the instance kept in the class. *)
Definition RedisClient (_instance : class_state) (srv : Redis.Server)
  : Result (class_state * option Redis.Client) :=
  match _instance with
  | None =>
      redis ← Redis.RedisClient_new srv;
      Ok (Some redis, redis)
  | Some redis => Ok (Some redis, redis)
  end.

End RedisSingleton.

(** ** boards/views.py: the remaining views *)

Module MoreViews.

(** [rest_framework.response.Response] with the status codes the views
    use. *)
Inductive Reply (A : Type) : Type :=
| HTTP_200_OK (body : A)
| HTTP_204_NO_CONTENT
| HTTP_400_BAD_REQUEST.
Arguments HTTP_200_OK {A} body.
Arguments HTTP_204_NO_CONTENT {A}.
Arguments HTTP_400_BAD_REQUEST {A}.

(** A primary key taken from the query string; an absent parameter is
    [None]. *)
Definition pk_of_param (v : option string) : Result (option Z) :=
  match v with
  | None => Ok None
  | Some s => z ← int s; Ok (Some z)
  end.

(** Truth value of a query parameter: absent and empty are false. *)
Definition truthy (v : option string) : bool :=
  match v with
  | None => false
  | Some s => bool_decide (s ≠ "")
  end.

(** *** BoardStar *)

Definition BoardStar_permission_classes : list PermissionClass := [CanViewBoard].

Definition BoardStar_get_board (d : DB) (req : Request) (pk : JSON) : Result Board :=
  k ← pk_of_json pk;
  board ← get_object_or_404 (filter (λ b, Some (board_id b) = k) (boards d));
  _ ← check_object_permissions d BoardStar_permission_classes req (OBoard board);
  Ok board.

(** The rows of the many-to-many table [starred_boards] of a user. *)
Definition starred_of (d : DB) (uid : Z) : gset Z :=
  ⋃ (starred_boards <$> filter (λ u, user_id u = uid) (users d)).

Definition with_users (f : list CustomUser → list CustomUser) (d : DB) : DB :=
  {| users := f (users d); projects := projects d; memberships := memberships d;
     boards := boards d; lists := lists d; items := items d;
     label_rows := label_rows d; comments := comments d;
     attachments := attachments d |}.

Definition set_starred (uid : Z) (s : gset Z) : DB → DB :=
  with_users (fmap (λ u,
    if decide (user_id u = uid)
    then {| user_id := user_id u; email := email u; first_name := first_name u;
            last_name := last_name u; starred_boards := s |}
    else u)).

(** [BoardStar.post]: [remove] when the board is starred, [add] otherwise. *)
Definition BoardStar_post (req : Request) : View (Reply unit) :=
  match data req !! "board" with
  | None => mret HTTP_400_BAD_REQUEST
  | Some board_pk =>
      board ← lift (λ d, BoardStar_get_board d req board_pk);
      starred ← lift (λ d, Ok (starred_of d (user_id (user req))));
      _ ← write_db (set_starred (user_id (user req)) (toggle (board_id board) starred));
      mret HTTP_204_NO_CONTENT
  end.

(** *** ListShow *)

Definition ListShow_permission_classes : list PermissionClass := [CanViewBoard].

Definition ListShow_get_board (d : DB) (req : Request) (pk : option Z) : Result Board :=
  board ← get_object_or_404 (filter (λ b, Some (board_id b) = pk) (boards d));
  _ ← check_object_permissions d ListShow_permission_classes req (OBoard board);
  Ok board.

Definition order_le (a b : List_) : Prop := list_order a ≤ list_order b.

#[global] Instance order_le_dec a b : Decision (order_le a b).
Proof. unfold order_le. apply _. Defined.

(** [ListShow.get_queryset] *)
Definition ListShow_get_queryset (req : Request) (d : DB) : Result (list List_) :=
  board_pk ← pk_of_param (query req !! "board");
  board ← ListShow_get_board d req board_pk;
  Ok (merge_sort order_le (filter (λ l, list_board l = board_id board) (lists d))).

(** [ListShow.get] *)
Definition ListShow_get (req : Request) (d : DB) : Result (Reply (list List_)) :=
  match query req !! "board" with
  | None => Ok HTTP_400_BAD_REQUEST
  | Some _ => qs ← ListShow_get_queryset req d; Ok (HTTP_200_OK qs)
  end.

(** *** ItemList *)

Definition ItemList_permission_classes : list PermissionClass := [CanViewBoard].

Definition ItemList_get_list (d : DB) (req : Request) (pk : option Z) : Result List_ :=
  list_obj ← get_object_or_404 (filter (λ l, Some (list_id l) = pk) (lists d));
  board ← List_board d list_obj;
  _ ← check_object_permissions d ItemList_permission_classes req (OBoard board);
  Ok list_obj.

Definition item_order_le (a b : Item) : Prop := item_order a ≤ item_order b.

#[global] Instance item_order_le_dec a b : Decision (item_order_le a b).
Proof. unfold item_order_le. apply _. Defined.

(** [ItemList.get_queryset] *)
Definition ItemList_get_queryset (req : Request) (d : DB) : Result (list Item) :=
  let list_param := query req !! "list" in
  let search := query req !! "q" in
  if truthy list_param then
    list_pk ← pk_of_param list_param;
    list_obj ← ItemList_get_list d req list_pk;
    Ok (merge_sort item_order_le
          (filter (λ i, item_list i = list_id list_obj) (items d)))
  else if truthy search then
    let project_ids :=
      pm_project <$> filter (λ pm, pm_member pm = user_id (user req)) (memberships d) in
    let boards :=
      filter (λ b,
        (owner_id b ∈ project_ids
         ∧ owner_model b = ContentType_objects_get "project")
        ∨ (owner_id b = user_id (user req)
           ∧ owner_model b = ContentType_objects_get "customuser"))
      (boards d) in
    let lists := filter (λ l, list_board l ∈ board_id <$> boards) (lists d) in
    Ok (take 2
          (filter (λ i, item_list i ∈ list_id <$> lists
                        ∧ Is_true (icontains (item_title i) (default "" search)))
                  (items d)))
  else Ok [].

(** [ItemList.get] *)
Definition ItemList_get (req : Request) (d : DB) : Result (Reply (list Item)) :=
  if decide (is_Some (query req !! "list") ∨ is_Some (query req !! "q")) then
    qs ← ItemList_get_queryset req d; Ok (HTTP_200_OK qs)
  else Ok HTTP_400_BAD_REQUEST.

(** *** CommentList and LabelList *)

Definition CommentList_permission_classes : list PermissionClass := [CanViewBoard].

Definition CommentList_get_item (d : DB) (req : Request) (pk : option Z) : Result Item :=
  item ← get_object_or_404 (filter (λ i, Some (item_id i) = pk) (items d));
  board ← Item_list_board d item;
  _ ← check_object_permissions d CommentList_permission_classes req (OBoard board);
  Ok item.

(** [CommentList.get_queryset] *)
Definition CommentList_get_queryset (req : Request) (d : DB) : Result (list Comment) :=
  item_pk ← pk_of_param (query req !! "item");
  item ← CommentList_get_item d req item_pk;
  Ok (filter (λ c, comment_item c = item_id item) (comments d)).

Definition LabelList_permission_classes : list PermissionClass := [CanViewBoard].

Definition LabelList_get_board (d : DB) (req : Request) (pk : option Z) : Result Board :=
  board ← get_object_or_404 (filter (λ b, Some (board_id b) = pk) (boards d));
  _ ← check_object_permissions d LabelList_permission_classes req (OBoard board);
  Ok board.

(** [LabelList.get_queryset] *)
Definition LabelList_get_queryset (req : Request) (d : DB) : Result (list Label) :=
  board_pk ← pk_of_param (query req !! "board");
  board ← LabelList_get_board d req board_pk;
  Ok (filter (λ l, label_board l = board_id board) (label_rows d)).

(** *** NotificationList *)

(** [boards.models.Notification]: the fields the view reads and writes. *)
Record Notification : Type := {
  notification_id : Z;
  recipient : Z;
  unread : bool;
  notification_created_at : Z
}.

Definition newer_first (a b : Notification) : Prop :=
  notification_created_at b ≤ notification_created_at a.

#[global] Instance newer_first_dec a b : Decision (newer_first a b).
Proof. unfold newer_first. apply _. Defined.

(** [NotificationList.get] over the notification table. *)
Definition NotificationList_get (req : Request) (table : list Notification)
  : list Notification :=
  merge_sort newer_first (filter (λ n, recipient n = user_id (user req)) table).

(** [NotificationList.post]: the reply and the table after the [update]. *)
Definition NotificationList_post (req : Request) (table : list Notification)
  : Reply unit * list Notification :=
  (HTTP_204_NO_CONTENT,
   (λ n, if decide (recipient n = user_id (user req) ∧ unread n = true)
         then {| notification_id := notification_id n; recipient := recipient n;
                 unread := false;
                 notification_created_at := notification_created_at n |}
         else n) <$> table).

End MoreViews.

(** * Further vocabulary *)

(** The key of a user's sorted set of recently viewed boards. *)
Definition recent_key (u : CustomUser) : string :=
  email u +:+ ":RecentlyViewedBoards".

(** The keys [int] reads back from their decimal text: those of at most
    [max_str_digits] digits, as every key of the database is. *)
Definition key_in_range (pk : Z) : Prop := Z.abs pk < 10 ^ max_str_digits.

#[global] Instance key_in_range_dec pk : Decision (key_in_range pk).
Proof. unfold key_in_range. apply _. Defined.

(** A text made of decimal digits only. *)
Fixpoint all_digits (s : string) : bool :=
  match s with
  | EmptyString => true
  | String a s' => (if digit_of a is Some _ then true else false) && all_digits s'
  end.

(** Primary keys are unique in the board table. *)
Definition board_pk_unique (d : DB) : Prop := NoDup (board_id <$> boards d).

(** A sequence of board retrievals, oldest first: the clock, the request
    and the key of each.  [retrieve_boards] is the world they leave behind,
    whatever each of them answered. *)
Fixpoint retrieve_boards (c : Redis.Client) (calls : list (datetime * Request * Z))
    (w : World) : World :=
  match calls with
  | [] => w
  | call :: rest =>
      retrieve_boards c rest
        (BoardDetail_get_object (Some c) call.1.1 call.1.2 call.2 w).2
  end.

(** The timestamp under which a key was last recorded by such a sequence. *)
Fixpoint last_viewed (calls : list (datetime * Request * Z)) (pk : Z) : option Z :=
  match calls with
  | [] => None
  | call :: rest =>
      match last_viewed rest pk with
      | Some t => Some t
      | None => if decide (call.2 = pk) then Some (strftime_int call.1.1) else None
      end
  end.

(** Board [b] was last viewed no earlier than board [b']. *)
Definition viewed_no_earlier (calls : list (datetime * Request * Z)) (b b' : Board)
  : Prop :=
  ∃ t t', last_viewed calls (board_id b) = Some t
          ∧ last_viewed calls (board_id b') = Some t' ∧ t' ≤ t.

(** The entries of the sorted set under [key], other than [member], whose
    score is [t] or later. *)
Definition tracked_not_older (srv : Redis.Server) (key member : string) (t : Z)
  : list (string * Z) :=
  filter (λ x, x.1 ≠ member ∧ t ≤ x.2)
         (map_to_list (default ∅ (Redis.zsets srv !! key))).

(** What one retrieval records: the text of the key and the clock as an
    integer. *)
Definition view_of (call : datetime * Request * Z) : string * Z :=
  (pretty call.2, strftime_int call.1.1).

(** Further sample data: Bob has looked at boards 10 and 11 and at a board
    99 that has no row any more. *)
Module Sample2.

Definition bob_views : list (string * Z) :=
  [("10", 20250314110000); ("11", 20250314113000); ("99", 20250314115000)].

Definition w_recent : World :=
  {| db := Sample.db0;
     redis := record_views Sample.up (recent_key Sample.bob) bob_views |}.

Definition recent (u : CustomUser) : Request :=
  Sample.request u GET [] [("sort", "recent")].

End Sample2.

(** The same installation with a second list on Alice's board and a list
    on the project's board. *)
Module Sample3.

Definition later : List_ := {| list_id := 22; list_board := 10; list_order := 2 |}.
Definition backlog : List_ := {| list_id := 21; list_board := 11; list_order := 1 |}.

Definition db1 : DB :=
  {| users := users Sample.db0; projects := projects Sample.db0;
     memberships := memberships Sample.db0; boards := boards Sample.db0;
     lists := [Sample.todo; later; backlog];
     items := items Sample.db0; label_rows := label_rows Sample.db0;
     comments := comments Sample.db0; attachments := attachments Sample.db0 |}.

Definition w1 : World := {| db := db1; redis := Sample.up |}.

(** A serializer that accepts the request and validates no field. *)
Definition accept : Request → Item → Result ItemFields :=
  λ _ _, Ok no_item_fields.

End Sample3.

(** Three notifications: two for Alice, the older one already read, and
    one for Bob. *)
Module Sample4.

Definition table : list MoreViews.Notification :=
  [ {| MoreViews.notification_id := 1; MoreViews.recipient := 1;
       MoreViews.unread := false; MoreViews.notification_created_at := 100 |};
    {| MoreViews.notification_id := 2; MoreViews.recipient := 2;
       MoreViews.unread := true; MoreViews.notification_created_at := 150 |};
    {| MoreViews.notification_id := 3; MoreViews.recipient := 1;
       MoreViews.unread := true; MoreViews.notification_created_at := 200 |} ].

End Sample4.

(** Two sequences of retrievals by Alice. *)
Module Sample5.

Definition at_time (h m : Z) : datetime :=
  {| year := 2025; month := 3; day := 14; hour := h; minute := m; second := 0 |}.

Definition alice_get : Request := Sample.request Sample.alice GET [] [].

(** Alice retrieves board 10, then board 11, then board 10 again with the
    clock set back. *)
Definition calls : list (datetime * Request * Z) :=
  [(at_time 12 0, alice_get, 10); (at_time 12 5, alice_get, 11);
   (at_time 11 0, alice_get, 10)].

(** Alice retrieves board 10 and then asks for a board 999 that has no
    row. *)
Definition dangling : list (datetime * Request * Z) :=
  [(at_time 12 0, alice_get, 10); (at_time 12 5, alice_get, 999)].

End Sample5.

(** * Properties *)

(** ** Access Evaluator *)

Section AccessEvaluator.

Implicit Types (db : DB) (u : CustomUser) (B : Board).

Lemma filter_pair_unique (l : list ProjectMembership) (member project : Z) :
  NoDup ((λ pm, (pm_project pm, pm_member pm)) <$> l) →
  (length (filter (λ pm, pm_member pm = member ∧ pm_project pm = project) l) ≤ 1)%nat.
Proof.
  induction l as [|pm l IH]; intros Hnd; [simpl; lia|].
  rewrite fmap_cons in Hnd. apply NoDup_cons in Hnd as [Hnotin Hnd].
  rewrite filter_cons. destruct (decide _) as [[Hm Hp]|Hno].
  - assert (filter (λ pm0, pm_member pm0 = member ∧ pm_project pm0 = project) l = [])
      as ->; [|simpl; lia].
    destruct (filter _ l) as [|pm' rest] eqn:E; [done|].
    exfalso. apply Hnotin.
    assert (pm' ∈ filter (λ pm0, pm_member pm0 = member ∧ pm_project pm0 = project) l)
      as Hin by (rewrite E; left).
    apply list_elem_of_filter in Hin as [[Hm' Hp'] Hin].
    apply list_elem_of_fmap. exists pm'. split; [|done].
    by rewrite Hm, Hp, Hm', Hp'.
  - apply IH, Hnd.
Qed.

Lemma filter_nonempty_iff_member db (member project : Z) :
  filter (λ pm, pm_member pm = member ∧ pm_project pm = project) (memberships db) ≠ []
  ↔ is_member db member project.
Proof.
  unfold is_member. rewrite Exists_exists. split.
  - destruct (filter _ _) as [|pm rest] eqn:E; [done|]. intros _.
    assert (pm ∈ filter (λ pm, pm_member pm = member ∧ pm_project pm = project)
                   (memberships db)) as Hin by (rewrite E; left).
    apply list_elem_of_filter in Hin as [HP Hin]. eauto.
  - intros (pm & Hin & HP) E.
    assert (pm ∈ filter (λ pm, pm_member pm = member ∧ pm_project pm = project)
                   (memberships db)) as Hin'
      by (apply list_elem_of_filter; done).
    rewrite E in Hin'. by apply elem_of_nil in Hin'.
Qed.

Lemma ProjectMembership_get_unique db (member project : Z) :
  membership_unique db →
  (is_member db member project ∧ ∃ pm, ProjectMembership_get db member project = Ok pm)
  ∨ (¬ is_member db member project
     ∧ ProjectMembership_get db member project = Raise DoesNotExist).
Proof.
  intros Hu. pose proof (filter_pair_unique _ member project Hu) as Hlen.
  pose proof (filter_nonempty_iff_member db member project) as Hne.
  unfold ProjectMembership_get.
  destruct (filter _ (memberships db)) as [|pm [|pm' rest]]; simpl in *.
  - right. split; [|done]. intros Hm. by apply Hne in Hm.
  - left. split; [by apply Hne|eauto].
  - lia.
Qed.

(** Without the constraint, a duplicated membership row makes the lookup
    raise and the evaluator does not answer at all. *)
Lemma can_view_board_duplicate_membership :
  let pm1 := {| pm_id := 1; pm_project := 5; pm_member := 7; access_level := 1 |} in
  let pm2 := {| pm_id := 2; pm_project := 5; pm_member := 7; access_level := 2 |} in
  let db := {| users := []; projects := []; memberships := [pm1; pm2]; boards := [];
               lists := []; items := []; label_rows := []; comments := [];
               attachments := [] |} in
  let u := {| user_id := 7; email := "a@x.org"; first_name := ""; last_name := "";
              starred_boards := ∅ |} in
  let B := {| board_id := 1; board_title := "b"; owner_id := 5;
              owner_model := "project"; image := None; image_url := "";
              color := "" |} in
  can_view_board db u B = Raise MultipleObjectsReturned.
Proof. reflexivity. Qed.

Lemma can_view_board_level_independent (level : ProjectMembership → Z) db u B :
  can_view_board (with_access_levels level db) u B = can_view_board db u B.
Proof.
  unfold can_view_board, ProjectMembership_get. simpl.
  destruct (decide _); [|done].
  assert (∀ l : list ProjectMembership,
    length (filter (λ pm, pm_member pm = user_id u ∧ pm_project pm = owner_id B)
       ((λ pm, {| pm_id := pm_id pm; pm_project := pm_project pm;
                  pm_member := pm_member pm; access_level := level pm |}) <$> l))
    = length (filter (λ pm, pm_member pm = user_id u ∧ pm_project pm = owner_id B) l))
    as Hlen.
  { induction l as [|pm l IH]; [done|].
    rewrite fmap_cons, !filter_cons. simpl.
    destruct (decide _); simpl; by rewrite IH. }
  specialize (Hlen (memberships db)).
  destruct (filter _ (_ <$> _)) as [|? [|? ?]], (filter _ (memberships db)) as [|? [|? ?]];
    simpl in *; done.
Qed.

End AccessEvaluator.

Section AccessEvaluatorClaims.

Implicit Types (db : DB) (u U : CustomUser) (B : Board) (P : Project).

(** Any owner kind other than [project] takes the [else] branch, which
    only compares the owner id with the requester's id. *)
Lemma can_view_board_not_project db u B :
  owner_model B ≠ ContentType_objects_get "project" →
  can_view_board db u B = Ok (bool_decide (owner_id B = user_id u)).
Proof.
  intros Hk. unfold can_view_board.
  destruct (decide (owner_model B = _)) as [|_]; [done|].
  destruct (decide (owner_id B ≠ user_id u)) as [Hne|Heq].
  - by rewrite bool_decide_eq_false_2.
  - rewrite bool_decide_eq_true_2; [done|]. by destruct (decide (owner_id B = user_id u)).
Qed.

(** C1 (the code departs from the claim).  A board row whose owner kind is
    neither the user model nor the project model, and whose owner id
    equals Bob's id, is viewable by Bob: the evaluator does not fail
    closed on a corrupt owner kind. *)
Theorem can_view_board_corrupt_kind_allows :
  owner_model Sample.stray_board ≠ ContentType_objects_get "customuser"
  ∧ owner_model Sample.stray_board ≠ ContentType_objects_get "project"
  ∧ can_view_board Sample.db0 Sample.bob Sample.stray_board = Ok true.
Proof. repeat split; done. Qed.

(** C5.  For a board owned by project P, under the unique constraint of
    the membership table, the evaluator answers, and it answers true
    exactly when the requester has a membership row for P; rewriting the
    access levels of the memberships does not change the answer. *)
Theorem can_view_project_board_iff_member db P u B :
  owner_model B = ContentType_objects_get "project" →
  owner_id B = project_id P →
  membership_unique db →
  can_view_board db u B = Ok (bool_decide (is_member db (user_id u) (project_id P)))
  ∧ (can_view_board db u B = Ok true ↔ is_member db (user_id u) (project_id P))
  ∧ (∀ level, can_view_board (with_access_levels level db) u B = can_view_board db u B).
Proof.
  intros Hk Ho Hu.
  assert (can_view_board db u B
          = Ok (bool_decide (is_member db (user_id u) (project_id P)))) as Heq.
  { unfold can_view_board. rewrite Hk, Ho.
    destruct (decide _) as [_|]; [|done].
    destruct (ProjectMembership_get_unique db (user_id u) (project_id P) Hu)
      as [[Hm [pm ->]]|[Hm ->]].
    - by rewrite bool_decide_eq_true_2.
    - by rewrite bool_decide_eq_false_2. }
  split; [done|]. split.
  - rewrite Heq. split.
    + intros [= H]. by apply bool_decide_eq_true in H.
    + intros H. by rewrite bool_decide_eq_true_2.
  - intros level. apply can_view_board_level_independent.
Qed.

Lemma can_view_project_board_iff_member_witness :
  owner_model Sample.project_board = ContentType_objects_get "project"
  ∧ owner_id Sample.project_board = project_id {| project_id := 5; project_owner := 2 |}
  ∧ membership_unique Sample.db0
  ∧ can_view_board Sample.db0 Sample.bob Sample.project_board = Ok true
  ∧ can_view_board Sample.db0 Sample.alice Sample.project_board = Ok false.
Proof.
  assert (membership_unique Sample.db0) as Hu.
  { apply (bool_decide_unpack _). vm_compute. exact I. }
  split; [reflexivity|]. split; [reflexivity|]. split; [exact Hu|]. split.
  - exact (proj1 (can_view_project_board_iff_member Sample.db0
             {| project_id := 5; project_owner := 2 |} Sample.bob
             Sample.project_board eq_refl eq_refl Hu)).
  - exact (proj1 (can_view_project_board_iff_member Sample.db0
             {| project_id := 5; project_owner := 2 |} Sample.alice
             Sample.project_board eq_refl eq_refl Hu)).
Defined.

(** C6.  For a board owned by user U, the evaluator answers true exactly
    when the requester is U (users are identified by primary key),
    whatever the project memberships in the database are. *)
Theorem can_view_user_board_iff_owner db U u B :
  owner_model B = ContentType_objects_get "customuser" →
  owner_id B = user_id U →
  can_view_board db u B = Ok (bool_decide (user_id u = user_id U))
  ∧ (can_view_board db u B = Ok true ↔ user_id u = user_id U).
Proof.
  intros Hk Ho.
  assert (can_view_board db u B = Ok (bool_decide (user_id u = user_id U))) as Heq.
  { rewrite can_view_board_not_project by (rewrite Hk; done).
    rewrite Ho. f_equal. apply bool_decide_ext. split; congruence. }
  split; [done|]. rewrite Heq. split.
  - intros [= H]. by apply bool_decide_eq_true in H.
  - intros H. by rewrite bool_decide_eq_true_2.
Qed.

Lemma can_view_user_board_iff_owner_witness :
  owner_model Sample.alice_board = ContentType_objects_get "customuser"
  ∧ owner_id Sample.alice_board = user_id Sample.alice
  ∧ can_view_board Sample.db0 Sample.alice Sample.alice_board = Ok true
  ∧ can_view_board Sample.db0 Sample.bob Sample.alice_board = Ok false.
Proof.
  split; [reflexivity|]. split; [reflexivity|]. split.
  - exact (proj1 (can_view_user_board_iff_owner Sample.db0 Sample.alice Sample.alice
             Sample.alice_board eq_refl eq_refl)).
  - exact (proj1 (can_view_user_board_iff_owner Sample.db0 Sample.alice Sample.bob
             Sample.alice_board eq_refl eq_refl)).
Defined.

End AccessEvaluatorClaims.

(** ** Primary keys as text *)

Section PrimaryKeyText.

Lemma digit_not_blank (a : ascii) (d : Z) :
  digit_of a = Some d →
  int_blank a = false ∧ a ≠ "_"%char ∧ a ≠ "-"%char ∧ a ≠ "+"%char.
Proof.
  unfold digit_of, int_blank. intros H. case_decide as Hn; [|done].
  split; [apply bool_decide_eq_false; lia|].
  repeat split; intros ->; vm_compute in Hn; destruct Hn as [H1 H2];
    first [by apply H1 | by apply H2].
Qed.

Lemma all_digits_cons (a : ascii) (s : string) :
  all_digits (String a s) = true ↔ (∃ d, digit_of a = Some d) ∧ all_digits s = true.
Proof.
  cbn [all_digits]. rewrite andb_true_iff. destruct (digit_of a) as [d|].
  - split; [intros [_ ?]; eauto|intros [_ ?]; done].
  - split; [intros [[=] _]|intros [[d [=]] _]].
Qed.

Lemma skip_blanks_digits (s : string) : all_digits s = true → skip_blanks s = s.
Proof.
  destruct s as [|a s]; [done|]. intros [[d Hd] _]%all_digits_cons.
  simpl. by destruct (digit_not_blank a d Hd) as [-> _].
Qed.

Lemma drop_trailing_blanks_digits (s : string) :
  all_digits s = true → drop_trailing_blanks s = s.
Proof.
  induction s as [|a s IH]; [done|]. intros [[d Hd] Hs]%all_digits_cons.
  simpl. rewrite (IH Hs). destruct (digit_not_blank a d Hd) as [-> _].
  by destruct s.
Qed.

Lemma drop_trailing_blanks_cons (a : ascii) (s : string) :
  drop_trailing_blanks s ≠ "" →
  drop_trailing_blanks (String a s) = String a (drop_trailing_blanks s).
Proof. intros H. simpl. by destruct (drop_trailing_blanks s). Qed.

Lemma count_digits_length (s : string) :
  all_digits s = true → count_digits s = String.length s.
Proof.
  induction s as [|a s IH]; [done|]. intros [[d Hd] Hs]%all_digits_cons.
  simpl. rewrite Hd, (IH Hs). done.
Qed.

Lemma parse_digits_start (s : string) (acc : Z) :
  all_digits s = true → s ≠ "" →
  parse_digits false acc s = parse_digits true acc s.
Proof.
  destruct s as [|a s]; [done|]. intros [[d Hd] _]%all_digits_cons _.
  cbn [parse_digits]. destruct (digit_not_blank a d Hd) as (_ & Hu & _).
  by rewrite !decide_False by done.
Qed.

Lemma parse_digits_acc (s : string) :
  all_digits s = true →
  ∃ v, ∀ acc,
    parse_digits true acc s = Some (acc * 10 ^ Z.of_nat (String.length s) + v).
Proof.
  induction s as [|a s IH]; intros Hs.
  - exists 0. intros acc. simpl. f_equal. lia.
  - apply all_digits_cons in Hs as [[d Hd] Hs]. destruct (IH Hs) as [v Hv].
    exists (d * 10 ^ Z.of_nat (String.length s) + v). intros acc.
    destruct (digit_not_blank a d Hd) as (_ & Hu & _).
    cbn [parse_digits String.length]. rewrite decide_False by done. rewrite Hd, Hv.
    f_equal. rewrite Nat2Z.inj_succ, Z.pow_succ_r by lia. ring.
Qed.

Lemma digit_of_pretty_char (x : N) :
  (x < 10)%N → digit_of (pretty_N_char x) = Some (Z.of_N x).
Proof.
  intros Hx.
  assert (x = 0 ∨ x = 1 ∨ x = 2 ∨ x = 3 ∨ x = 4 ∨ x = 5 ∨ x = 6 ∨ x = 7
          ∨ x = 8 ∨ x = 9)%N as Hc by lia.
  destruct Hc as [->|[->|[->|[->|[->|[->|[->|[->|[->| ->]]]]]]]]]; reflexivity.
Qed.

(** What [pretty_N_go] puts before [s]: digits, as many as [x] has, that
    read as [x]. *)
Lemma pretty_N_go_digits (x : N) (s : string) :
  all_digits s = true → all_digits (pretty_N_go x s) = true.
Proof.
  revert s. induction (N.lt_wf_0 x) as [x _ IH]; intros s Hs.
  destruct (decide (x = 0)%N) as [->|Hx]; [by rewrite pretty_N_go_0|].
  rewrite pretty_N_go_step by lia. apply IH; [apply N.div_lt; lia|].
  apply all_digits_cons. split; [|done]. eexists.
  apply digit_of_pretty_char, N.mod_lt. lia.
Qed.

Lemma pretty_N_go_value (x : N) (s : string) (v : Z) :
  all_digits s = true →
  parse_digits true 0 s = Some v →
  parse_digits true 0 (pretty_N_go x s)
  = Some (Z.of_N x * 10 ^ Z.of_nat (String.length s) + v).
Proof.
  revert s v. induction (N.lt_wf_0 x) as [x _ IH]; intros s v Hs Hv.
  destruct (decide (x = 0)%N) as [->|Hx].
  - rewrite pretty_N_go_0, Hv. f_equal; lia.
  - rewrite pretty_N_go_step by lia.
    assert (digit_of (pretty_N_char (x `mod` 10)) = Some (Z.of_N (x `mod` 10))) as Hd
      by (apply digit_of_pretty_char, N.mod_lt; lia).
    destruct (parse_digits_acc s Hs) as [v' Hv'].
    assert (v' = v) as ->.
    { specialize (Hv' 0). rewrite Hv in Hv'. injection Hv' as ->. lia. }
    rewrite (IH (x `div` 10)%N) with
      (v := Z.of_N (x `mod` 10) * 10 ^ Z.of_nat (String.length s) + v).
    + f_equal. cbn [String.length].
      rewrite Nat2Z.inj_succ, Z.pow_succ_r by lia.
      rewrite N2Z.inj_div, N2Z.inj_mod. change (Z.of_N 10) with 10.
      pose proof (Z.div_mod (Z.of_N x) 10 ltac:(lia)). nia.
    + apply N.div_lt; lia.
    + apply all_digits_cons. eauto.
    + destruct (digit_not_blank _ _ Hd) as (_ & Hu & _).
      cbn [parse_digits]. rewrite decide_False by done. rewrite Hd, Hv'.
      f_equal; lia.
Qed.

Lemma pretty_N_go_length_le (k : nat) (x : N) (s : string) :
  (x < 10 ^ N.of_nat k)%N →
  (String.length (pretty_N_go x s) ≤ k + String.length s)%nat.
Proof.
  revert x s. induction k as [|k IH]; intros x s Hx.
  - assert (x = 0%N) as -> by (simpl in Hx; lia). rewrite pretty_N_go_0. lia.
  - destruct (decide (x = 0)%N) as [->|Hx0]; [rewrite pretty_N_go_0; lia|].
    rewrite pretty_N_go_step by lia.
    etrans; [apply IH|simpl; lia].
    rewrite Nat2N.inj_succ, N.pow_succ_r' in Hx.
    apply N.Div0.div_lt_upper_bound. lia.
Qed.

Lemma pretty_N_go_length_ge (x : N) (s : string) :
  (String.length s ≤ String.length (pretty_N_go x s))%nat.
Proof.
  revert s. induction (N.lt_wf_0 x) as [x _ IH]; intros s.
  destruct (decide (x = 0)%N) as [->|Hx]; [by rewrite pretty_N_go_0|].
  rewrite pretty_N_go_step by lia.
  etrans; [|apply IH, N.div_lt; lia]. simpl. lia.
Qed.

Lemma pretty_N_go_length_gt (k : nat) (x : N) (s : string) :
  (10 ^ N.of_nat k ≤ x)%N →
  (k + 1 + String.length s ≤ String.length (pretty_N_go x s))%nat.
Proof.
  revert x s. induction k as [|k IH]; intros x s Hx.
  - rewrite pretty_N_go_step by (simpl in Hx; lia).
    etrans; [|apply pretty_N_go_length_ge]. simpl. lia.
  - rewrite Nat2N.inj_succ, N.pow_succ_r' in Hx.
    rewrite pretty_N_go_step by lia.
    etrans; [|apply IH].
    + simpl. lia.
    + apply N.div_le_lower_bound; lia.
Qed.

(** The text of a positive number and what [int] makes of it. *)
Lemma pretty_pos_digits (p : positive) :
  ∃ a s, pretty (N.pos p) = String a s
    ∧ all_digits (String a s) = true
    ∧ parse_digits true 0 (String a s) = Some (Z.pos p)
    ∧ (Z.of_nat (String.length (String a s)) ≤ max_str_digits
       ↔ Z.pos p < 10 ^ max_str_digits).
Proof.
  unfold pretty, pretty_N. rewrite decide_False by done.
  assert (all_digits (pretty_N_go (N.pos p) "") = true) as Hd
    by (by apply pretty_N_go_digits).
  pose proof (pretty_N_go_value (N.pos p) "" 0 eq_refl eq_refl) as Hv.
  assert (Z.of_N (N.pos p) * 10 ^ Z.of_nat (String.length "") + 0 = Z.pos p) as E
    by (simpl; lia).
  rewrite E in Hv. clear E.
  assert (0 ≤ max_str_digits) as Hk by (unfold max_str_digits; lia).
  assert (Z.of_nat (String.length (pretty_N_go (N.pos p) "")) ≤ max_str_digits
          ↔ Z.pos p < 10 ^ max_str_digits) as Hlen.
  { rewrite <- (Z2Nat.id max_str_digits) by done.
    generalize (Z.to_nat max_str_digits) as k. intros k.
    assert (10 ^ Z.of_nat k = Z.of_N (10 ^ N.of_nat k)) as ->.
    { rewrite N2Z.inj_pow, nat_N_Z. done. }
    split.
    - intros Hle. destruct (decide (10 ^ N.of_nat k ≤ N.pos p)%N) as [Hge|]; [|lia].
      pose proof (pretty_N_go_length_gt k (N.pos p) "" Hge). simpl in *. lia.
    - intros Hlt.
      pose proof (pretty_N_go_length_le k (N.pos p) "" ltac:(lia)). simpl in *. lia. }
  destruct (pretty_N_go (N.pos p) "") as [|a s] eqn:Es.
  - simpl in Hv. injection Hv as Hv. lia.
  - by exists a, s.
Qed.

Lemma int_digits (a : ascii) (s : string) (v : Z) :
  all_digits (String a s) = true →
  parse_digits true 0 (String a s) = Some v →
  int (String a s)
  = (if decide (Z.of_nat (String.length (String a s)) ≤ max_str_digits)
     then Ok v else Raise ValueError)
  ∧ int (String "-" (String a s))
    = (if decide (Z.of_nat (String.length (String a s)) ≤ max_str_digits)
       then Ok (- v) else Raise ValueError).
Proof.
  intros Hd Hv.
  pose proof (proj1 (all_digits_cons a s) Hd) as [[d Ha] _].
  destruct (digit_not_blank a d Ha) as (Hb & _ & Hm & Hp).
  assert (parse_digits false 0 (String a s) = Some v) as Hv'
    by (rewrite parse_digits_start; done).
  assert (drop_trailing_blanks (String a s) = String a s) as Hdrop
    by (by apply drop_trailing_blanks_digits).
  split; unfold int.
  - rewrite skip_blanks_digits, Hdrop by done.
    rewrite !decide_False by done. rewrite Hv', count_digits_length by done. done.
  - assert (skip_blanks (String "-" (String a s)) = String "-" (String a s)) as ->
      by reflexivity.
    rewrite drop_trailing_blanks_cons by (by rewrite Hdrop). rewrite Hdrop.
    rewrite decide_True by done.
    rewrite Hv', count_digits_length by done. done.
Qed.

(** [int(str(pk))] for a key of at most [max_str_digits] digits. *)
Lemma int_pretty (pk : Z) :
  int (pretty pk) = if decide (key_in_range pk) then Ok pk else Raise ValueError.
Proof.
  unfold key_in_range. destruct pk as [|p|p].
  - rewrite decide_True; [reflexivity|]. simpl. apply Z.pow_pos_nonneg; [lia|].
    unfold max_str_digits. lia.
  - change (pretty (Z.pos p)) with (pretty (N.pos p)).
    destruct (pretty_pos_digits p) as (a & s & -> & Hd & Hv & Hlen).
    rewrite (proj1 (int_digits a s _ Hd Hv)). simpl Z.abs.
    repeat case_decide; first [done | tauto].
  - change (pretty (Z.neg p)) with (String "-" (pretty (N.pos p))).
    destruct (pretty_pos_digits p) as (a & s & -> & Hd & Hv & Hlen).
    rewrite (proj2 (int_digits a s _ Hd Hv)). simpl Z.abs.
    repeat case_decide; first [done | tauto].
Qed.

Lemma int_pretty_roundtrip (pk : Z) :
  key_in_range pk → int (pretty pk) = Ok pk.
Proof. intros H. rewrite int_pretty. by rewrite decide_True. Qed.

(** X6.  The text under which a board is recorded in the sorted set is
    read back as the same primary key, [int(str(pk)) == pk], for every key
    of at most [max_str_digits] digits, a longer one being refused by
    [int]; and two different keys are never recorded under the same text,
    so the recent list asks the database for exactly the boards that were
    recorded. *)
Theorem int_of_pretty (pk pk' : Z) :
  int (pretty pk) = (if decide (key_in_range pk) then Ok pk else Raise ValueError)
  ∧ (pretty pk = pretty pk' → pk = pk').
Proof.
  split; [apply int_pretty|]. apply (inj pretty).
Qed.

Lemma int_of_pretty_witness :
  pretty 42 = "42" ∧ key_in_range 42 ∧ int (pretty 42) = Ok 42.
Proof.
  assert (key_in_range 42) as Hk by (vm_compute; reflexivity).
  split; [reflexivity|]. split; [exact Hk|].
  pose proof (proj1 (int_of_pretty 42 42)) as H.
  rewrite decide_True in H by exact Hk. exact H.
Defined.

End PrimaryKeyText.

(** ** Recency Tracker *)

Section RecencyTracker.

Import Redis.

#[local] Instance zset_before_total : Total zset_before.
Proof.
  intros [m1 t1] [m2 t2]. unfold zset_before. simpl.
  destruct (Z.lt_trichotomy t1 t2) as [?|[->|?]]; [right; left; lia| |left; left; lia].
  destruct (String.leb_total m1 m2); [right|left]; right; done.
Qed.

Lemma Sorted_weaken {A} (R R' : relation A) (l : list A) :
  (∀ x y, R x y → R' x y) → Sorted R l → Sorted R' l.
Proof.
  intros HR. induction 1 as [|x l Hs IH Hhd]; constructor; [done|].
  destruct Hhd; constructor; auto.
Qed.

Lemma zset_desc_scores (z : gmap string Z) :
  StronglySorted (λ x y : string * Z, y.2 ≤ x.2) (zset_desc z).
Proof.
  apply Sorted_StronglySorted.
  - intros x y w. lia.
  - apply (Sorted_weaken zset_before); [|apply Sorted_merge_sort, _].
    intros x y [?|[? _]]; lia.
Qed.

Lemma zset_desc_elem (z : gmap string Z) m t :
  (m, t) ∈ zset_desc z ↔ z !! m = Some t.
Proof.
  unfold zset_desc. rewrite merge_sort_Permutation. apply elem_of_map_to_list.
Qed.

Lemma zset_desc_NoDup (z : gmap string Z) : NoDup (zset_desc z).*1.
Proof.
  unfold zset_desc. rewrite merge_sort_Permutation. apply NoDup_fst_map_to_list.
Qed.

Lemma zslice_prefix {A} (l : list A) (stop : Z) :
  0 ≤ stop → zslice l 0 stop = take (S (Z.to_nat stop)) l.
Proof.
  intros Hs. unfold zslice.
  repeat case_decide; try lia; rewrite ?Z.sub_0_r, ?drop_0.
  - destruct l as [|x l]; [done|]. simpl in *. lia.
  - rewrite !take_ge by lia. done.
  - f_equal. lia.
Qed.

Lemma zscore_zadd srv key m t m' :
  zscore (server_zadd srv key m t) key m'
  = if decide (m = m') then Some t else zscore srv key m'.
Proof.
  unfold zscore, server_zadd. simpl. rewrite lookup_insert_eq. simpl.
  apply lookup_insert.
Qed.

Lemma zscore_record_views srv key views m :
  zscore (record_views srv key views) key m
  = match last_recorded views m with
    | Some t => Some t
    | None => zscore srv key m
    end.
Proof.
  revert srv. induction views as [|[m0 t0] rest IH]; intros srv; simpl; [done|].
  rewrite IH. destruct (last_recorded rest m); [done|].
  rewrite zscore_zadd. by destruct (decide (m0 = m)).
Qed.

(** The head of the descending range carries a greatest score. *)
Lemma zset_desc_head (z : gmap string Z) m t :
  z !! m = Some t →
  ∃ b tb rest, zset_desc z = (b, tb) :: rest
    ∧ z !! b = Some tb
    ∧ ∀ b' t', z !! b' = Some t' → t' ≤ tb.
Proof.
  intros Hm. pose proof (zset_desc_scores z) as Hs.
  pose proof (zset_desc_elem z) as He.
  destruct (zset_desc z) as [|[b tb] rest] eqn:E.
  - apply He in Hm. by apply elem_of_nil in Hm.
  - exists b, tb, rest. split; [done|]. split.
    + apply He. left.
    + intros b' t' Hb'. apply He in Hb'.
      apply StronglySorted_cons in Hs as [Hall _].
      apply elem_of_cons in Hb' as [[= -> ->]|Hin]; [lia|].
      rewrite Forall_forall in Hall. specialize (Hall _ Hin). simpl in Hall. lia.
Qed.

Lemma zset_desc_order (z : gmap string Z) b b' t t' :
  z !! b = Some t → z !! b' = Some t' → t < t' →
  ∃ l1 l2 l3, zset_desc z = (l1 ++ (b', t') :: l2 ++ (b, t) :: l3)%list.
Proof.
  intros Hb Hb' Hlt.
  apply zset_desc_elem in Hb, Hb'. pose proof (zset_desc_scores z) as Hs.
  apply list_elem_of_split in Hb as (l1 & l3 & E). rewrite E in Hb', Hs.
  apply elem_of_app in Hb' as [Hin|Hin].
  - apply list_elem_of_split in Hin as (l1a & l1b & ->).
    exists l1a, l1b, l3. rewrite E, <- app_assoc. done.
  - apply StronglySorted_app in Hs as (_ & _ & Hs).
    apply StronglySorted_cons in Hs as [Hall _].
    apply elem_of_cons in Hin as [[= -> ->]|Hin]; [lia|].
    rewrite Forall_forall in Hall. specialize (Hall _ Hin). simpl in Hall. lia.
Qed.

Lemma BoardList_recent_ids c req w :
  reachable (redis w) = true →
  query req !! "sort" = Some "recent" →
  BoardList_get_queryset (Some c) req w
  = (pks ← mapM int (server_zrange_desc (redis w)
              (email (user req) +:+ ":RecentlyViewedBoards") 0 3);
     Ok (order_by_preserved pks (filter (λ b, board_id b ∈ pks) (boards (db w))))).
Proof.
  intros Hr Hs. unfold BoardList_get_queryset, zrange_desc.
  rewrite Hs, Hr. rewrite decide_True by done. done.
Qed.

Lemma mapM_Result_Ok {A B} (f : A → Result B) (l : list A) (k : list B) :
  mapM f l = Ok k ↔ Forall2 (λ x y, f x = Ok y) l k.
Proof.
  revert k. induction l as [|x l IH]; intros k; simpl.
  - split; [intros [= <-]; constructor|by inversion 1].
  - split.
    + destruct (f x) as [y|e] eqn:Ey; [|done]. simpl.
      destruct (mapM f l) as [k'|e] eqn:Ek; [|done]. simpl.
      intros [= <-]. constructor; [done|]. by apply IH.
    + inversion 1 as [|? y ? k' Hy Hk]; subst. rewrite Hy. simpl.
      apply IH in Hk. rewrite Hk. done.
Qed.

Lemma StronglySorted_lookup {A} (R : relation A) (l : list A) (i j : nat) (x y : A) :
  StronglySorted R l → (i < j)%nat → l !! i = Some x → l !! j = Some y → R x y.
Proof.
  intros Hs. revert i j. induction Hs as [|a l Hs IH Hall]; intros i j Hij Hi Hj.
  - by rewrite lookup_nil in Hi.
  - destruct j as [|j]; [lia|]. simpl in Hj. destruct i as [|i].
    + simpl in Hi. injection Hi as <-. rewrite Forall_forall in Hall.
      apply Hall. by eapply list_elem_of_lookup_2.
    + simpl in Hi. apply (IH i j); [lia|done..].
Qed.

Lemma StronglySorted_elem_of_impl {A} (R R' : relation A) (l : list A) :
  (∀ x y, x ∈ l → y ∈ l → R x y → R' x y) →
  StronglySorted R l → StronglySorted R' l.
Proof.
  intros HR Hs. induction Hs as [|a l Hs IH Hall]; constructor.
  - apply IH. intros x y Hx Hy. apply HR; by right.
  - rewrite Forall_forall in Hall |- *. intros y Hy.
    apply HR; [left|by right|by apply Hall].
Qed.

Lemma StronglySorted_take {A} (R : relation A) (l : list A) (n : nat) :
  StronglySorted R l → StronglySorted R (take n l).
Proof.
  intros Hs. rewrite <- (take_drop n l) in Hs.
  by apply StronglySorted_app in Hs as (_ & Hs & _).
Qed.

#[local] Instance preserved_le_total pks : Total (preserved_le pks).
Proof. intros a b. unfold preserved_le. lia. Qed.

#[local] Instance preserved_le_trans pks : Transitive (preserved_le pks).
Proof. intros a b c. unfold preserved_le. lia. Qed.

Lemma Case_When_pos_elem (pks : list Z) (b : Board) :
  board_id b ∈ pks →
  ∃ i : nat, Case_When_pos pks b = Z.of_nat i ∧ pks !! i = Some (board_id b).
Proof.
  intros Hin. unfold Case_When_pos.
  destruct (list_find (λ pk, pk = board_id b) pks) as [[i pk]|] eqn:E.
  - apply list_find_Some in E as (Hi & -> & _). by exists i.
  - apply list_find_None in E. rewrite Forall_forall in E. by destruct (E _ Hin).
Qed.

(** The recent list, given the keys read from the range with the score of
    each: the boards come in the order of the keys, so by descending score,
    and a first key that has a row gives the first board. *)
Lemma order_by_preserved_ranked (T : Z → option Z) (top : list (string * Z))
    (pks : list Z) (bs : list Board) :
  Forall2 (λ x pk, T pk = Some x.2) top pks →
  StronglySorted (λ x y : string * Z, y.2 ≤ x.2) top →
  let qs := order_by_preserved pks (filter (λ b, board_id b ∈ pks) bs) in
  (∀ b, b ∈ qs → b ∈ bs ∧ is_Some (T (board_id b)))
  ∧ StronglySorted
      (λ b b', ∃ t t', T (board_id b) = Some t ∧ T (board_id b') = Some t' ∧ t' ≤ t) qs
  ∧ (∀ pk0 rest, pks = pk0 :: rest → (∃ b, b ∈ bs ∧ board_id b = pk0) →
       ∃ h tl, qs = h :: tl ∧ board_id h = pk0).
Proof.
  intros HT Hs qs.
  assert (∀ b, b ∈ qs → b ∈ bs ∧ board_id b ∈ pks) as Hqs.
  { intros b Hb. unfold qs, order_by_preserved in Hb.
    rewrite merge_sort_Permutation in Hb.
    by apply list_elem_of_filter in Hb as [? ?]. }
  assert (∀ b, b ∈ qs →
            ∃ (i : nat) x, Case_When_pos pks b = Z.of_nat i ∧ top !! i = Some x
                   ∧ T (board_id b) = Some x.2) as Hpos.
  { intros b Hb. apply Hqs in Hb as [_ Hin].
    destruct (Case_When_pos_elem pks b Hin) as (i & Ei & Hi).
    destruct (Forall2_lookup_r _ _ _ _ _ HT Hi) as (x & Hx & HTx).
    by exists i, x. }
  split; [|split].
  - intros b Hb. split; [by apply Hqs|].
    destruct (Hpos b Hb) as (i & x & _ & _ & ->). eauto.
  - apply (StronglySorted_elem_of_impl (preserved_le pks));
      [|apply StronglySorted_merge_sort; apply _].
    intros b b' Hb Hb' Hle. unfold preserved_le in Hle.
    destruct (Hpos b Hb) as (i & x & Ei & Hx & HTb).
    destruct (Hpos b' Hb') as (j & y & Ej & Hy & HTb').
    exists x.2, y.2. split; [done|]. split; [done|].
    rewrite Ei, Ej in Hle.
    destruct (decide (i = j)) as [->|Hne]; [rewrite Hx in Hy; injection Hy as ->; lia|].
    apply (StronglySorted_lookup _ _ i j x y Hs); [lia|done..].
  - intros pk0 rest -> (b & Hb & Hpk).
    assert (b ∈ qs) as Hbq.
    { unfold qs, order_by_preserved. rewrite merge_sort_Permutation.
      apply list_elem_of_filter. split; [|done]. rewrite Hpk. left. }
    assert (Case_When_pos (pk0 :: rest) b = 0) as Hb0.
    { unfold Case_When_pos. simpl. rewrite decide_True by done. done. }
    assert (StronglySorted (preserved_le (pk0 :: rest)) qs) as Hsorted
      by (apply StronglySorted_merge_sort; apply _).
    destruct qs as [|h tl] eqn:Eq; [by apply elem_of_nil in Hbq|].
    exists h, tl. split; [done|].
    assert (Case_When_pos (pk0 :: rest) h ≤ 0) as Hh.
    { apply elem_of_cons in Hbq as [<-|Hin]; [lia|].
      apply StronglySorted_cons in Hsorted as [Hall _].
      rewrite Forall_forall in Hall. specialize (Hall _ Hin).
      unfold preserved_le in Hall. lia. }
    destruct (Hqs h ltac:(left)) as [_ Hin].
    destruct (Case_When_pos_elem _ h Hin) as (i & Ei & Hi).
    assert (i = 0%nat) as -> by lia. simpl in Hi. by injection Hi.
Qed.


Lemma BoardDetail_get_object_world c now req pk w :
  reachable (redis w) = true →
  (BoardDetail_get_object (Some c) now req pk w).2
  = {| db := db w;
       redis := server_zadd (redis w) (recent_key (user req)) (pretty pk)
                  (strftime_int now) |}.
Proof.
  intros Hr. unfold BoardDetail_get_object, mbind, View_bind, on_redis, zadd, lift,
    recent_key.
  rewrite Hr. reflexivity.
Qed.

Lemma record_views_reachable srv key views :
  reachable (record_views srv key views) = reachable srv.
Proof.
  revert srv. induction views as [|v rest IH]; intros srv; [done|].
  simpl. by rewrite IH.
Qed.

Lemma retrieve_boards_world c u calls w :
  reachable (redis w) = true →
  Forall (λ call : datetime * Request * Z, user call.1.2 = u) calls →
  retrieve_boards c calls w
  = {| db := db w;
       redis := record_views (redis w) (recent_key u) (view_of <$> calls) |}.
Proof.
  intros Hr Hu. revert w Hr.
  induction Hu as [|[[now req] pk] rest Hcall _ IH]; intros w Hr.
  - by destruct w.
  - simpl in Hcall. cbn [retrieve_boards fst snd].
    rewrite BoardDetail_get_object_world by done. rewrite IH by done.
    rewrite Hcall. reflexivity.
Qed.

Lemma last_recorded_viewed calls pk :
  last_recorded (view_of <$> calls) (pretty pk) = last_viewed calls pk.
Proof.
  induction calls as [|[[now req] k] rest IH]; [done|].
  cbn [fmap list_fmap last_recorded last_viewed view_of fst snd]. rewrite IH.
  destruct (last_viewed rest pk); [done|].
  destruct (decide (k = pk)) as [->|Hne]; case_decide as E; try done.
  by apply (inj pretty) in E.
Qed.

Lemma last_recorded_member views m :
  is_Some (last_recorded views m) → m ∈ views.*1.
Proof.
  induction views as [|v rest IH]; [by intros [? [=]]|]. simpl.
  destruct (last_recorded rest m) as [t'|].
  - intros _. right. apply IH. eauto.
  - destruct (decide (v.1 = m)) as [<-|]; [left|by intros [? [=]]].
Qed.

(** After a sequence of retrievals by a user with nothing tracked before,
    every member of the user's sorted set is the text of a retrieved key
    and carries the timestamp of its last retrieval. *)
Lemma tracked_after_retrievals c u calls w m t :
  reachable (redis w) = true →
  zsets (redis w) !! recent_key u = None →
  Forall (λ call : datetime * Request * Z, user call.1.2 = u ∧ key_in_range call.2)
         calls →
  zscore (redis (retrieve_boards c calls w)) (recent_key u) m = Some t →
  ∃ pk, m = pretty pk ∧ key_in_range pk ∧ last_viewed calls pk = Some t.
Proof.
  intros Hr Hz Hcalls.
  rewrite (retrieve_boards_world c u) by (done || by eapply Forall_impl; [done|intros ? []]).
  cbn [redis]. rewrite zscore_record_views.
  destruct (last_recorded (view_of <$> calls) m) as [t'|] eqn:E.
  - intros [= ->]. pose proof (last_recorded_member _ _ (mk_is_Some _ _ E)) as Hm.
    apply list_elem_of_fmap in Hm as ([m' t'] & -> & Hm).
    apply list_elem_of_fmap in Hm as ([[now req] pk] & [= -> ->] & Hin).
    rewrite Forall_forall in Hcalls. destruct (Hcalls _ Hin) as [_ Hk].
    exists pk. split; [done|]. split; [done|]. by rewrite <- last_recorded_viewed.
  - unfold zscore. rewrite Hz. simpl. by rewrite lookup_empty.
Qed.


Lemma take_closed_upwards {A} (l l1 l2 l3 : list A) (x y : A) (n : nat) :
  NoDup l → l = (l1 ++ y :: l2 ++ x :: l3)%list → x ∈ take n l → y ∈ take n l.
Proof.
  intros Hnd E Hx. apply list_elem_of_lookup in Hx as [i Hi].
  apply lookup_take_Some in Hi as [Hi Hlt].
  assert (l !! (length l1 + S (length l2))%nat = Some x) as Hx.
  { rewrite E, lookup_app_r by lia.
    replace (length l1 + S (length l2) - length l1)%nat with (S (length l2)) by lia.
    simpl. rewrite lookup_app_r by lia. by rewrite Nat.sub_diag. }
  assert (i = (length l1 + S (length l2))%nat) as -> by (by eapply NoDup_lookup).
  apply (list_elem_of_lookup_2 _ (length l1)).
  rewrite lookup_take_lt by lia. rewrite E, lookup_app_r by lia.
  by rewrite Nat.sub_diag.
Qed.

Lemma Forall_exists_Forall2 {A B} (P : A → B → Prop) (l : list A) :
  Forall (λ x, ∃ y, P x y) l → ∃ k, Forall2 P l k.
Proof.
  induction 1 as [|x l [y Hy] _ [k Hk]]; [by exists []|].
  exists (y :: k). by constructor.
Qed.

(** The recent list on a reachable server, when every member in the range
    read is the text of a key: the keys [pks], in the order of the range. *)
Lemma BoardList_recent_parsed c req w (P : string * Z → Z → Prop) :
  reachable (redis w) = true →
  query req !! "sort" = Some "recent" →
  let top := take 4 (zset_desc (default ∅ (zsets (redis w) !! recent_key (user req)))) in
  Forall (λ x : string * Z, ∃ pk, int x.1 = Ok pk ∧ P x pk) top →
  ∃ pks,
    Forall2 (λ (x : string * Z) pk, int x.1 = Ok pk ∧ P x pk) top pks
    ∧ BoardList_get_queryset (Some c) req w
      = Ok (order_by_preserved pks (filter (λ b, board_id b ∈ pks) (boards (db w)))).
Proof.
  intros Hr Hs top Htop.
  destruct (Forall_exists_Forall2 _ _ Htop) as [pks Hpks].
  exists pks. split; [done|].
  rewrite BoardList_recent_ids by done. fold (recent_key (user req)).
  unfold server_zrange_desc. rewrite zslice_prefix by lia.
  change (S (Z.to_nat 3)) with 4%nat. fold top.
  assert (mapM int top.*1 = Ok pks) as ->; [|done].
  apply mapM_Result_Ok, Forall2_fmap_l.
  eapply Forall2_impl; [exact Hpks|]. by intros x pk [? _].
Qed.

End RecencyTracker.

Section RecencyTrackerClaims.

Import Redis.

(** C4, as the code has it.  Let a user with nothing tracked retrieve
    boards, any number of times.  Then (i) the sorted set carries, for
    every retrieved key, the timestamp of its last retrieval, whether
    that one was newer or older than the one before; (ii) the recent list
    is produced without error, and is empty when nothing was retrieved;
    (iii) it holds rows of the board table whose keys were retrieved, by
    descending last timestamp; (iv) when every key retrieved with the
    greatest timestamp has a row, the list starts with a board that
    carries that timestamp; (v) a listed board comes after every board of
    the table that has a newer last timestamp, so a board retrieved again
    under an older timestamp is not ahead of a board with a newer one. *)
Theorem recently_viewed_ranking
    (c : Client) (u : CustomUser) (calls : list (datetime * Request * Z))
    (recent : Request) (w : World) :
  reachable (redis w) = true →
  zsets (redis w) !! recent_key u = None →
  Forall (λ call : datetime * Request * Z, user call.1.2 = u ∧ key_in_range call.2)
         calls →
  user recent = u →
  query recent !! "sort" = Some "recent" →
  let w' := retrieve_boards c calls w in
  (∀ pk t, last_viewed calls pk = Some t →
           zscore (redis w') (recent_key u) (pretty pk) = Some t)
  ∧ ∃ qs,
      BoardList_get_queryset (Some c) recent w' = Ok qs
      ∧ (calls = [] → qs = [])
      ∧ (∀ b, b ∈ qs → b ∈ boards (db w) ∧ is_Some (last_viewed calls (board_id b)))
      ∧ StronglySorted (viewed_no_earlier calls) qs
      ∧ (∀ t, (∃ pk, last_viewed calls pk = Some t) →
           (∀ pk' t', last_viewed calls pk' = Some t' → t' ≤ t) →
           (∀ pk, last_viewed calls pk = Some t →
                  ∃ b, b ∈ boards (db w) ∧ board_id b = pk) →
           ∃ b rest, qs = b :: rest ∧ last_viewed calls (board_id b) = Some t)
      ∧ (∀ b b' t t',
           b ∈ qs → b' ∈ boards (db w) →
           last_viewed calls (board_id b) = Some t →
           last_viewed calls (board_id b') = Some t' → t < t' →
           ∃ l1 l2 l3, qs = (l1 ++ b' :: l2 ++ b :: l3)%list).
Proof.
  intros Hr Hz Hcalls Hu Hs w'.
  assert (Forall (λ call : datetime * Request * Z, user call.1.2 = u) calls) as Hby
    by (eapply Forall_impl; [exact Hcalls|by intros ? [? _]]).
  assert (w' = {| db := db w;
                  redis := record_views (redis w) (recent_key u) (view_of <$> calls) |})
    as Ew' by (by apply retrieve_boards_world).
  assert (reachable (redis w') = true) as Hr'
    by (rewrite Ew'; cbn [redis]; by rewrite record_views_reachable).
  assert (db w' = db w) as Edb by (by rewrite Ew').
  assert (∀ pk t, last_viewed calls pk = Some t →
            zscore (redis w') (recent_key u) (pretty pk) = Some t) as Hscore.
  { intros pk t Ht. rewrite Ew'. cbn [redis].
    by rewrite zscore_record_views, last_recorded_viewed, Ht. }
  split; [exact Hscore|].
  set (z := default ∅ (zsets (redis w') !! recent_key u)).
  assert (∀ m t, z !! m = Some t →
            ∃ pk, m = pretty pk ∧ key_in_range pk ∧ last_viewed calls pk = Some t)
    as Htracked.
  { intros m t Hm. by apply (tracked_after_retrievals c u calls w). }
  assert (Forall (λ x : string * Z,
            ∃ pk, int x.1 = Ok pk ∧ last_viewed calls pk = Some x.2)
            (take 4 (zset_desc z))) as Htop.
  { apply Forall_forall. intros [m t] Hx. apply subseteq_take, zset_desc_elem in Hx.
    destruct (Htracked m t Hx) as (pk & -> & Hk & Ht).
    exists pk. split; [by apply int_pretty_roundtrip|done]. }
  destruct (BoardList_recent_parsed c recent w'
              (λ x pk, last_viewed calls pk = Some x.2) Hr' Hs)
    as (pks & Hpks & ->); [by rewrite Hu|]. rewrite Hu in Hpks. fold z in Hpks.
  rewrite Edb.
  destruct (order_by_preserved_ranked (last_viewed calls) (take 4 (zset_desc z)) pks
              (boards (db w))) as (Hin & Hsorted & Hhead).
  { eapply Forall2_impl; [exact Hpks|]. by intros x pk [_ ?]. }
  { apply StronglySorted_take, zset_desc_scores. }
  eexists. split; [reflexivity|].
  split; [|split; [exact Hin|split; [exact Hsorted|split]]].
  - intros ->.
    destruct (order_by_preserved pks _) as [|b qs]; [done|].
    destruct (Hin b ltac:(left)) as [_ [t Ht]]. done.
  - intros t [pk Hpk] Hmax Hrows.
    destruct (zset_desc_head z (pretty pk) t (Hscore pk t Hpk))
      as (m0 & t0 & rest & E & Hm0 & Hge).
    destruct (Htracked m0 t0 Hm0) as (pk0 & -> & Hk0 & Ht0).
    assert (t0 = t) as ->.
    { pose proof (Hmax pk0 t0 Ht0). pose proof (Hge _ _ (Hscore pk t Hpk)). lia. }
    rewrite E in Hpks. cbn [take] in Hpks.
    inversion Hpks as [|x pk0' top' pks' [Hint HT] Hrest]; subst. simpl in Hint.
    rewrite int_pretty_roundtrip in Hint by done. injection Hint as <-.
    destruct (Hhead pk0 pks' eq_refl (Hrows pk0 Ht0)) as (h & tl & Eq & Eh).
    exists h, tl. split; [done|]. by rewrite Eh.
  - intros b b' t t' Hb Hb' Ht Ht' Hlt.
    set (qs := order_by_preserved pks _) in *.
    assert (∀ x, x ∈ qs ↔ x ∈ boards (db w) ∧ board_id x ∈ pks) as Hqs.
    { intros x. unfold qs, order_by_preserved. rewrite merge_sort_Permutation.
      rewrite list_elem_of_filter. tauto. }
    assert (∀ pk s, pk ∈ pks → last_viewed calls pk = Some s →
              (pretty pk, s) ∈ take 4 (zset_desc z)) as Hback.
    { intros pk s Hpk Hs'. apply list_elem_of_lookup in Hpk as [i Hi].
      destruct (Forall2_lookup_r _ _ _ _ _ Hpks Hi) as ([m s0] & Hx & Hint & HT).
      simpl in Hint, HT. assert (s0 = s) as -> by congruence.
      apply list_elem_of_lookup_2 in Hx.
      pose proof Hx as Hz'. apply subseteq_take, zset_desc_elem in Hz'.
      destruct (Htracked m s Hz') as (pk1 & -> & Hk1 & _).
      rewrite int_pretty_roundtrip in Hint by done. by injection Hint as ->. }
    assert (∀ pk s, (pretty pk, s) ∈ take 4 (zset_desc z) → pk ∈ pks) as Hforth.
    { intros pk s Hx. pose proof Hx as Hz'.
      apply subseteq_take, zset_desc_elem in Hz'.
      destruct (Htracked _ _ Hz') as (pk1 & E1 & Hk1 & _).
      apply (inj pretty) in E1 as <-.
      apply list_elem_of_lookup in Hx as [i Hi].
      destruct (Forall2_lookup_l _ _ _ _ _ Hpks Hi) as (pk2 & Hpk2 & Hint & _).
      simpl in Hint. rewrite int_pretty_roundtrip in Hint by done.
      injection Hint as <-. by eapply list_elem_of_lookup_2. }
    destruct (zset_desc_order z (pretty (board_id b)) (pretty (board_id b')) t t'
                (Hscore _ _ Ht) (Hscore _ _ Ht') Hlt) as (k1 & k2 & k3 & E).
    assert (b' ∈ qs) as Hb'q.
    { apply Hqs. split; [done|]. apply (Hforth _ t').
      eapply take_closed_upwards; [|exact E|].
      - eapply NoDup_fmap_1, zset_desc_NoDup.
      - apply Hback; [|done]. by apply Hqs. }
    apply list_elem_of_split in Hb'q as (l1 & r & Eq).
    assert (b ∈ r) as Hbr.
    { rewrite Eq in Hb, Hsorted. apply elem_of_app in Hb as [Hb|Hb].
      - apply StronglySorted_app in Hsorted as (Hcross & _ & _).
        destruct (Hcross b b' Hb ltac:(left)) as (s & s' & Hs1 & Hs2 & Hle).
        rewrite Ht in Hs1. rewrite Ht' in Hs2. simplify_eq. lia.
      - apply elem_of_cons in Hb as [->|Hb]; [|done].
        rewrite Ht in Ht'. simplify_eq. lia. }
    apply list_elem_of_split in Hbr as (l2 & l3 & ->).
    by exists l1, l2, l3.
Qed.

Lemma recently_viewed_ranking_witness :
  reachable (redis Sample.w0) = true
  ∧ zsets (redis Sample.w0) !! recent_key Sample.alice = None
  ∧ Forall (λ call : datetime * Request * Z,
              user call.1.2 = Sample.alice ∧ key_in_range call.2) Sample5.calls
  ∧ zscore (redis (retrieve_boards Connection Sample5.calls Sample.w0))
      (recent_key Sample.alice) "10" = Some 20250314110000
  ∧ BoardList_get_queryset (Some Connection) (Sample2.recent Sample.alice)
      (retrieve_boards Connection Sample5.calls Sample.w0)
    = Ok [Sample.project_board; Sample.alice_board]
  ∧ ∃ qs,
      BoardList_get_queryset (Some Connection) (Sample2.recent Sample.alice)
        (retrieve_boards Connection Sample5.calls Sample.w0) = Ok qs
      ∧ StronglySorted (viewed_no_earlier Sample5.calls) qs.
Proof.
  assert (Forall (λ call : datetime * Request * Z,
                    user call.1.2 = Sample.alice ∧ key_in_range call.2) Sample5.calls)
    as Hcalls.
  { repeat constructor; vm_compute; reflexivity. }
  split; [reflexivity|]. split; [reflexivity|]. split; [exact Hcalls|].
  split; [vm_compute; reflexivity|]. split; [vm_compute; reflexivity|].
  destruct (recently_viewed_ranking Connection Sample.alice Sample5.calls
              (Sample2.recent Sample.alice) Sample.w0 eq_refl eq_refl Hcalls
              eq_refl eq_refl) as (_ & qs & E & _ & _ & Hsorted & _).
  exists qs. split; [exact E|exact Hsorted].
Defined.

(** C4, as stated, fails when the key with the greatest timestamp has no
    row.  Alice retrieves board 10 and then asks for board 999, which does
    not exist: the request ends with a 404 and is recorded all the same.
    The greatest timestamp is that of 999, which is the first member of
    the range, and the recent list is Alice's board 10 alone. *)
Lemma recent_list_skips_dangling_newest :
  let w' := retrieve_boards Connection Sample5.dangling Sample.w0 in
  (BoardDetail_get_object (Some Connection) (Sample5.at_time 12 5) Sample5.alice_get 999
     (retrieve_boards Connection [(Sample5.at_time 12 0, Sample5.alice_get, 10)]
        Sample.w0)).1 = Raise Http404
  ∧ last_viewed Sample5.dangling 10 = Some 20250314120000
  ∧ last_viewed Sample5.dangling 999 = Some 20250314120500
  ∧ (∀ pk t, last_viewed Sample5.dangling pk = Some t → t ≤ 20250314120500)
  ∧ server_zrange_desc (redis w') (recent_key Sample.alice) 0 0 = ["999"]
  ∧ BoardList_get_queryset (Some Connection) (Sample2.recent Sample.alice) w'
    = Ok [Sample.alice_board]
  ∧ board_id Sample.alice_board ≠ 999.
Proof.
  intros w'. split; [vm_compute; reflexivity|]. split; [reflexivity|].
  split; [reflexivity|]. split.
  - intros pk t. unfold Sample5.dangling. cbn [last_viewed fst snd].
    repeat case_decide; intros [= <-]; vm_compute; discriminate.
  - split; [vm_compute; reflexivity|]. split; [vm_compute; reflexivity|]. done.
Qed.

End RecencyTrackerClaims.

(** ** Store outage *)

Section StoreOutage.

Import Redis.

(** C2 (the code departs from the claim).  When the server cannot be
    reached while the module is imported, the singleton keeps [None] as its
    connection, and every request that records or reads recent boards
    then raises [AttributeError]; when the server is lost later, the same
    requests raise [ConnectionError].  Nothing recovers locally: the
    exception reaches the caller and the board is not returned. *)
Theorem store_outage_reaches_caller
    (validate : Request → Board → Result BoardFields)
    (now : datetime) (req : Request) (pk : Z) (w : World)
    (d : DB) (z : gmap string (gmap string Z)) :
  let lost := {| db := d; redis := {| reachable := false; zsets := z |} |} in
  let recent := Sample.request (user req) GET [] [("sort", "recent")] in
  RedisClient_new {| reachable := false; zsets := z |} = Ok None
  ∧ BoardDetail_get_object None now req pk w = (Raise AttributeError, w)
  ∧ retrieve (BoardDetail_get_object None now req pk) w = (Raise AttributeError, w)
  ∧ BoardDetail_update None validate now req pk w = (Raise AttributeError, w)
  ∧ BoardList_get_queryset None recent w = Raise AttributeError
  ∧ BoardDetail_get_object (Some Connection) now req pk lost
    = (Raise ConnectionError, lost)
  ∧ BoardList_get_queryset (Some Connection) recent lost = Raise ConnectionError.
Proof.
  intros lost recent. repeat split; try reflexivity.
  - unfold BoardDetail_get_object, mbind, View_bind, on_redis, zadd. simpl.
    by destruct w.
  - unfold retrieve, BoardDetail_get_object, mbind, View_bind, on_redis, zadd. simpl.
    by destruct w.
  - unfold BoardDetail_update, update, BoardDetail_get_object, mbind, View_bind,
      on_redis, zadd. simpl. by destruct w.
Qed.

End StoreOutage.

(** ** Ownership Resolver *)

Section OwnershipResolver.

Lemma scope_filter_spec (req : Request) (d : DB) (b : Board) :
  ((owner_id b = user_id (user req)
    ∧ owner_model b = ContentType_objects_get "customuser")
   ∨ (owner_id b ∈ pm_project <$> filter (λ pm, pm_member pm = user_id (user req))
                                         (memberships d)
      ∧ owner_model b = ContentType_objects_get "project"))
  ↔ in_user_scope d (user req) b.
Proof.
  unfold in_user_scope, is_member. rewrite Exists_exists, list_elem_of_fmap.
  setoid_rewrite list_elem_of_filter. split.
  - intros [[Ho Hk]|[(pm & Hp & Hm & Hin) Hk]]; [by left|].
    right. split; [done|]. by exists pm.
  - intros [[Hk Ho]|[Hk (pm & Hin & Hm & Hp)]]; [by left|].
    right. split; [|done]. by exists pm.
Qed.

Lemma BoardDetail_get_queryset_scope (req : Request) (d : DB) :
  BoardDetail_get_queryset req d = filter (in_user_scope d (user req)) (boards d).
Proof.
  unfold BoardDetail_get_queryset. apply list_filter_iff. intros b.
  apply scope_filter_spec.
Qed.

(** C7.  With no project id (and neither the recent ordering nor a search
    asked for), the board list is a rearrangement of exactly the boards in
    the user's scope: each board of the table that the user owns or that a
    project of which the user is a member owns, as many times as the table
    holds it, and no other.  The queryset of the board detail view is the
    same selection. *)
Theorem no_project_scope_is_exact (r : option Redis.Client) (req : Request) (w : World) :
  query req !! "project" = None →
  query req !! "sort" ≠ Some "recent" →
  query req !! "q" = None →
  ∃ qs, BoardList_get_queryset r req w = Ok qs
    ∧ qs ≡ₚ filter (in_user_scope (db w) (user req)) (boards (db w))
    ∧ (∀ B, B ∈ qs ↔ B ∈ boards (db w) ∧ in_user_scope (db w) (user req) B)
    ∧ BoardDetail_get_queryset req (db w)
      = filter (in_user_scope (db w) (user req)) (boards (db w)).
Proof.
  intros Hp Hs Hq. unfold BoardList_get_queryset. rewrite Hp, Hq.
  rewrite decide_False by done. simpl.
  eexists. split; [reflexivity|].
  assert (order_by_title
    (filter (λ b,
       (owner_id b = user_id (user req)
        ∧ owner_model b = ContentType_objects_get "customuser")
       ∨ (owner_id b ∈ pm_project <$> filter (λ pm, pm_member pm = user_id (user req))
                                             (memberships (db w))
          ∧ owner_model b = ContentType_objects_get "project"))
       (boards (db w)))
    ≡ₚ filter (in_user_scope (db w) (user req)) (boards (db w))) as Hperm.
  { unfold order_by_title. rewrite merge_sort_Permutation.
    erewrite list_filter_iff; [reflexivity|]. intros b. apply scope_filter_spec. }
  split; [exact Hperm|]. split.
  - intros B. rewrite Hperm, list_elem_of_filter. tauto.
  - apply BoardDetail_get_queryset_scope.
Qed.

Lemma no_project_scope_is_exact_witness :
  query (Sample.request Sample.bob GET [] []) !! "project" = None
  ∧ query (Sample.request Sample.bob GET [] []) !! "sort" ≠ Some "recent"
  ∧ query (Sample.request Sample.bob GET [] []) !! "q" = None
  ∧ BoardList_get_queryset None (Sample.request Sample.bob GET [] []) Sample.w0
    = Ok [Sample.project_board]
  ∧ ∃ qs, BoardList_get_queryset None (Sample.request Sample.bob GET [] []) Sample.w0
          = Ok qs
      ∧ ∀ B, B ∈ qs ↔ B ∈ boards Sample.db0 ∧ in_user_scope Sample.db0 Sample.bob B.
Proof.
  assert (query (Sample.request Sample.bob GET [] []) !! "sort" ≠ Some "recent")
    as Hs by done.
  split; [reflexivity|]. split; [exact Hs|]. split; [reflexivity|].
  split; [vm_compute; reflexivity|].
  destruct (no_project_scope_is_exact None (Sample.request Sample.bob GET [] [])
              Sample.w0 eq_refl Hs eq_refl) as (qs & E & _ & Hin & _).
  exists qs. split; [exact E|exact Hin].
Defined.

End OwnershipResolver.

(** ** Gating of the detail views *)

Section DetailViews.

Lemma raise_stops_handlers {A F} (get_object : View A) (e : Exception) (w : World)
    (validate : A → Result F) (perform_update : A → F → View A)
    (delete : A → DB → DB) :
  get_object w = (Raise e, w) →
  retrieve get_object w = (Raise e, w)
  ∧ update get_object validate perform_update w = (Raise e, w)
  ∧ destroy get_object delete w = (Raise e, w).
Proof.
  intros E. unfold retrieve, update, destroy, mbind, View_bind. rewrite E. done.
Qed.

(** C3, as the code has it.  When the requester cannot view board B, every
    retrieve, update and delete of a list of B, and of an item in a list
    of B, ends with [PermissionDenied] and leaves the world as it was:
    the handlers inherited from the generic view, whatever the serializer
    and the update and delete steps are, and the [put] that [ItemDetail]
    defines itself, whatever the request carries. *)
Theorem list_and_item_detail_gated (req : Request) (w : World) (B : Board) :
  can_view_board (db w) (user req) B = Ok false →
  (∀ pk l,
     get_object_or_404 (filter (λ l, list_id l = pk) (lists (db w))) = Ok l →
     List_board (db w) l = Ok B →
     ListDetail_get_object req pk w = (Raise PermissionDenied, w)
     ∧ ∀ F (validate : List_ → Result F) perform_update delete,
         retrieve (ListDetail_get_object req pk) w = (Raise PermissionDenied, w)
         ∧ update (ListDetail_get_object req pk) validate perform_update w
           = (Raise PermissionDenied, w)
         ∧ destroy (ListDetail_get_object req pk) delete w
           = (Raise PermissionDenied, w))
  ∧ (∀ pk i l,
       get_object_or_404 (filter (λ i, item_id i = pk) (items (db w))) = Ok i →
       Item_list (db w) i = Ok l →
       List_board (db w) l = Ok B →
       ItemDetail_get_object req pk w = (Raise PermissionDenied, w)
       ∧ (∀ ItemSerializer_validate,
            ItemDetail_put ItemSerializer_validate req pk w
            = (Raise PermissionDenied, w))
       ∧ (∀ ItemSerializer_validate,
            update (ItemDetail_get_object req pk) (ItemSerializer_validate req)
              (ItemDetail_perform_update req) w
            = (Raise PermissionDenied, w))
       ∧ ∀ F (validate : Item → Result F) perform_update delete,
           retrieve (ItemDetail_get_object req pk) w = (Raise PermissionDenied, w)
           ∧ update (ItemDetail_get_object req pk) validate perform_update w
             = (Raise PermissionDenied, w)
           ∧ destroy (ItemDetail_get_object req pk) delete w
             = (Raise PermissionDenied, w)).
Proof.
  intros Hcan. split.
  - intros pk l Hl HB.
    assert (ListDetail_get_object req pk w = (Raise PermissionDenied, w)) as E.
    { unfold ListDetail_get_object, lift, ListDetail_permission_classes.
      rewrite Hl. simpl. rewrite HB. simpl. rewrite Hcan. done. }
    split; [exact E|]. intros F validate perform_update delete.
    by apply raise_stops_handlers.
  - intros pk i l Hi Hl HB.
    assert (ItemDetail_get_object req pk w = (Raise PermissionDenied, w)) as E.
    { unfold ItemDetail_get_object, lift, ItemDetail_permission_classes.
      rewrite Hi. simpl. rewrite Hl. simpl. rewrite HB. simpl. rewrite Hcan. done. }
    split; [exact E|]. split; [|split].
    + intros validate. unfold ItemDetail_put, mbind at 1, View_bind. by rewrite E.
    + intros validate. unfold update, mbind at 1, View_bind. by rewrite E.
    + intros F validate perform_update delete. by apply raise_stops_handlers.
Qed.

Lemma list_and_item_detail_gated_witness :
  can_view_board (db Sample.w0) (user (Sample.request Sample.bob DELETE [] []))
    Sample.alice_board = Ok false
  ∧ ListDetail_get_object (Sample.request Sample.bob DELETE [] []) 20 Sample.w0
    = (Raise PermissionDenied, Sample.w0)
  ∧ ItemDetail_get_object (Sample.request Sample.bob DELETE [] []) 30 Sample.w0
    = (Raise PermissionDenied, Sample.w0)
  ∧ ItemDetail_put Sample3.accept
      (Sample.request Sample.bob PUT [("labels", JInt 50)] []) 30 Sample.w0
    = (Raise PermissionDenied, Sample.w0).
Proof.
  pose proof (list_and_item_detail_gated (Sample.request Sample.bob DELETE [] [])
                Sample.w0 Sample.alice_board eq_refl) as [HL HI].
  pose proof (list_and_item_detail_gated
                (Sample.request Sample.bob PUT [("labels", JInt 50)] [])
                Sample.w0 Sample.alice_board eq_refl) as [_ HP].
  split; [reflexivity|]. split; [|split].
  - exact (proj1 (HL 20 Sample.todo eq_refl eq_refl)).
  - exact (proj1 (HI 30 Sample.task Sample.todo eq_refl eq_refl eq_refl)).
  - exact (proj1 (proj2 (HP 30 Sample.task Sample.todo eq_refl eq_refl eq_refl))
             Sample3.accept).
Defined.

(** C3, as stated, fails on attachments.  Bob cannot view Alice's board, the
    attachment hangs off an item of a list of that board, and still Bob's
    DELETE reaches the attachment: [AttachmentDetail] allows any requester
    and the row is removed. *)
Lemma attachment_detail_not_gated :
  let req := Sample.request Sample.bob DELETE [] [] in
  (i ← Attachment_item Sample.db0 Sample.scan; Item_list_board Sample.db0 i)
  = Ok Sample.alice_board
  ∧ can_view_board Sample.db0 Sample.bob Sample.alice_board = Ok false
  ∧ AttachmentDetail_get_object req 40 Sample.w0 = (Ok Sample.scan, Sample.w0)
  ∧ AttachmentDetail_get_object req 40 Sample.w0 ≠ (Raise PermissionDenied, Sample.w0)
  ∧ attachments
      (db (destroy (AttachmentDetail_get_object req 40) Attachment_delete Sample.w0).2)
    = [].
Proof. repeat split; try reflexivity. discriminate. Qed.

(** The label view: the class bound to the name [LabelDetail] allows any
    requester, while the class of the same name defined before it asks
    the Access Evaluator. *)
Lemma label_detail_classes_differ :
  let req := Sample.request Sample.bob DELETE [] [] in
  LabelDetail_get_object req 50 Sample.w0 = (Ok Sample.urgent, Sample.w0)
  ∧ LabelDetail_first_get_object req 50 Sample.w0
    = (Raise PermissionDenied, Sample.w0).
Proof. split; reflexivity. Qed.

(** With the permission of the comment view as the specification words
    it, the author of a comment may still edit it when the board is not
    viewable to them, and is refused the read. *)
Lemma comment_detail_author_rule :
  can_view_board Sample.db0 Sample.bob Sample.alice_board = Ok false
  ∧ CommentDetail_get_object (Sample.request Sample.bob PUT [] []) 61 Sample.w0
    = (Ok Sample.remark, Sample.w0)
  ∧ CommentDetail_get_object (Sample.request Sample.bob GET [] []) 61 Sample.w0
    = (Raise PermissionDenied, Sample.w0)
  ∧ CommentDetail_get_object (Sample.request Sample.bob PUT [] []) 60 Sample.w0
    = (Raise PermissionDenied, Sample.w0).
Proof. repeat split; reflexivity. Qed.

End DetailViews.

(** ** Board appearance fields *)

Section BoardAppearance.

Lemma image_active_None (b : Board) : image b = None → image_active b = false.
Proof. unfold image_active. by intros ->. Qed.

Lemma active_backgrounds_two_cleared (b : Board) :
  (image b = None ∧ image_url b = "")
  ∨ (image b = None ∧ color b = "")
  ∨ (image_url b = "" ∧ color b = "") →
  (active_backgrounds b ≤ 1)%nat.
Proof.
  unfold active_backgrounds.
  intros [[Hi Hu]|[[Hi Hc]|[Hu Hc]]].
  - rewrite (image_active_None b Hi), Hu.
    destruct (bool_decide (color b ≠ "")); simpl; lia.
  - rewrite (image_active_None b Hi), Hc.
    destruct (bool_decide (image_url b ≠ "")); simpl; lia.
  - rewrite Hu, Hc. destruct (image_active b); simpl; lia.
Qed.

(** C8, as the code has it.  [perform_update] looks at the keys in the
    order image, image_url, color and takes the first one present.  On the
    image path the saved board has an empty image_url and color; on the
    image_url path (no image key), no image and an empty color; on the
    color path (neither of the other keys), no image and an empty
    image_url.  The saved row is the returned instance, and on each of the
    three paths at most one appearance field is set. *)
Theorem board_update_single_background
    (req : Request) (instance : Board) (validated : BoardFields) (w : World)
    (path : UpdatePath) :
  takes_path req path →
  ∃ b, BoardDetail_perform_update req instance validated w
       = (Ok b, {| db := Board_save b (db w); redis := redis w |})
    ∧ board_id b = board_id instance
    ∧ match path with
      | ByImage => image_url b = "" ∧ color b = ""
      | ByImageUrl => image b = None ∧ color b = ""
      | ByColor => image b = None ∧ image_url b = ""
      end
    ∧ (active_backgrounds b ≤ 1)%nat.
Proof.
  intros Hpath. unfold BoardDetail_perform_update.
  destruct path; simpl in Hpath.
  - rewrite decide_True by done.
    eexists. split; [reflexivity|]. split; [done|]. split; [done|].
    apply active_backgrounds_two_cleared. auto.
  - destruct Hpath as [Hi Hu]. rewrite Hi.
    rewrite decide_False by (intros [? [=]]). rewrite decide_True by done.
    eexists. split; [reflexivity|]. split; [done|]. split; [done|].
    apply active_backgrounds_two_cleared. auto.
  - destruct Hpath as (Hi & Hu & Hc). rewrite Hi, Hu.
    rewrite !decide_False by (intros [? [=]]). rewrite decide_True by done.
    eexists. split; [reflexivity|]. split; [done|]. split; [done|].
    apply active_backgrounds_two_cleared. auto.
Qed.

Lemma board_update_single_background_witness :
  takes_path (Sample.request Sample.alice PUT [("color", JStr "blue")] []) ByColor
  ∧ ∃ b, BoardDetail_perform_update
           (Sample.request Sample.alice PUT [("color", JStr "blue")] [])
           Sample.alice_board
           {| set_title := None; set_image := None; set_image_url := None;
              set_color := Some "blue" |}
           Sample.w0
         = (Ok b, {| db := Board_save b (db Sample.w0); redis := redis Sample.w0 |})
      ∧ image b = None ∧ image_url b = "" ∧ color b = "blue"
      ∧ (active_backgrounds b ≤ 1)%nat.
Proof.
  assert (takes_path (Sample.request Sample.alice PUT [("color", JStr "blue")] [])
            ByColor) as Hp.
  { split; [reflexivity|]. split; [reflexivity|]. by eexists. }
  split; [exact Hp|].
  destruct (board_update_single_background
              (Sample.request Sample.alice PUT [("color", JStr "blue")] [])
              Sample.alice_board
              {| set_title := None; set_image := None; set_image_url := None;
                 set_color := Some "blue" |}
              Sample.w0 ByColor Hp) as (b & E & _ & [Hi Hu] & Hact).
  exists b. split; [exact E|]. split; [exact Hi|]. split; [exact Hu|].
  split; [|exact Hact].
  injection E as Eb _. rewrite <- Eb. reflexivity.
Defined.

(** C8, as stated, fails when the request carries two of the keys.  A
    request with both a color and an image takes the image path: the image
    it brings is kept and the color is the field that is emptied. *)
Lemma board_update_color_and_image_keeps_image :
  let req := Sample.request Sample.alice PUT
               [("image", JStr "a.png"); ("color", JStr "blue")] [] in
  let validated := {| set_title := None; set_image := Some (Some "a.png");
                      set_image_url := None; set_color := Some "blue" |} in
  is_Some (data req !! "color")
  ∧ ∃ b w', BoardDetail_perform_update req Sample.alice_board validated Sample.w0
            = (Ok b, w')
      ∧ image b = Some "a.png"
      ∧ image b ≠ None
      ∧ color b = "".
Proof.
  split; [by eexists|]. do 2 eexists. split; [reflexivity|]. by repeat split.
Qed.

(** C10.  When the request carries none of the keys image, image_url and
    color, [perform_update] never calls [serializer.save]: it returns the
    instance it was given and the world it started from, and the whole
    update request leaves every table, hence every field of the board
    including its title, as it was. *)
Theorem board_update_without_background_saves_nothing
    (r : option Redis.Client) (validate : Request → Board → Result BoardFields)
    (now : datetime) (req : Request) (pk : Z) (w : World) :
  data req !! "image" = None →
  data req !! "image_url" = None →
  data req !! "color" = None →
  (∀ instance validated w1,
     BoardDetail_perform_update req instance validated w1 = (Ok instance, w1))
  ∧ db (BoardDetail_update r validate now req pk w).2 = db w.
Proof.
  intros Hi Hu Hc.
  assert (∀ instance validated w1,
    BoardDetail_perform_update req instance validated w1 = (Ok instance, w1)) as Hperf.
  { intros instance validated w1. unfold BoardDetail_perform_update.
    rewrite Hi, Hu, Hc. rewrite !decide_False by (intros [? [=]]). done. }
  split; [exact Hperf|].
  unfold BoardDetail_update, update, mbind, View_bind.
  assert (db (BoardDetail_get_object r now req pk w).2 = db w) as Hdb.
  { unfold BoardDetail_get_object, mbind, View_bind, on_redis, lift, Redis.zadd.
    destruct r; [destruct (Redis.reachable (redis w))|]; simpl; done. }
  destruct (BoardDetail_get_object r now req pk w) as [[instance|e] w1]; [|done].
  simpl in Hdb. unfold lift.
  destruct (validate req instance) as [validated|e]; [|done].
  rewrite Hperf. done.
Qed.

Lemma board_update_without_background_saves_nothing_witness :
  data (Sample.request Sample.alice PUT [("title", JStr "Work")] []) !! "image" = None
  ∧ data (Sample.request Sample.alice PUT [("title", JStr "Work")] []) !! "image_url"
    = None
  ∧ data (Sample.request Sample.alice PUT [("title", JStr "Work")] []) !! "color" = None
  ∧ db (BoardDetail_update (Some Redis.Connection)
          (λ _ _, Ok {| set_title := Some "Work"; set_image := None;
                        set_image_url := None; set_color := None |})
          Sample.noon
          (Sample.request Sample.alice PUT [("title", JStr "Work")] []) 10 Sample.w0).2
    = Sample.db0.
Proof.
  split; [reflexivity|]. split; [reflexivity|]. split; [reflexivity|].
  exact (proj2 (board_update_without_background_saves_nothing
                  (Some Redis.Connection)
                  (λ _ _, Ok {| set_title := Some "Work"; set_image := None;
                                set_image_url := None; set_color := None |})
                  Sample.noon
                  (Sample.request Sample.alice PUT [("title", JStr "Work")] [])
                  10 Sample.w0 eq_refl eq_refl eq_refl)).
Defined.

End BoardAppearance.

(** ** Assignment toggle *)

Section AssignmentToggle.

(** The toggle on the related set is an involution that always changes
    the set: this is the behaviour [perform_update] would have once the
    user has been looked up. *)
Lemma toggle_involutive (pk : Z) (related : gset Z) :
  toggle pk (toggle pk related) = related.
Proof.
  unfold toggle. destruct (decide (pk ∈ related)) as [Hin|Hout].
  - rewrite decide_False
      by (rewrite elem_of_difference, elem_of_singleton; tauto).
    apply set_eq. intros x.
    rewrite elem_of_union, elem_of_difference, elem_of_singleton.
    destruct (decide (x = pk)) as [->|]; tauto.
  - rewrite decide_True
      by (rewrite elem_of_union, elem_of_singleton; tauto).
    apply set_eq. intros x.
    rewrite elem_of_difference, elem_of_union, elem_of_singleton.
    split; [tauto|]. intros Hx. split; [tauto|]. by intros ->.
Qed.

Lemma toggle_changes (pk : Z) (related : gset Z) : toggle pk related ≠ related.
Proof.
  unfold toggle. destruct (decide (pk ∈ related)) as [Hin|Hout]; intros E.
  - rewrite <- E in Hin. apply elem_of_difference in Hin as [_ Hn].
    apply Hn. by apply elem_of_singleton.
  - apply Hout. rewrite <- E. apply elem_of_union. right. by apply elem_of_singleton.
Qed.

(** [get_user] filters the user model on [username], which is not one of
    its fields: the lookup raises before any row is examined. *)
Lemma ItemDetail_get_user_raises (d : DB) (username : JSON) (board : Board) :
  ItemDetail_get_user d username board = Raise FieldError.
Proof. reflexivity. Qed.

(** C9 (the code departs from the claim).  Alice owns the board of item 30
    and asks to assign herself.  The item is found and she may view its
    board, but [username] is not a field of the user model, so the request
    ends with [FieldError] before the toggle is reached; the item table,
    and with it the assignment set, is what it was after one request and
    after two. *)
Theorem item_assignment_lookup_raises
    (validate : Request → Item → Result ItemFields) :
  let req := Sample.request Sample.alice PUT
               [("assigned_to", JStr "alice@example.org")] [] in
  ¬ ("username" ∈ CustomUser_fields)
  ∧ can_view_board Sample.db0 Sample.alice Sample.alice_board = Ok true
  ∧ ItemDetail_get_object req 30 Sample.w0 = (Ok Sample.task, Sample.w0)
  ∧ ItemDetail_put validate req 30 Sample.w0 = (Raise FieldError, Sample.w0)
  ∧ ItemDetail_put validate req 30 (ItemDetail_put validate req 30 Sample.w0).2
    = (Raise FieldError, Sample.w0)
  ∧ assigned_to Sample.task = ∅.
Proof.
  intros req.
  assert (ItemDetail_put validate req 30 Sample.w0 = (Raise FieldError, Sample.w0))
    as Hput by reflexivity.
  split; [by apply (bool_decide_unpack _)|].
  split; [reflexivity|]. split; [reflexivity|]. split; [exact Hput|].
  split; [|reflexivity]. rewrite Hput. exact Hput.
Qed.

End AssignmentToggle.

(** * Properties of the further parts *)

(** ** One-time passwords *)

Section OneTimePasswords.

Import AccountsMore.

Lemma seconds_shift (us k : Z) :
  ((us + k * 86400000000) `div` 1000000) `mod` 86400 = (us `div` 1000000) `mod` 86400.
Proof.
  replace (us + k * 86400000000) with (us + (k * 86400) * 1000000) by lia.
  rewrite Z.div_add by lia. rewrite Z.mod_add by lia. done.
Qed.

(** X1.  [is_valid] reads the [seconds] field of the elapsed time, which
    leaves whole days out: moving the clock by any number of days, forward
    or back, does not change the answer.  A password that has expired is
    accepted again one day after it was created. *)
Theorem otp_validity_ignores_whole_days
    (setting : option Z) (now : instant) (self : OTP) (k : Z) :
  (is_valid setting (now + k * 86400000000) self).1 = (is_valid setting now self).1.
Proof.
  unfold is_valid, datetime_sub. destruct setting as [t|]; simpl.
  - replace (now + k * 86400000000 - created_at self)
      with (now - created_at self + k * 86400000000) by lia.
    by rewrite seconds_shift.
  - replace (now + k * 86400000000 - created_at self)
      with (now - created_at self + k * 86400000000) by lia.
    by rewrite seconds_shift.
Qed.

(** X2.  During the first day after its creation a password is valid
    exactly while less than the expiration time, in whole seconds, has
    elapsed; the expiration time is the setting, or 300 seconds when the
    setting is not declared. *)
Theorem otp_valid_within_first_day
    (setting : option Z) (now : instant) (self : OTP) :
  0 ≤ now - created_at self < 86400000000 →
  (is_valid setting now self).1
  = bool_decide (now - created_at self < default 300 setting * 1000000).
Proof.
  intros Hd. set (d := now - created_at self) in *.
  assert (0 ≤ d `div` 1000000 < 86400) as Hq.
  { split; [apply Z.div_pos; lia|]. apply Z.div_lt_upper_bound; lia. }
  assert (∀ e, d `div` 1000000 < e ↔ d < e * 1000000) as Hiff.
  { intros e. pose proof (Z.div_mod d 1000000 ltac:(lia)) as Hdm.
    pose proof (Z.mod_pos_bound d 1000000 ltac:(lia)). split; intros; nia. }
  unfold is_valid, datetime_sub. fold d.
  destruct setting as [t|]; simpl; rewrite Z.mod_small by lia;
    apply bool_decide_ext, Hiff.
Qed.

Lemma otp_valid_within_first_day_witness :
  0 ≤ 1000299999999 - created_at {| otp_user := 1; otp := "123456";
                                    created_at := 1000000000000 |} < 86400000000
  ∧ (is_valid None 1000299999999
       {| otp_user := 1; otp := "123456"; created_at := 1000000000000 |}).1 = true
  ∧ (is_valid None 1000300000000
       {| otp_user := 1; otp := "123456"; created_at := 1000000000000 |}).1 = false.
Proof.
  assert (0 ≤ 1000299999999 - 1000000000000 < 86400000000) as H1 by lia.
  assert (0 ≤ 1000300000000 - 1000000000000 < 86400000000) as H2 by lia.
  split; [exact H1|]. split.
  - exact (otp_valid_within_first_day None 1000299999999
             {| otp_user := 1; otp := "123456"; created_at := 1000000000000 |} H1).
  - exact (otp_valid_within_first_day None 1000300000000
             {| otp_user := 1; otp := "123456"; created_at := 1000000000000 |} H2).
Defined.

(** X3.  A creation time ahead of the clock (clock skew between hosts)
    does not give a negative elapsed time: the [seconds] field wraps to
    the end of the day, so a password dated up to a day minus the
    expiration time in the future is refused. *)
Theorem otp_created_ahead_is_refused
    (setting : option Z) (now : instant) (self : OTP) :
  0 ≤ default 300 setting →
  0 < created_at self - now ≤ (86400 - default 300 setting) * 1000000 →
  (is_valid setting now self).1 = false.
Proof.
  intros He Hc. set (e := default 300 setting) in *.
  set (d := now - created_at self).
  assert (- (86400 - e) ≤ d `div` 1000000 < 0) as Hq.
  { pose proof (Z.div_mod d 1000000 ltac:(lia)) as Hdm.
    pose proof (Z.mod_pos_bound d 1000000 ltac:(lia)). unfold d in *. split; nia. }
  assert ((d `div` 1000000) `mod` 86400 = d `div` 1000000 + 86400 ∨
          ((d `div` 1000000) `mod` 86400 = 0 ∧ e = 0)) as Hm.
  { destruct (decide (d `div` 1000000 = -86400)) as [E|NE].
    - right. rewrite E. split; [done|lia].
    - left. symmetry. apply (Z.mod_unique _ _ (-1)); lia. }
  assert (¬ (d `div` 1000000) `mod` 86400 < e) as Hn by lia.
  unfold is_valid, datetime_sub. fold d. unfold e in Hn.
  destruct setting as [t|]; simpl in *; by rewrite bool_decide_eq_false_2.
Qed.

Lemma otp_created_ahead_is_refused_witness :
  0 ≤ default 300 None
  ∧ 0 < created_at {| otp_user := 1; otp := "123456"; created_at := 1000000000001 |}
        - 1000000000000 ≤ (86400 - default 300 None) * 1000000
  ∧ (is_valid None 1000000000000
       {| otp_user := 1; otp := "123456"; created_at := 1000000000001 |}).1 = false.
Proof.
  assert (0 ≤ default 300 (@None Z)) as H1 by (simpl; lia).
  assert (0 < 1000000000001 - 1000000000000 ≤ (86400 - default 300 None) * 1000000)
    as H2 by (simpl; lia).
  split; [exact H1|]. split; [exact H2|].
  exact (otp_created_ahead_is_refused None 1000000000000
           {| otp_user := 1; otp := "123456"; created_at := 1000000000001 |} H1 H2).
Defined.

End OneTimePasswords.

(** ** The display name *)

Section DisplayName.

Import AccountsMore.

Lemma rstrip_keeps_head (a : ascii) (t : string) :
  isspace a = false → ∃ r, rstrip (String a t) = String a r.
Proof.
  intros Ha. simpl. destruct (rstrip t); rewrite ?Ha; eauto.
Qed.

Lemma lstrip_head (s : string) :
  lstrip s = EmptyString ∨ ∃ a t, lstrip s = String a t ∧ isspace a = false.
Proof.
  induction s as [|a s IH]; [by left|]. simpl.
  destruct (isspace a) eqn:Ha; [done|]. right. eauto.
Qed.

Lemma lstrip_strip (s : string) : lstrip (strip s) = strip s.
Proof.
  unfold strip. destruct (lstrip_head s) as [->|(a & t & -> & Ha)]; [done|].
  destruct (rstrip_keeps_head a t Ha) as [r ->]. simpl. by rewrite Ha.
Qed.

Lemma rstrip_rstrip (s : string) : rstrip (rstrip s) = rstrip s.
Proof.
  induction s as [|a s IH]; [done|]. simpl.
  destruct (rstrip s) as [|b r] eqn:E.
  - destruct (isspace a) eqn:Ha; simpl; [done|]. by rewrite Ha.
  - simpl in IH |- *. destruct (rstrip r) as [|c r'] eqn:Er.
    + destruct (isspace b); [discriminate|]. by rewrite IH.
    + by rewrite IH.
Qed.

Lemma rstrip_blank_end (t : string) : rstrip (t +:+ " ") = rstrip t.
Proof.
  induction t as [|b t IH]; [done|]. simpl. by rewrite IH.
Qed.

Lemma strip_blank_end (s : string) : strip (s +:+ " ") = strip s.
Proof.
  unfold strip. induction s as [|a s IH]; [done|]. simpl.
  destruct (isspace a); [done|].
  change (String a (s +:+ " ")) with (String a s +:+ " ").
  apply rstrip_blank_end.
Qed.

(** X4.  The display name carries no blank at either end, whatever the two
    names hold; with the last name missing it is the trimmed first name,
    with no blank left behind, and with the first name missing it is the
    trimmed last name. *)
Theorem full_name_is_trimmed (u : CustomUser) (name : string) :
  lstrip (full_name u) = full_name u
  ∧ rstrip (full_name u) = full_name u
  ∧ full_name {| user_id := user_id u; email := email u; first_name := name;
                 last_name := ""; starred_boards := starred_boards u |}
    = strip name
  ∧ full_name {| user_id := user_id u; email := email u; first_name := "";
                 last_name := name; starred_boards := starred_boards u |}
    = strip name.
Proof.
  unfold full_name. split; [apply lstrip_strip|]. split.
  { unfold strip. apply rstrip_rstrip. }
  split; simpl.
  - apply strip_blank_end.
  - reflexivity.
Qed.

End DisplayName.

(** ** The Redis singleton *)

Section Singleton.

Import Redis RedisSingleton.

(** X5.  The connection is decided once.  Whatever the first construction
    left in the class is what every later construction returns, without
    looking at the server again: when the server was unreachable the first
    time, the client stays [None] even after the server has come back. *)
Theorem redis_singleton_connects_once
    (srv srv' : Server) (st : class_state) (c : option Client) :
  RedisClient None srv = Ok (st, c) →
  RedisClient st srv' = Ok (st, c)
  ∧ (c = None ↔ reachable srv = false).
Proof.
  unfold RedisClient, RedisClient_new, ping.
  destruct (reachable srv); simpl; intros [= <- <-]; (split; [done|]);
    split; congruence.
Qed.

Lemma redis_singleton_connects_once_witness :
  RedisClient None {| reachable := false; zsets := ∅ |} = Ok (Some None, None)
  ∧ RedisClient (Some None) {| reachable := true; zsets := ∅ |} = Ok (Some None, None).
Proof.
  assert (RedisClient None {| reachable := false; zsets := ∅ |} = Ok (Some None, None))
    as H by reflexivity.
  split; [exact H|].
  exact (proj1 (redis_singleton_connects_once {| reachable := false; zsets := ∅ |}
                  {| reachable := true; zsets := ∅ |} (Some None) None H)).
Defined.

End Singleton.

(** ** Retrieving a board *)

Section BoardRetrieval.

Lemma get_object_or_404_Ok {A} (rows : list A) (x : A) :
  get_object_or_404 rows = Ok x ↔ rows = [x].
Proof.
  unfold get_object_or_404, objects_get, try_except.
  destruct rows as [|y [|z rest]]; simpl; split; intros H; try done; congruence.
Qed.

Lemma get_object_or_404_Raise {A} (rows : list A) (e : Exception) :
  get_object_or_404 rows = Raise e → e = Http404 ∨ e = MultipleObjectsReturned.
Proof.
  unfold get_object_or_404, objects_get, try_except.
  destruct rows as [|y [|z rest]]; simpl; intros [= <-]; auto.
Qed.

Lemma filter_unique_pk {A} (f : A → Z) (l : list A) (x : A) :
  NoDup (f <$> l) → x ∈ l → filter (λ y, f y = f x) l = [x].
Proof.
  induction l as [|y l IH]; intros Hnd Hin; [by apply elem_of_nil in Hin|].
  rewrite fmap_cons in Hnd. apply NoDup_cons in Hnd as [Hnotin Hnd].
  apply elem_of_cons in Hin as [->|Hin].
  - rewrite filter_cons_True by done. f_equal.
    destruct (filter (λ y0, f y0 = f y) l) as [|z rest] eqn:E; [done|].
    exfalso. apply Hnotin.
    assert (z ∈ filter (λ y0, f y0 = f y) l) as Hz by (rewrite E; left).
    apply list_elem_of_filter in Hz as [Hfz Hz]. rewrite <- Hfz.
    by apply list_elem_of_fmap_2.
  - rewrite filter_cons_False; [by apply IH|].
    intros Heq. apply Hnotin. rewrite Heq. by apply list_elem_of_fmap_2.
Qed.

(** Every board the Ownership Resolver selects passes the Access
    Evaluator, unless a duplicated membership row makes the lookup raise. *)
Lemma scope_passes_evaluator (d : DB) (u : CustomUser) (b : Board) :
  in_user_scope d u b →
  can_view_board d u b = Ok true
  ∨ can_view_board d u b = Raise MultipleObjectsReturned.
Proof.
  intros [[Hk Ho]|[Hk Hm]].
  - left. rewrite can_view_board_not_project by (rewrite Hk; done).
    by rewrite bool_decide_eq_true_2.
  - apply filter_nonempty_iff_member in Hm.
    unfold can_view_board, ProjectMembership_get. rewrite Hk, decide_True by done.
    destruct (filter _ (memberships d)) as [|pm [|pm' rest]]; [done|by left|by right].
Qed.

Lemma BoardDetail_get_object_unfold r now req pk w :
  BoardDetail_get_object r now req pk w
  = match Redis.zadd r (redis w) (recent_key (user req)) (pretty pk) (strftime_int now) with
    | (Ok _, srv) =>
        (obj ← get_object_or_404
                 (filter (λ b, board_id b = pk) (BoardDetail_get_queryset req (db w)));
         _ ← check_object_permissions (db w) BoardDetail_permission_classes req
               (OBoard obj);
         Ok obj,
         {| db := db w; redis := srv |})
    | (Raise e, srv) => (Raise e, {| db := db w; redis := srv |})
    end.
Proof.
  unfold BoardDetail_get_object, mbind at 1, View_bind, on_redis, lift, recent_key.
  by destruct (Redis.zadd _ _ _ _ _) as [[[]|e] srv].
Qed.

(** X7.  A board comes back from the board detail view only if it is a
    row of the board table with the requested primary key that lies in the
    requester's scope: owned by the requester, or by a project of which
    the requester is a member.  A row with any other owner kind is never
    returned, and the tables are left as they were. *)
Theorem board_detail_returns_only_scope
    (r : option Redis.Client) (now : datetime) (req : Request) (pk : Z)
    (w w' : World) (b : Board) :
  BoardDetail_get_object r now req pk w = (Ok b, w') →
  b ∈ boards (db w) ∧ board_id b = pk
  ∧ in_user_scope (db w) (user req) b ∧ db w' = db w.
Proof.
  rewrite BoardDetail_get_object_unfold.
  destruct (Redis.zadd _ _ _ _ _) as [[[]|e] srv]; [|done].
  destruct (get_object_or_404 _) as [obj|e] eqn:E; [|done]. simpl.
  destruct (can_view_board (db w) (user req) obj) as [[]|e]; [|done..]. simpl.
  intros [= -> <-]. apply get_object_or_404_Ok in E.
  assert (b ∈ filter (λ b0, board_id b0 = pk) (BoardDetail_get_queryset req (db w)))
    as Hin by (rewrite E; left).
  apply list_elem_of_filter in Hin as [Hpk Hin].
  rewrite BoardDetail_get_queryset_scope in Hin.
  apply list_elem_of_filter in Hin as [Hs Hin]. done.
Qed.

Lemma board_detail_returns_only_scope_witness :
  BoardDetail_get_object (Some Redis.Connection) Sample.noon
    (Sample.request Sample.bob GET [] []) 11 Sample.w0
  = (Ok Sample.project_board,
     {| db := Sample.db0;
        redis := Redis.server_zadd Sample.up (recent_key Sample.bob) "11"
                   20250314120000 |})
  ∧ in_user_scope Sample.db0 Sample.bob Sample.project_board.
Proof.
  assert (BoardDetail_get_object (Some Redis.Connection) Sample.noon
            (Sample.request Sample.bob GET [] []) 11 Sample.w0
          = (Ok Sample.project_board,
             {| db := Sample.db0;
                redis := Redis.server_zadd Sample.up (recent_key Sample.bob) "11"
                           20250314120000 |})) as H by (vm_compute; reflexivity).
  split; [exact H|].
  exact (proj1 (proj2 (proj2 (board_detail_returns_only_scope _ _ _ _ _ _ _ H)))).
Defined.

(** X8.  The board detail view never answers with a permission error.  A
    board outside the requester's scope is filtered out of the queryset
    before the permission is asked, so the request ends as a 404, the same
    answer as for a board that does not exist. *)
Theorem board_detail_never_forbidden
    (r : option Redis.Client) (now : datetime) (req : Request) (pk : Z) (w : World) :
  (BoardDetail_get_object r now req pk w).1 ≠ Raise PermissionDenied
  ∧ (Redis.reachable (redis w) = true →
     (∀ b, b ∈ boards (db w) → board_id b = pk → ¬ in_user_scope (db w) (user req) b) →
     ∀ c, (BoardDetail_get_object (Some c) now req pk w).1 = Raise Http404).
Proof.
  split.
  - rewrite BoardDetail_get_object_unfold. unfold Redis.zadd.
    destruct r as [c|]; [destruct (Redis.reachable (redis w))|]; simpl; try done.
    destruct (get_object_or_404 _) as [obj|e] eqn:E; simpl.
    + apply get_object_or_404_Ok in E.
      assert (obj ∈ filter (λ b0, board_id b0 = pk)
                      (BoardDetail_get_queryset req (db w)))
        as Hin by (rewrite E; left).
      apply list_elem_of_filter in Hin as [_ Hin].
      rewrite BoardDetail_get_queryset_scope in Hin.
      apply list_elem_of_filter in Hin as [Hs _].
      destruct (scope_passes_evaluator _ _ _ Hs) as [-> | ->]; done.
    + apply get_object_or_404_Raise in E as [-> | ->]; done.
  - intros Hr Hout c. rewrite BoardDetail_get_object_unfold. unfold Redis.zadd.
    rewrite Hr. simpl.
    assert (filter (λ b, board_id b = pk) (BoardDetail_get_queryset req (db w)) = [])
      as ->; [|done].
    destruct (filter _ _) as [|b rest] eqn:E; [done|]. exfalso.
    assert (b ∈ filter (λ b, board_id b = pk) (BoardDetail_get_queryset req (db w)))
      as Hin by (rewrite E; left).
    apply list_elem_of_filter in Hin as [Hpk Hin].
    rewrite BoardDetail_get_queryset_scope in Hin.
    apply list_elem_of_filter in Hin as [Hs Hin]. by apply (Hout b).
Qed.

Lemma board_detail_never_forbidden_witness :
  Redis.reachable (redis Sample.w0) = true
  ∧ (∀ b, b ∈ boards (db Sample.w0) → board_id b = 10 →
          ¬ in_user_scope (db Sample.w0) Sample.bob b)
  ∧ (BoardDetail_get_object (Some Redis.Connection) Sample.noon
       (Sample.request Sample.bob GET [] []) 10 Sample.w0).1 = Raise Http404.
Proof.
  assert (∀ b, b ∈ boards (db Sample.w0) → board_id b = 10 →
               ¬ in_user_scope (db Sample.w0) Sample.bob b) as Hout.
  { intros b Hin Hpk.
    apply elem_of_cons in Hin as [->|Hin]; [by apply (bool_decide_unpack _)|].
    apply elem_of_cons in Hin as [->|Hin]; [done|].
    apply elem_of_cons in Hin as [->|Hin]; [done|]. by apply elem_of_nil in Hin. }
  split; [reflexivity|]. split; [exact Hout|].
  exact (proj2 (board_detail_never_forbidden None Sample.noon
                  (Sample.request Sample.bob GET [] []) 10 Sample.w0)
           eq_refl Hout Redis.Connection).
Defined.

(** X9.  With unique primary keys and the unique constraint on
    memberships, every board in the requester's scope is served: the
    lookup finds it, the permission check passes, and the only thing
    written is the view recorded in the sorted set. *)
Theorem board_detail_serves_scope
    (c : Redis.Client) (now : datetime) (req : Request) (w : World) (b : Board) :
  Redis.reachable (redis w) = true →
  board_pk_unique (db w) →
  membership_unique (db w) →
  b ∈ boards (db w) →
  in_user_scope (db w) (user req) b →
  BoardDetail_get_object (Some c) now req (board_id b) w
  = (Ok b,
     {| db := db w;
        redis := Redis.server_zadd (redis w) (recent_key (user req))
                   (pretty (board_id b)) (strftime_int now) |}).
Proof.
  intros Hr Hpk Hmu Hin Hs. rewrite BoardDetail_get_object_unfold.
  unfold Redis.zadd. rewrite Hr.
  assert (filter (λ b0, board_id b0 = board_id b) (BoardDetail_get_queryset req (db w))
          = [b]) as ->.
  { rewrite BoardDetail_get_queryset_scope. apply filter_unique_pk.
    - eapply sublist_NoDup; [exact Hpk|]. apply fmap_sublist, sublist_filter.
    - by apply list_elem_of_filter. }
  simpl.
  assert (can_view_board (db w) (user req) b = Ok true) as ->; [|done].
  destruct Hs as [[Hk Ho]|[Hk Hm]].
  - rewrite can_view_board_not_project by (rewrite Hk; done).
    by rewrite bool_decide_eq_true_2.
  - unfold can_view_board. rewrite Hk, decide_True by done.
    destruct (ProjectMembership_get_unique (db w) (user_id (user req)) (owner_id b) Hmu)
      as [[_ [pm ->]]|[Hno _]]; done.
Qed.

Lemma board_detail_serves_scope_witness :
  Redis.reachable (redis Sample.w0) = true
  ∧ board_pk_unique (db Sample.w0)
  ∧ membership_unique (db Sample.w0)
  ∧ Sample.alice_board ∈ boards (db Sample.w0)
  ∧ in_user_scope (db Sample.w0) Sample.alice Sample.alice_board
  ∧ BoardDetail_get_object (Some Redis.Connection) Sample.noon
      (Sample.request Sample.alice GET [] []) 10 Sample.w0
    = (Ok Sample.alice_board,
       {| db := Sample.db0;
          redis := Redis.server_zadd Sample.up (recent_key Sample.alice) "10"
                     20250314120000 |}).
Proof.
  assert (board_pk_unique (db Sample.w0)) as H1
    by (apply (bool_decide_unpack _); vm_compute; exact I).
  assert (membership_unique (db Sample.w0)) as H2
    by (apply (bool_decide_unpack _); vm_compute; exact I).
  assert (Sample.alice_board ∈ boards (db Sample.w0)) as H3 by left.
  assert (in_user_scope (db Sample.w0) Sample.alice Sample.alice_board) as H4
    by (left; done).
  split; [reflexivity|]. split; [exact H1|]. split; [exact H2|].
  split; [exact H3|]. split; [exact H4|].
  exact (board_detail_serves_scope Redis.Connection Sample.noon
           (Sample.request Sample.alice GET [] []) Sample.w0 Sample.alice_board
           eq_refl H1 H2 H3 H4).
Defined.

End BoardRetrieval.

(** ** Listing boards *)

Section BoardListing.

Import Redis.

(** X10.  A search over the boards, with no project id, answers with at
    most two boards; each of them is a row of the board table in the
    requester's scope whose title contains the searched text. *)
Theorem board_search_capped_in_scope
    (r : option Client) (req : Request) (w : World) (q : string) :
  query req !! "sort" ≠ Some "recent" →
  query req !! "project" = None →
  query req !! "q" = Some q →
  ∃ qs, BoardList_get_queryset r req w = Ok qs
    ∧ (length qs ≤ 2)%nat
    ∧ ∀ b, b ∈ qs →
        b ∈ boards (db w) ∧ in_user_scope (db w) (user req) b
        ∧ icontains (board_title b) q = true.
Proof.
  intros Hs Hp Hq. unfold BoardList_get_queryset. rewrite Hp, Hq.
  rewrite decide_False by done. simpl. eexists. split; [reflexivity|]. split.
  - rewrite length_take. lia.
  - intros b Hb. apply subseteq_take in Hb.
    apply list_elem_of_filter in Hb as [Ht Hb].
    apply list_elem_of_filter in Hb as [Hsc Hb].
    apply scope_filter_spec in Hsc. split; [done|]. split; [done|].
    by apply Is_true_true.
Qed.

Lemma board_search_capped_in_scope_witness :
  query (Sample.request Sample.alice GET [] [("q", "HOM")]) !! "sort" ≠ Some "recent"
  ∧ query (Sample.request Sample.alice GET [] [("q", "HOM")]) !! "project" = None
  ∧ query (Sample.request Sample.alice GET [] [("q", "HOM")]) !! "q" = Some "HOM"
  ∧ BoardList_get_queryset None (Sample.request Sample.alice GET [] [("q", "HOM")])
      Sample.w0 = Ok [Sample.alice_board]
  ∧ ∃ qs, BoardList_get_queryset None
            (Sample.request Sample.alice GET [] [("q", "HOM")]) Sample.w0 = Ok qs
      ∧ (length qs ≤ 2)%nat.
Proof.
  assert (query (Sample.request Sample.alice GET [] [("q", "HOM")]) !! "sort"
          ≠ Some "recent") as Hs by done.
  split; [exact Hs|]. split; [reflexivity|]. split; [reflexivity|].
  split; [vm_compute; reflexivity|].
  destruct (board_search_capped_in_scope None
              (Sample.request Sample.alice GET [] [("q", "HOM")]) Sample.w0 "HOM"
              Hs eq_refl eq_refl) as (qs & E & Hlen & _).
  exists qs. split; [exact E|exact Hlen].
Defined.

Lemma zrange_members srv key start m :
  m ∈ server_zrange_desc srv key 0 start → 0 ≤ start →
  ∃ t, zscore srv key m = Some t.
Proof.
  intros Hm Hs. unfold server_zrange_desc in Hm. rewrite zslice_prefix in Hm by done.
  apply list_elem_of_fmap in Hm as ([m' t] & -> & Hm).
  apply subseteq_take in Hm. apply zset_desc_elem in Hm. by exists t.
Qed.

(** X11.  The recent list holds at most four boards.  Each of them is a
    row of the board table whose primary key is tracked in the requester's
    sorted set; a tracked key with no row left (a deleted board) is
    dropped. *)
Theorem recent_boards_at_most_four
    (c : Client) (req : Request) (w : World) (qs : list Board) :
  query req !! "sort" = Some "recent" →
  reachable (redis w) = true →
  board_pk_unique (db w) →
  BoardList_get_queryset (Some c) req w = Ok qs →
  (length qs ≤ 4)%nat
  ∧ ∀ b, b ∈ qs →
      b ∈ boards (db w)
      ∧ ∃ m t, zscore (redis w) (recent_key (user req)) m = Some t
               ∧ int m = Ok (board_id b).
Proof.
  intros Hs Hr Hu. rewrite BoardList_recent_ids by done. fold (recent_key (user req)).
  destruct (mapM int _) as [pks|e] eqn:E; [|done]. simpl. intros [= <-].
  apply mapM_Result_Ok in E. unfold order_by_preserved.
  split.
  - rewrite merge_sort_Permutation.
    assert (length pks ≤ 4)%nat as Hlen.
    { rewrite <- (Forall2_length _ _ _ E). unfold server_zrange_desc.
      rewrite length_fmap, zslice_prefix by lia. rewrite length_take. lia. }
    etrans; [|exact Hlen].
    rewrite <- (length_fmap board_id). apply submseteq_length, NoDup_submseteq.
    + eapply sublist_NoDup; [exact Hu|]. apply fmap_sublist, sublist_filter.
    + intros x Hx. apply list_elem_of_fmap in Hx as (b & -> & Hb).
      by apply list_elem_of_filter in Hb as [Hb _].
  - intros b Hb. rewrite merge_sort_Permutation in Hb.
    apply list_elem_of_filter in Hb as [Hpk Hb]. split; [done|].
    apply list_elem_of_lookup in Hpk as [i Hi].
    destruct (Forall2_lookup_r _ _ _ _ _ E Hi) as (m & Hm & Hint).
    exists m. apply list_elem_of_lookup_2 in Hm.
    apply zrange_members in Hm as [t Ht]; [|lia]. by exists t.
Qed.

Lemma recent_boards_at_most_four_witness :
  query (Sample2.recent Sample.bob) !! "sort" = Some "recent"
  ∧ reachable (redis Sample2.w_recent) = true
  ∧ board_pk_unique (db Sample2.w_recent)
  ∧ BoardList_get_queryset (Some Connection) (Sample2.recent Sample.bob)
      Sample2.w_recent = Ok [Sample.project_board; Sample.alice_board]
  ∧ (length [Sample.project_board; Sample.alice_board] ≤ 4)%nat.
Proof.
  assert (board_pk_unique (db Sample2.w_recent)) as Hu
    by (apply (bool_decide_unpack _); vm_compute; exact I).
  assert (BoardList_get_queryset (Some Connection) (Sample2.recent Sample.bob)
            Sample2.w_recent = Ok [Sample.project_board; Sample.alice_board]) as E
    by (vm_compute; reflexivity).
  split; [reflexivity|]. split; [reflexivity|]. split; [exact Hu|].
  split; [exact E|].
  exact (proj1 (recent_boards_at_most_four Connection (Sample2.recent Sample.bob)
                  Sample2.w_recent _ eq_refl eq_refl Hu E)).
Defined.

(** X12.  A view is recorded before the board is looked up, and the recent
    list is read by primary key only.  So once a user has asked for a
    board, whatever the answer was (also a 404 for a board outside their
    scope), that board is in the user's recent list, provided its row
    exists and at most three other tracked keys carry a timestamp of that
    moment or later (a key viewed in the same second may rank before it,
    and the list reads four keys): the recent list is not restricted to
    the requester's scope. *)
Theorem viewed_board_enters_recent_list
    (c : Client) (now : datetime) (req recent : Request) (w : World) (b : Board) :
  reachable (redis w) = true →
  b ∈ boards (db w) →
  key_in_range (board_id b) →
  (∀ m t, zscore (redis w) (recent_key (user req)) m = Some t → ∃ z, int m = Ok z) →
  (length (tracked_not_older (redis w) (recent_key (user req))
             (pretty (board_id b)) (strftime_int now)) ≤ 3)%nat →
  user recent = user req →
  query recent !! "sort" = Some "recent" →
  ∃ qs, BoardList_get_queryset (Some c) recent
          (BoardDetail_get_object (Some c) now req (board_id b) w).2 = Ok qs
    ∧ b ∈ qs.
Proof.
  intros Hr Hb Hk Hparse Hfew Hu Hs.
  rewrite BoardDetail_get_object_world by done.
  set (key := recent_key (user req)) in *.
  set (m := pretty (board_id b)) in *. set (t := strftime_int now) in *.
  set (z := default ∅ (zsets (redis w) !! key)) in *.
  set (w1 := {| db := db w; redis := server_zadd (redis w) key m t |}).
  assert (default ∅ (zsets (redis w1) !! recent_key (user recent)) = <[m := t]> z)
    as Ez1.
  { rewrite Hu. fold key. unfold w1, server_zadd. cbn [redis zsets].
    by rewrite lookup_insert_eq. }
  set (L := zset_desc (<[m := t]> z)).
  assert ((m, t) ∈ L) as Hin by (apply zset_desc_elem, lookup_insert_eq).
  apply list_elem_of_split in Hin as (l1 & l2 & EL).
  assert (NoDup L.*1) as Hnd by apply zset_desc_NoDup.
  assert (StronglySorted (λ x y : string * Z, y.2 ≤ x.2) L) as Hsorted
    by apply zset_desc_scores.
  assert (length l1 ≤ 3)%nat as Hlen.
  { etrans; [|exact Hfew]. apply submseteq_length, NoDup_submseteq.
    - apply NoDup_fmap_1 with (f := fst) in Hnd. rewrite EL in Hnd.
      by apply NoDup_app in Hnd as (? & _ & _).
    - intros [m' t'] Hx. unfold tracked_not_older. fold z.
      assert (m' ≠ m) as Hne.
      { intros ->. rewrite EL, fmap_app, fmap_cons in Hnd.
        apply NoDup_app in Hnd as (_ & Hdisj & _).
        apply (Hdisj m); [|left]. apply list_elem_of_fmap. by exists (m, t'). }
      assert (t ≤ t') as Hle.
      { rewrite EL in Hsorted. apply StronglySorted_app in Hsorted as (Hcross & _ & _).
        apply (Hcross (m', t') (m, t)); [done|left]. }
      apply list_elem_of_filter. split; [done|].
      apply elem_of_map_to_list.
      assert ((m', t') ∈ L) as HinL by (rewrite EL; apply elem_of_app; by left).
      apply zset_desc_elem in HinL. by rewrite lookup_insert_ne in HinL. }
  assert (take 4 L !! length l1 = Some (m, t)) as Htake.
  { rewrite lookup_take_lt by lia. rewrite EL, lookup_app_r by lia.
    by rewrite Nat.sub_diag. }
  assert (reachable (redis w1) = true) as Hr1 by done.
  destruct (BoardList_recent_parsed c recent w1 (λ _ _, True) Hr1 Hs)
    as (pks & Hpks & ->).
  { rewrite Ez1. fold L. apply Forall_forall. intros [m' t'] Hx.
    apply subseteq_take, zset_desc_elem in Hx.
    destruct (decide (m = m')) as [<-|Hne].
    - exists (board_id b). split; [by apply int_pretty_roundtrip|done].
    - rewrite lookup_insert_ne in Hx by done.
      destruct (Hparse m' t' Hx) as [pk Hpk]. by exists pk. }
  rewrite Ez1 in Hpks. fold L in Hpks.
  destruct (Forall2_lookup_l _ _ _ _ _ Hpks Htake) as (pk & Hpk & Hint & _).
  simpl in Hint. unfold m in Hint. rewrite int_pretty_roundtrip in Hint by done.
  injection Hint as <-.
  eexists. split; [reflexivity|].
  unfold order_by_preserved. rewrite merge_sort_Permutation.
  apply list_elem_of_filter. split; [|done]. by eapply list_elem_of_lookup_2.
Qed.

Lemma viewed_board_enters_recent_list_witness :
  reachable (redis Sample2.w_recent) = true
  ∧ Sample.stray_board ∈ boards (db Sample2.w_recent)
  ∧ key_in_range (board_id Sample.stray_board)
  ∧ tracked_not_older (redis Sample2.w_recent) (recent_key Sample.bob) "12"
      20250314115000 = [("99", 20250314115000)]
  ∧ (BoardDetail_get_object (Some Connection) (Sample5.at_time 11 50)
       (Sample.request Sample.bob GET [] []) 12 Sample2.w_recent).1 = Raise Http404
  ∧ BoardList_get_queryset (Some Connection) (Sample2.recent Sample.bob)
      (BoardDetail_get_object (Some Connection) (Sample5.at_time 11 50)
         (Sample.request Sample.bob GET [] []) 12 Sample2.w_recent).2
    = Ok [Sample.stray_board; Sample.project_board; Sample.alice_board]
  ∧ ∃ qs, BoardList_get_queryset (Some Connection) (Sample2.recent Sample.bob)
            (BoardDetail_get_object (Some Connection) (Sample5.at_time 11 50)
               (Sample.request Sample.bob GET [] []) (board_id Sample.stray_board)
               Sample2.w_recent).2 = Ok qs
      ∧ Sample.stray_board ∈ qs.
Proof.
  assert (Sample.stray_board ∈ boards (db Sample2.w_recent)) as Hb
    by (right; right; left).
  assert (key_in_range (board_id Sample.stray_board)) as Hk
    by (vm_compute; reflexivity).
  assert (tracked_not_older (redis Sample2.w_recent) (recent_key Sample.bob) "12"
            20250314115000 = [("99", 20250314115000)]) as Hfew
    by (vm_compute; reflexivity).
  assert (∀ m t, zscore (redis Sample2.w_recent)
                   (recent_key (user (Sample.request Sample.bob GET [] []))) m = Some t →
                 ∃ z, int m = Ok z) as Hparse.
  { intros m t H.
    assert ((m, t) ∈ [("99", 20250314115000); ("11", 20250314113000);
                      ("10", 20250314110000)]) as Hin.
    { apply zset_desc_elem in H. revert H.
      assert (zset_desc (default ∅ (zsets (redis Sample2.w_recent)
                !! recent_key (user (Sample.request Sample.bob GET [] []))))
              = [("99", 20250314115000); ("11", 20250314113000);
                 ("10", 20250314110000)]) as -> by (vm_compute; reflexivity).
      done. }
    repeat (apply elem_of_cons in Hin as [[= -> ->]|Hin]; [eexists; vm_compute; reflexivity|]).
    by apply elem_of_nil in Hin. }
  split; [reflexivity|]. split; [exact Hb|]. split; [exact Hk|].
  split; [exact Hfew|]. split; [vm_compute; reflexivity|].
  split; [vm_compute; reflexivity|].
  apply (viewed_board_enters_recent_list Connection (Sample5.at_time 11 50)
           (Sample.request Sample.bob GET [] []) (Sample2.recent Sample.bob)
           Sample2.w_recent Sample.stray_board eq_refl Hb Hk Hparse).
  - change (pretty (board_id Sample.stray_board)) with "12".
    change (strftime_int (Sample5.at_time 11 50)) with 20250314115000.
    change (user (Sample.request Sample.bob GET [] [])) with Sample.bob.
    rewrite Hfew. simpl. lia.
  - reflexivity.
  - reflexivity.
Defined.

End BoardListing.

(** ** Starring a board *)

Section BoardStars.

Import MoreViews.

Lemma BoardStar_post_unfold (req : Request) (w : World) :
  BoardStar_post req w
  = match data req !! "board" with
    | None => (Ok HTTP_400_BAD_REQUEST, w)
    | Some pk =>
        match BoardStar_get_board (db w) req pk with
        | Ok board =>
            (Ok HTTP_204_NO_CONTENT,
             {| db := set_starred (user_id (user req))
                        (toggle (board_id board)
                           (starred_of (db w) (user_id (user req)))) (db w);
                redis := redis w |})
        | Raise e => (Raise e, w)
        end
    end.
Proof.
  unfold BoardStar_post. destruct (data req !! "board") as [pk|]; [|done].
  unfold mbind, View_bind, lift, write_db, mret, View_ret.
  by destruct (BoardStar_get_board (db w) req pk).
Qed.

Lemma elem_of_starred_of (d : DB) (uid x : Z) :
  x ∈ starred_of d uid
  ↔ ∃ u, u ∈ users d ∧ user_id u = uid ∧ x ∈ starred_boards u.
Proof.
  unfold starred_of. rewrite elem_of_union_list. split.
  - intros (X & HX & Hx). apply list_elem_of_fmap in HX as (u & -> & Hu).
    apply list_elem_of_filter in Hu as [Hid Hu]. eauto.
  - intros (u & Hu & Hid & Hx). exists (starred_boards u). split; [|done].
    apply list_elem_of_fmap_2. by apply list_elem_of_filter.
Qed.

Lemma starred_of_set_starred (d : DB) (uid uid' : Z) (s : gset Z) :
  starred_of (set_starred uid s d) uid'
  = if decide (uid' = uid)
    then (if decide (uid ∈ user_id <$> users d) then s else ∅)
    else starred_of d uid'.
Proof.
  apply set_eq. intros x. rewrite elem_of_starred_of.
  unfold set_starred, with_users. cbn [users].
  setoid_rewrite list_elem_of_fmap.
  destruct (decide (uid' = uid)) as [->|Hne].
  - destruct (decide (uid ∈ user_id <$> users d)) as [Hin|Hout].
    + split.
      * intros (u' & (u & -> & Hu) & Hid & Hx).
        destruct (decide (user_id u = uid)); [done|]. simpl in Hid. done.
      * intros Hx. apply list_elem_of_fmap in Hin as (u & Hid & Hu).
        eexists. split; [exists u; split; [reflexivity|done]|].
        rewrite decide_True by done. done.
    + rewrite elem_of_empty. split; [|done].
      intros (u' & (u & -> & Hu) & Hid & Hx). apply Hout.
      apply list_elem_of_fmap. exists u. split; [|done].
      by destruct (decide (user_id u = uid)).
  - rewrite elem_of_starred_of. split.
    + intros (u' & (u & -> & Hu) & Hid & Hx).
      destruct (decide (user_id u = uid)) as [E|NE]; [simpl in Hid; congruence|].
      eauto.
    + intros (u & Hu & Hid & Hx). exists u. split; [|done].
      exists u. split; [|done]. rewrite decide_False; [done|congruence].
Qed.

Lemma user_ids_set_starred (d : DB) (uid : Z) (s : gset Z) :
  user_id <$> users (set_starred uid s d) = user_id <$> users d.
Proof.
  unfold set_starred, with_users. cbn [users].
  induction (users d) as [|u l IH]; [done|]. rewrite !fmap_cons, IH. f_equal.
  by destruct (decide (user_id u = uid)).
Qed.

(** X13.  Starring is a toggle.  For a board the requester may view, one
    request answers 204 and flips the board's membership in the
    requester's starred set; a second identical request flips it back, so
    the starred set is what it was.  Nobody else's starred set changes,
    and neither do the boards. *)
Theorem board_star_twice_restores
    (req : Request) (w : World) (pk : JSON) (board : Board) :
  data req !! "board" = Some pk →
  BoardStar_get_board (db w) req pk = Ok board →
  user_id (user req) ∈ user_id <$> users (db w) →
  let uid := user_id (user req) in
  let w1 := (BoardStar_post req w).2 in
  let w2 := (BoardStar_post req w1).2 in
  (BoardStar_post req w).1 = Ok HTTP_204_NO_CONTENT
  ∧ starred_of (db w1) uid = toggle (board_id board) (starred_of (db w) uid)
  ∧ starred_of (db w1) uid ≠ starred_of (db w) uid
  ∧ (BoardStar_post req w1).1 = Ok HTTP_204_NO_CONTENT
  ∧ starred_of (db w2) uid = starred_of (db w) uid
  ∧ (∀ other, other ≠ uid →
       starred_of (db w1) other = starred_of (db w) other
       ∧ starred_of (db w2) other = starred_of (db w) other)
  ∧ boards (db w2) = boards (db w).
Proof.
  intros Hd Hb Hu uid w1 w2.
  assert (w1 = {| db := set_starred uid (toggle (board_id board) (starred_of (db w) uid))
                          (db w);
                  redis := redis w |}) as E1.
  { unfold w1. rewrite BoardStar_post_unfold, Hd, Hb. done. }
  assert (starred_of (db w1) uid = toggle (board_id board) (starred_of (db w) uid))
    as Hs1.
  { rewrite E1. cbn [db]. rewrite starred_of_set_starred.
    rewrite decide_True by done. by rewrite decide_True. }
  assert (BoardStar_get_board (db w1) req pk = Ok board) as Hb1.
  { rewrite E1. exact Hb. }
  assert (uid ∈ user_id <$> users (db w1)) as Hu1.
  { rewrite E1. cbn [db]. by rewrite user_ids_set_starred. }
  assert (w2 = {| db := set_starred uid (toggle (board_id board) (starred_of (db w1) uid))
                          (db w1);
                  redis := redis w1 |}) as E2.
  { unfold w2. rewrite BoardStar_post_unfold, Hd, Hb1. done. }
  split; [by rewrite BoardStar_post_unfold, Hd, Hb|].
  split; [exact Hs1|]. split; [rewrite Hs1; apply toggle_changes|].
  split; [by rewrite BoardStar_post_unfold, Hd, Hb1|].
  split.
  { rewrite E2. cbn [db]. rewrite starred_of_set_starred.
    rewrite decide_True by done. rewrite decide_True by done.
    rewrite Hs1. apply toggle_involutive. }
  split.
  - intros other Hne.
    assert (starred_of (db w1) other = starred_of (db w) other) as Ho1.
    { rewrite E1. cbn [db]. rewrite starred_of_set_starred.
      by rewrite decide_False. }
    split; [exact Ho1|]. rewrite E2. cbn [db]. rewrite starred_of_set_starred.
    by rewrite decide_False.
  - rewrite E2, E1. reflexivity.
Qed.

Lemma board_star_twice_restores_witness :
  data (Sample.request Sample.alice POST [("board", JInt 10)] []) !! "board"
  = Some (JInt 10)
  ∧ BoardStar_get_board (db Sample.w0)
      (Sample.request Sample.alice POST [("board", JInt 10)] []) (JInt 10)
    = Ok Sample.alice_board
  ∧ user_id Sample.alice ∈ user_id <$> users (db Sample.w0)
  ∧ starred_of
      (db (BoardStar_post (Sample.request Sample.alice POST [("board", JInt 10)] [])
             Sample.w0).2) 1 = {[ 10 ]}
  ∧ starred_of
      (db (BoardStar_post (Sample.request Sample.alice POST [("board", JInt 10)] [])
             (BoardStar_post
                (Sample.request Sample.alice POST [("board", JInt 10)] [])
                Sample.w0).2).2) 1
    = starred_of (db Sample.w0) 1.
Proof.
  assert (user_id Sample.alice ∈ user_id <$> users (db Sample.w0)) as Hu by left.
  split; [reflexivity|]. split; [reflexivity|]. split; [exact Hu|].
  split; [by apply (bool_decide_unpack _)|].
  exact (proj1 (proj2 (proj2 (proj2 (proj2
           (board_star_twice_restores
              (Sample.request Sample.alice POST [("board", JInt 10)] []) Sample.w0
              (JInt 10) Sample.alice_board eq_refl eq_refl Hu)))))).
Defined.

(** X14.  A star request that does not end with 204 changes nothing: with
    no [board] key the answer is 400, and a board that does not exist or
    that the requester may not view ends the request with the error of
    the lookup or of the permission check, the world being as before. *)
Theorem board_star_failure_changes_nothing (req : Request) (w : World) :
  (data req !! "board" = None → BoardStar_post req w = (Ok HTTP_400_BAD_REQUEST, w))
  ∧ ((BoardStar_post req w).1 ≠ Ok HTTP_204_NO_CONTENT → (BoardStar_post req w).2 = w)
  ∧ (∀ pk e, data req !! "board" = Some pk →
             BoardStar_get_board (db w) req pk = Raise e →
             BoardStar_post req w = (Raise e, w)).
Proof.
  rewrite BoardStar_post_unfold. split; [by intros ->|]. split.
  - destruct (data req !! "board") as [pk|]; [|done].
    by destruct (BoardStar_get_board (db w) req pk).
  - intros pk e -> ->. done.
Qed.

Lemma board_star_failure_changes_nothing_witness :
  data (Sample.request Sample.bob POST [("board", JInt 10)] []) !! "board"
  = Some (JInt 10)
  ∧ BoardStar_get_board (db Sample.w0)
      (Sample.request Sample.bob POST [("board", JInt 10)] []) (JInt 10)
    = Raise PermissionDenied
  ∧ BoardStar_post (Sample.request Sample.bob POST [("board", JInt 10)] []) Sample.w0
    = (Raise PermissionDenied, Sample.w0)
  ∧ BoardStar_post (Sample.request Sample.bob POST [] []) Sample.w0
    = (Ok HTTP_400_BAD_REQUEST, Sample.w0).
Proof.
  split; [reflexivity|]. split; [reflexivity|]. split.
  - exact (proj2 (proj2 (board_star_failure_changes_nothing
             (Sample.request Sample.bob POST [("board", JInt 10)] []) Sample.w0))
             (JInt 10) PermissionDenied eq_refl eq_refl).
  - exact (proj1 (board_star_failure_changes_nothing
             (Sample.request Sample.bob POST [] []) Sample.w0) eq_refl).
Defined.

End BoardStars.

(** ** Updating an item *)

Section ItemUpdates.


Lemma ItemSerializer_save_no_list (instance : Item) (validated kwargs : ItemFields)
    (w : World) :
  set_item_list validated = None →
  set_item_list kwargs = None →
  ItemSerializer_save instance validated kwargs w
  = (Ok (Item_setattrs (ItemFields_merge validated kwargs) (item_list instance) instance),
     {| db := Item_save (Item_setattrs (ItemFields_merge validated kwargs)
                           (item_list instance) instance) (db w);
        redis := redis w |}).
Proof.
  intros Hv Hk. unfold ItemSerializer_save.
  assert (set_item_list (ItemFields_merge validated kwargs) = None) as ->.
  { unfold ItemFields_merge. simpl. by rewrite Hv, Hk. }
  reflexivity.
Qed.

Lemma Item_list_board_save (x : Item) (d : DB) (i : Item) :
  Item_list_board (Item_save x d) i = Item_list_board d i.
Proof. reflexivity. Qed.

Lemma Item_list_board_ext (d : DB) (i i' : Item) :
  item_list i = item_list i' → Item_list_board d i = Item_list_board d i'.
Proof. unfold Item_list_board, Item_list. by intros ->. Qed.

Lemma ItemDetail_get_label_save (x : Item) (d : DB) (pk : JSON) (board : Board) :
  ItemDetail_get_label (Item_save x d) pk board = ItemDetail_get_label d pk board.
Proof. reflexivity. Qed.

Lemma perform_update_labels (req : Request) (instance : Item) (validated : ItemFields)
    (w : World) (board : Board) (label : Label) (lpk : JSON) :
  data req !! "assigned_to" = None →
  data req !! "list" = None →
  data req !! "labels" = Some lpk →
  set_item_list validated = None →
  Item_list_board (db w) instance = Ok board →
  ItemDetail_get_label (db w) lpk board = Ok (Some label) →
  ∃ item0,
    item_id item0 = item_id instance ∧ item_list item0 = item_list instance
    ∧ labels item0 = labels instance ∧ assigned_to item0 = assigned_to instance
    ∧ ItemDetail_perform_update req instance validated w
      = (Ok (Item_with_labels (toggle (label_id label) (labels instance)) item0),
         {| db := Item_save
                    (Item_with_labels (toggle (label_id label) (labels instance)) item0)
                    (Item_save item0 (db w));
            redis := redis w |}).
Proof.
  intros Ha Hl Hlab Hv Hboard Hget.
  unfold ItemDetail_perform_update. rewrite Ha, Hl, Hlab.
  destruct (decide (is_Some (data req !! "image")));
    [|destruct (decide (is_Some (data req !! "image_url")));
      [|destruct (decide (is_Some (data req !! "color")))]].
  all: match goal with
       | |- context [ItemSerializer_save ?i ?v ?k] =>
           exists (Item_setattrs (ItemFields_merge v k) (item_list i) i)
       end.
  all: split; [reflexivity|]; split; [reflexivity|];
    split; [reflexivity|]; split; [reflexivity|].
  all: unfold mbind at 1, View_bind at 1;
    rewrite ItemSerializer_save_no_list by done.
  all: unfold mbind, mret, View_bind, View_ret, lift, write_db; cbn [db redis].
  all: rewrite Item_list_board_save.
  all: erewrite Item_list_board_ext; [rewrite Hboard|reflexivity].
  all: unfold Result_bind; rewrite ItemDetail_get_label_save, Hget; reflexivity.
Qed.

Lemma filter_pk_replace (l : list Item) (x : Item) :
  filter (λ i, item_id i = item_id x)
    ((λ row, if decide (item_id row = item_id x) then x else row) <$> l)
  = (λ _, x) <$> filter (λ i, item_id i = item_id x) l.
Proof.
  induction l as [|y l IH]; [done|]. rewrite fmap_cons, !filter_cons.
  destruct (decide (item_id y = item_id x)) as [E|NE].
  - rewrite decide_True by done. rewrite fmap_cons, IH. done.
  - rewrite decide_False by done. exact IH.
Qed.

Lemma ItemDetail_get_object_Ok (req : Request) (pk : Z) (w w' : World) (item : Item) :
  ItemDetail_get_object req pk w = (Ok item, w') →
  filter (λ i, item_id i = pk) (items (db w)) = [item]
  ∧ ∃ l b, Item_list (db w) item = Ok l ∧ List_board (db w) l = Ok b
           ∧ can_view_board (db w) (user req) b = Ok true.
Proof.
  unfold ItemDetail_get_object, lift. intros [= H _].
  destruct (get_object_or_404 _) as [i|e] eqn:E; [|done]. simpl in H.
  apply get_object_or_404_Ok in E.
  destruct (Item_list (db w) i) as [l|e] eqn:El; [|done]. simpl in H.
  destruct (List_board (db w) l) as [b|e] eqn:Eb; [|done]. simpl in H.
  destruct (can_view_board (db w) (user req) b) as [[]|e] eqn:Ec; [|done..].
  simpl in H. injection H as <-. split; [done|]. by exists l, b.
Qed.

Lemma ItemDetail_get_object_after_save
    (req : Request) (pk : Z) (w : World) (item x : Item) :
  ItemDetail_get_object req pk w = (Ok item, w) →
  item_id x = item_id item →
  item_list x = item_list item →
  ItemDetail_get_object req pk {| db := Item_save x (db w); redis := redis w |}
  = (Ok x, {| db := Item_save x (db w); redis := redis w |}).
Proof.
  intros H Hid Hl. apply ItemDetail_get_object_Ok in H as (Hf & l & b & El & Eb & Ec).
  assert (item_id item = pk) as Hpk.
  { assert (item ∈ filter (λ i, item_id i = pk) (items (db w))) as Hin
      by (rewrite Hf; left).
    by apply list_elem_of_filter in Hin as [? _]. }
  assert (filter (λ i, item_id i = pk) (items (Item_save x (db w))) = [x]) as Hf'.
  { unfold Item_save, with_items. cbn [items]. subst pk. rewrite <- Hid.
    rewrite filter_pk_replace. rewrite Hid, Hf. done. }
  unfold ItemDetail_get_object, lift. cbn [db]. f_equal.
  rewrite Hf'. simpl.
  assert (Item_list (Item_save x (db w)) x = Ok l) as ->.
  { unfold Item_list in *. rewrite Hl. exact El. }
  simpl. change (List_board (Item_save x (db w)) l) with (List_board (db w) l).
  rewrite Eb. simpl.
  change (can_view_board (Item_save x (db w)) (user req) b)
    with (can_view_board (db w) (user req) b).
  rewrite Ec. done.
Qed.

Lemma put_labels (validate : Request → Item → Result ItemFields)
    (req : Request) (pk : Z) (w : World) (item : Item) (board : Board)
    (lpk : JSON) (label : Label) (v : ItemFields) :
  ItemDetail_get_object req pk w = (Ok item, w) →
  Item_list_board (db w) item = Ok board →
  data req !! "assigned_to" = None →
  data req !! "list" = None →
  data req !! "labels" = Some lpk →
  ItemDetail_get_label (db w) lpk board = Ok (Some label) →
  validate req item = Ok v →
  set_item_list v = None →
  ∃ item0,
    item_id item0 = item_id item ∧ item_list item0 = item_list item
    ∧ labels item0 = labels item ∧ assigned_to item0 = assigned_to item
    ∧ ItemDetail_put validate req pk w
      = (Ok (HTTP_200 (Item_with_labels (toggle (label_id label) (labels item)) item0)),
         {| db := Item_save
                    (Item_with_labels (toggle (label_id label) (labels item)) item0)
                    (Item_save item0 (db w));
            redis := redis w |}).
Proof.
  intros Hobj Hboard Ha Hl Hlab Hget Hv Hvl.
  destruct (perform_update_labels req item v w board label lpk Ha Hl Hlab Hvl Hboard Hget)
    as (item0 & H1 & H2 & H3 & H4 & E).
  exists item0. do 4 (split; [done|]).
  unfold ItemDetail_put, mbind at 1, View_bind at 1. rewrite Hobj.
  rewrite Ha, Hl, Hlab.
  unfold mbind, mret, View_bind, View_ret, lift. rewrite Hboard.
  unfold Result_bind at 1. rewrite Hget.
  unfold update, mbind, View_bind, lift. rewrite Hobj, Hv, E. reflexivity.
Qed.

(** X15.  Moving an item to a list of another board is refused before
    anything is written: the answer is a 400 on the field [list] and the
    world is unchanged, so the item stays where it was. *)
Theorem item_cross_board_move_rejected
    (validate : Request → Item → Result ItemFields)
    (req : Request) (pk : Z) (w : World) (item : Item) (board B' : Board)
    (lpk : JSON) (k : option Z) (L : List_) :
  ItemDetail_get_object req pk w = (Ok item, w) →
  Item_list_board (db w) item = Ok board →
  data req !! "assigned_to" = None →
  data req !! "labels" = None →
  data req !! "list" = Some lpk →
  pk_of_json lpk = Ok k →
  get_object_or_404 (filter (λ l, Some (list_id l) = k) (lists (db w))) = Ok L →
  List_board (db w) L = Ok B' →
  board_id board ≠ board_id B' →
  ItemDetail_put validate req pk w
  = (Ok (HTTP_400 "list" "This list doesn't belong to this baord"), w).
Proof.
  intros Hobj Hboard Ha Hl Hlist Hk HL HB Hne.
  unfold ItemDetail_put, mbind at 1, View_bind at 1. rewrite Hobj.
  rewrite Ha, Hl, Hlist.
  unfold mbind, mret, View_bind, View_ret, lift. rewrite Hboard.
  unfold ItemDetail_get_list, mbind, Result_bind. rewrite Hk, HL, HB.
  rewrite decide_False by done. reflexivity.
Qed.

Lemma item_cross_board_move_rejected_witness :
  ItemDetail_get_object (Sample.request Sample.alice PUT [("list", JInt 21)] []) 30
    Sample3.w1 = (Ok Sample.task, Sample3.w1)
  ∧ List_board (db Sample3.w1) Sample3.backlog = Ok Sample.project_board
  ∧ board_id Sample.alice_board ≠ board_id Sample.project_board
  ∧ ItemDetail_put Sample3.accept
      (Sample.request Sample.alice PUT [("list", JInt 21)] []) 30 Sample3.w1
    = (Ok (HTTP_400 "list" "This list doesn't belong to this baord"), Sample3.w1).
Proof.
  assert (board_id Sample.alice_board ≠ board_id Sample.project_board) as Hne by done.
  split; [reflexivity|]. split; [reflexivity|]. split; [exact Hne|].
  exact (item_cross_board_move_rejected Sample3.accept
           (Sample.request Sample.alice PUT [("list", JInt 21)] []) 30 Sample3.w1
           Sample.task Sample.alice_board Sample.project_board (JInt 21) (Some 21)
           Sample3.backlog eq_refl eq_refl eq_refl eq_refl eq_refl eq_refl eq_refl
           eq_refl Hne).
Defined.

(** X16.  The label toggle works as a toggle.  For an item the requester
    may view and a label of the item's board, a PUT with the label's key
    flips the label's membership in the item's label set, and the same
    PUT once more flips it back: after two requests the label set and the
    assignees are what they were, and the item is still served. *)
Theorem item_label_toggle_twice_restores
    (validate : Request → Item → Result ItemFields)
    (req : Request) (pk : Z) (w : World) (item : Item) (board : Board)
    (lpk : JSON) (label : Label) :
  ItemDetail_get_object req pk w = (Ok item, w) →
  Item_list_board (db w) item = Ok board →
  data req !! "assigned_to" = None →
  data req !! "list" = None →
  data req !! "labels" = Some lpk →
  ItemDetail_get_label (db w) lpk board = Ok (Some label) →
  (∀ i, ∃ v, validate req i = Ok v ∧ set_item_list v = None) →
  ∃ item1 item2,
    (ItemDetail_put validate req pk w).1 = Ok (HTTP_200 item1)
    ∧ labels item1 = toggle (label_id label) (labels item)
    ∧ labels item1 ≠ labels item
    ∧ (ItemDetail_put validate req pk (ItemDetail_put validate req pk w).2).1
      = Ok (HTTP_200 item2)
    ∧ labels item2 = labels item
    ∧ assigned_to item2 = assigned_to item
    ∧ ItemDetail_get_object req pk
        (ItemDetail_put validate req pk (ItemDetail_put validate req pk w).2).2
      = (Ok item2,
         (ItemDetail_put validate req pk (ItemDetail_put validate req pk w).2).2).
Proof.
  intros Hobj Hboard Ha Hl Hlab Hget Hval.
  assert (∀ (w0 : World) (it : Item),
    ItemDetail_get_object req pk w0 = (Ok it, w0) →
    Item_list_board (db w0) it = Ok board →
    ItemDetail_get_label (db w0) lpk board = Ok (Some label) →
    ∃ it' w', ItemDetail_put validate req pk w0 = (Ok (HTTP_200 it'), w')
      ∧ labels it' = toggle (label_id label) (labels it)
      ∧ assigned_to it' = assigned_to it
      ∧ ItemDetail_get_object req pk w' = (Ok it', w')
      ∧ Item_list_board (db w') it' = Ok board
      ∧ ItemDetail_get_label (db w') lpk board = Ok (Some label)) as Hstep.
  { intros w0 it Ho Hb Hg. destruct (Hval it) as (v & Hv & Hvl).
    destruct (put_labels validate req pk w0 it board lpk label v Ho Hb Ha Hl Hlab Hg
                Hv Hvl) as (it0 & I1 & I2 & I3 & I4 & E).
    eexists _, _. split; [exact E|]. split; [reflexivity|]. split; [exact I4|].
    pose proof (ItemDetail_get_object_after_save req pk w0 it it0 Ho I1 I2) as Ho0.
    pose proof (ItemDetail_get_object_after_save req pk _ it0
                  (Item_with_labels (toggle (label_id label) (labels it)) it0)
                  Ho0 eq_refl eq_refl) as Ho1.
    split; [exact Ho1|]. split.
    - cbn [db]. rewrite !Item_list_board_save.
      rewrite <- Hb. apply Item_list_board_ext. exact I2.
    - cbn [db]. rewrite !ItemDetail_get_label_save. exact Hg. }
  destruct (Hstep w item Hobj Hboard Hget) as (item1 & w1 & E1 & L1 & A1 & O1 & B1 & G1).
  destruct (Hstep w1 item1 O1 B1 G1) as (item2 & w2 & E2 & L2 & A2 & O2 & _ & _).
  exists item1, item2. rewrite E1. cbn [fst snd]. rewrite E2. cbn [fst snd].
  split; [done|]. split; [exact L1|]. split; [rewrite L1; apply toggle_changes|].
  split; [done|]. split; [rewrite L2, L1; apply toggle_involutive|].
  split; [congruence|exact O2].
Qed.

Lemma item_label_toggle_twice_restores_witness :
  ItemDetail_get_object (Sample.request Sample.alice PUT [("labels", JInt 50)] []) 30
    Sample.w0 = (Ok Sample.task, Sample.w0)
  ∧ ItemDetail_get_label (db Sample.w0) (JInt 50) Sample.alice_board
    = Ok (Some Sample.urgent)
  ∧ labels <$> items (db (ItemDetail_put Sample3.accept
                          (Sample.request Sample.alice PUT [("labels", JInt 50)] [])
                          30 Sample.w0).2) = [{[ 50 ]}]
  ∧ ∃ item1 item2,
      (ItemDetail_put Sample3.accept
         (Sample.request Sample.alice PUT [("labels", JInt 50)] []) 30 Sample.w0).1
      = Ok (HTTP_200 item1)
      ∧ labels item1 = toggle (label_id Sample.urgent) (labels Sample.task)
      ∧ labels item2 = labels Sample.task.
Proof.
  split; [reflexivity|]. split; [reflexivity|].
  split; [by apply (bool_decide_unpack _)|].
  destruct (item_label_toggle_twice_restores Sample3.accept
              (Sample.request Sample.alice PUT [("labels", JInt 50)] []) 30 Sample.w0
              Sample.task Sample.alice_board (JInt 50) Sample.urgent
              eq_refl eq_refl eq_refl eq_refl eq_refl eq_refl
              (λ i, ex_intro _ no_item_fields (conj eq_refl eq_refl)))
    as (item1 & item2 & E1 & L1 & _ & _ & L2 & _).
  exists item1, item2. split; [exact E1|]. split; [exact L1|exact L2].
Defined.

Lemma ItemDetail_get_list_save (x : Item) (d : DB) (pk : JSON) (board : Board) :
  ItemDetail_get_list (Item_save x d) pk board = ItemDetail_get_list d pk board.
Proof. reflexivity. Qed.

Lemma perform_update_list (req : Request) (instance : Item) (validated : ItemFields)
    (w : World) (board : Board) (L : List_) (lpk : JSON) :
  data req !! "assigned_to" = None →
  data req !! "labels" = None →
  data req !! "list" = Some lpk →
  set_item_list validated = None →
  Item_list_board (db w) instance = Ok board →
  ItemDetail_get_list (db w) lpk board = Ok (Some L) →
  ∃ item0 item',
    ItemDetail_perform_update req instance validated w
    = (Ok item', {| db := Item_save item' (Item_save item0 (db w)); redis := redis w |})
    ∧ item_id item' = item_id instance ∧ item_list item' = list_id L
    ∧ labels item' = labels instance ∧ assigned_to item' = assigned_to instance.
Proof.
  intros Ha Hl Hlist Hv Hboard Hget.
  unfold ItemDetail_perform_update. rewrite Ha, Hl, Hlist.
  destruct (decide (is_Some (data req !! "image")));
    [|destruct (decide (is_Some (data req !! "image_url")));
      [|destruct (decide (is_Some (data req !! "color")))]].
  all: eexists _, _; split;
    [ unfold mbind at 1, View_bind at 1;
      rewrite ItemSerializer_save_no_list by done;
      unfold mbind, mret, View_bind, View_ret, lift, write_db; cbn [db redis];
      rewrite Item_list_board_save;
      (erewrite Item_list_board_ext; [rewrite Hboard|reflexivity]);
      unfold Result_bind; rewrite ItemDetail_get_list_save, Hget;
      unfold ItemSerializer_save; cbn [set_item_list ItemFields_merge override];
      reflexivity
    | repeat split; reflexivity ].
Qed.

Lemma ItemDetail_get_list_Some (d : DB) (lpk : JSON) (board : Board) (L : List_) :
  ItemDetail_get_list d lpk board = Ok (Some L) →
  filter (λ l, list_id l = list_id L) (lists d) = [L]
  ∧ ∃ lb, List_board d L = Ok lb ∧ board_id board = board_id lb.
Proof.
  unfold ItemDetail_get_list.
  destruct (pk_of_json lpk) as [k|e]; [|done]. simpl.
  destruct (get_object_or_404 _) as [l|e] eqn:E; [|done]. simpl.
  destruct (List_board d l) as [lb|e] eqn:Eb; [|done]. simpl.
  destruct (decide (board_id board = board_id lb)) as [Hid|]; [|done].
  intros [= ->]. apply get_object_or_404_Ok in E. split; [|by exists lb].
  assert (L ∈ filter (λ l, Some (list_id l) = k) (lists d)) as Hin by (rewrite E; left).
  apply list_elem_of_filter in Hin as [<- _].
  rewrite <- E. apply list_filter_iff. intros l. split; congruence.
Qed.

Lemma Item_list_board_Ok (d : DB) (i : Item) (board : Board) :
  Item_list_board d i = Ok board →
  ∃ l, filter (λ b, board_id b = list_board l) (boards d) = [board].
Proof.
  unfold Item_list_board. destruct (Item_list d i) as [l|e]; [|done]. simpl.
  unfold List_board, objects_get. intros H. exists l.
  destruct (filter _ (boards d)) as [|b [|b' rest]]; congruence.
Qed.

(** X17.  Moving an item to another list of the same board succeeds: the
    item then belongs to the target list, it is still on the same board,
    and its labels and assignees are untouched. *)
Theorem item_move_within_board
    (validate : Request → Item → Result ItemFields)
    (req : Request) (pk : Z) (w : World) (item : Item) (board : Board)
    (lpk : JSON) (L : List_) (v : ItemFields) :
  ItemDetail_get_object req pk w = (Ok item, w) →
  Item_list_board (db w) item = Ok board →
  data req !! "assigned_to" = None →
  data req !! "labels" = None →
  data req !! "list" = Some lpk →
  ItemDetail_get_list (db w) lpk board = Ok (Some L) →
  validate req item = Ok v →
  set_item_list v = None →
  ∃ item' w',
    ItemDetail_put validate req pk w = (Ok (HTTP_200 item'), w')
    ∧ item_id item' = item_id item
    ∧ item_list item' = list_id L
    ∧ labels item' = labels item
    ∧ assigned_to item' = assigned_to item
    ∧ Item_list_board (db w') item' = Ok board.
Proof.
  intros Hobj Hboard Ha Hl Hlist Hget Hv Hvl.
  destruct (perform_update_list req item v w board L lpk Ha Hl Hlist Hvl Hboard Hget)
    as (item0 & item' & E & I1 & I2 & I3 & I4).
  exists item'. eexists. split.
  { unfold ItemDetail_put, mbind at 1, View_bind at 1. rewrite Hobj.
    rewrite Ha, Hl, Hlist.
    unfold mbind, mret, View_bind, View_ret, lift. rewrite Hboard.
    unfold Result_bind at 1. rewrite Hget.
    unfold update, mbind, View_bind, lift. rewrite Hobj, Hv, E. reflexivity. }
  do 4 (split; [done|]). cbn [db]. rewrite !Item_list_board_save.
  apply ItemDetail_get_list_Some in Hget as (HfL & lb & Hlb & Hid).
  apply Item_list_board_Ok in Hboard as [l0 Hf0].
  unfold Item_list_board, Item_list. rewrite I2, HfL. simpl. rewrite Hlb. f_equal.
  assert (board ∈ filter (λ b, board_id b = list_board l0) (boards (db w))) as Hin0
    by (rewrite Hf0; left).
  apply list_elem_of_filter in Hin0 as [Hb0 _].
  unfold List_board, objects_get in Hlb.
  destruct (filter (λ b, board_id b = list_board L) (boards (db w)))
    as [|b [|b' rest]] eqn:EL; try done.
  injection Hlb as ->.
  assert (lb ∈ filter (λ b, board_id b = list_board L) (boards (db w))) as HinL
    by (rewrite EL; left).
  apply list_elem_of_filter in HinL as [_ HinL].
  assert (lb ∈ filter (λ b, board_id b = list_board l0) (boards (db w))) as Hin.
  { apply list_elem_of_filter. split; [congruence|done]. }
  rewrite Hf0 in Hin. apply elem_of_cons in Hin as [->|Hin]; [done|].
  by apply elem_of_nil in Hin.
Qed.

Lemma item_move_within_board_witness :
  ItemDetail_get_object (Sample.request Sample.alice PUT [("list", JInt 22)] []) 30
    Sample3.w1 = (Ok Sample.task, Sample3.w1)
  ∧ ItemDetail_get_list (db Sample3.w1) (JInt 22) Sample.alice_board
    = Ok (Some Sample3.later)
  ∧ item_list <$> items (db (ItemDetail_put Sample3.accept
                              (Sample.request Sample.alice PUT [("list", JInt 22)] [])
                              30 Sample3.w1).2) = [22]
  ∧ ∃ item' w',
      ItemDetail_put Sample3.accept
        (Sample.request Sample.alice PUT [("list", JInt 22)] []) 30 Sample3.w1
      = (Ok (HTTP_200 item'), w')
      ∧ item_list item' = list_id Sample3.later
      ∧ Item_list_board (db w') item' = Ok Sample.alice_board.
Proof.
  split; [reflexivity|]. split; [reflexivity|]. split; [reflexivity|].
  destruct (item_move_within_board Sample3.accept
              (Sample.request Sample.alice PUT [("list", JInt 22)] []) 30 Sample3.w1
              Sample.task Sample.alice_board (JInt 22) Sample3.later no_item_fields
              eq_refl eq_refl eq_refl eq_refl eq_refl eq_refl eq_refl eq_refl)
    as (item' & w' & E & _ & I2 & _ & _ & HB).
  exists item', w'. split; [exact E|]. split; [exact I2|exact HB].
Defined.

End ItemUpdates.

(** ** Listing items, lists, comments and labels *)

Section ListViews.

Import MoreViews.

(** X18.  A search over the items answers with at most two items; each of
    them is a row of the item table whose title contains the searched
    text and whose list belongs to a board in the requester's scope. *)
Theorem item_search_capped_in_scope (req : Request) (d : DB) (q : string) :
  truthy (query req !! "list") = false →
  query req !! "q" = Some q →
  q ≠ "" →
  ∃ qs, ItemList_get_queryset req d = Ok qs
    ∧ (length qs ≤ 2)%nat
    ∧ ∀ i, i ∈ qs →
        i ∈ items d
        ∧ icontains (item_title i) q = true
        ∧ ∃ l b, l ∈ lists d ∧ list_id l = item_list i
                 ∧ b ∈ boards d ∧ board_id b = list_board l
                 ∧ in_user_scope d (user req) b.
Proof.
  intros Hl Hq Hne. unfold ItemList_get_queryset. rewrite Hl, Hq.
  cbn [truthy]. rewrite bool_decide_eq_true_2 by done.
  eexists. split; [reflexivity|]. split; [rewrite length_take; lia|].
  intros i Hi. apply subseteq_take in Hi.
  apply list_elem_of_filter in Hi as [[Hin Ht] Hi]. split; [done|].
  split; [by apply Is_true_true|].
  apply list_elem_of_fmap in Hin as (l & Hid & Hlin).
  apply list_elem_of_filter in Hlin as [Hb Hlin].
  apply list_elem_of_fmap in Hb as (b & Hbid & Hbin).
  apply list_elem_of_filter in Hbin as [Hs Hbin].
  exists l, b. split; [done|]. split; [done|]. split; [done|]. split; [done|].
  apply scope_filter_spec. tauto.
Qed.

Lemma item_search_capped_in_scope_witness :
  truthy (query (Sample.request Sample.alice GET [] [("q", "wri")]) !! "list") = false
  ∧ query (Sample.request Sample.alice GET [] [("q", "wri")]) !! "q" = Some "wri"
  ∧ "wri" ≠ ""
  ∧ ItemList_get_queryset (Sample.request Sample.alice GET [] [("q", "wri")]) Sample.db0
    = Ok [Sample.task]
  ∧ ItemList_get_queryset (Sample.request Sample.bob GET [] [("q", "wri")]) Sample.db0
    = Ok []
  ∧ ∃ qs, ItemList_get_queryset (Sample.request Sample.alice GET [] [("q", "wri")])
            Sample.db0 = Ok qs
      ∧ (length qs ≤ 2)%nat.
Proof.
  assert ("wri" ≠ "") as Hne by done.
  split; [reflexivity|]. split; [reflexivity|]. split; [exact Hne|].
  split; [vm_compute; reflexivity|]. split; [vm_compute; reflexivity|].
  destruct (item_search_capped_in_scope
              (Sample.request Sample.alice GET [] [("q", "wri")]) Sample.db0 "wri"
              eq_refl eq_refl Hne) as (qs & E & Hlen & _).
  exists qs. split; [exact E|exact Hlen].
Defined.

(** X19.  The item list needs one of its two parameters, but an empty one
    counts: with neither [list] nor [q] the answer is 400; with a
    parameter present and both of them empty or absent the answer is 200
    with no item at all, and no list is looked up. *)
Theorem item_list_without_criteria (req : Request) (d : DB) :
  (query req !! "list" = None → query req !! "q" = None →
   ItemList_get req d = Ok HTTP_400_BAD_REQUEST)
  ∧ (is_Some (query req !! "list") ∨ is_Some (query req !! "q") →
     truthy (query req !! "list") = false →
     truthy (query req !! "q") = false →
     ItemList_get req d = Ok (HTTP_200_OK [])).
Proof.
  unfold ItemList_get, ItemList_get_queryset. split.
  - intros -> ->. rewrite decide_False; [done|]. intros [[? [=]]|[? [=]]].
  - intros Hp Hl Hq. rewrite decide_True by done. rewrite Hl, Hq. done.
Qed.

Lemma item_list_without_criteria_witness :
  ItemList_get (Sample.request Sample.alice GET [] []) Sample.db0
  = Ok HTTP_400_BAD_REQUEST
  ∧ ItemList_get (Sample.request Sample.alice GET [] [("list", "")]) Sample.db0
    = Ok (HTTP_200_OK []).
Proof.
  split.
  - exact (proj1 (item_list_without_criteria
                    (Sample.request Sample.alice GET [] []) Sample.db0)
             eq_refl eq_refl).
  - exact (proj2 (item_list_without_criteria
                    (Sample.request Sample.alice GET [] [("list", "")]) Sample.db0)
             (or_introl (ex_intro _ "" eq_refl)) eq_refl eq_refl).
Defined.

#[local] Instance order_le_total : Total order_le.
Proof. intros a b. unfold order_le. lia. Qed.

(** X20.  The lists of a board are handed out only for a board the
    requester may view: when the view answers, the board named by the
    request exists and passes the Access Evaluator, and the answer holds
    exactly the lists of that board, in ascending [order].  When the
    evaluator says no, the request ends with [PermissionDenied]; without a
    [board] parameter it is a 400. *)
Theorem list_show_only_for_viewable_board (req : Request) (d : DB) :
  (∀ qs, ListShow_get_queryset req d = Ok qs →
     ∃ board, board ∈ boards d
       ∧ pk_of_param (query req !! "board") = Ok (Some (board_id board))
       ∧ can_view_board d (user req) board = Ok true
       ∧ qs ≡ₚ filter (λ l, list_board l = board_id board) (lists d)
       ∧ Sorted order_le qs)
  ∧ (∀ board pk,
       pk_of_param (query req !! "board") = Ok pk →
       get_object_or_404 (filter (λ b, Some (board_id b) = pk) (boards d)) = Ok board →
       can_view_board d (user req) board = Ok false →
       ListShow_get_queryset req d = Raise PermissionDenied)
  ∧ (query req !! "board" = None → ListShow_get req d = Ok HTTP_400_BAD_REQUEST).
Proof.
  split; [|split].
  - intros qs. unfold ListShow_get_queryset, ListShow_get_board.
    destruct (pk_of_param _) as [pk|e] eqn:Ep; [|done]. simpl.
    destruct (get_object_or_404 _) as [board|e] eqn:E; [|done]. simpl.
    destruct (can_view_board d (user req) board) as [[]|e] eqn:Ec; [|done..]. simpl.
    intros [= <-]. apply get_object_or_404_Ok in E.
    assert (board ∈ filter (λ b, Some (board_id b) = pk) (boards d)) as Hin
      by (rewrite E; left).
    apply list_elem_of_filter in Hin as [<- Hin].
    exists board. split; [done|]. split; [done|]. split; [done|].
    split; [apply merge_sort_Permutation|apply Sorted_merge_sort, _].
  - intros board pk Hp Hb Hc. unfold ListShow_get_queryset, ListShow_get_board.
    rewrite Hp. simpl. rewrite Hb. simpl. rewrite Hc. done.
  - intros Hq. unfold ListShow_get. by rewrite Hq.
Qed.

Lemma list_show_only_for_viewable_board_witness :
  ListShow_get_queryset (Sample.request Sample.alice GET [] [("board", "10")])
    Sample3.db1 = Ok [Sample.todo; Sample3.later]
  ∧ ListShow_get_queryset (Sample.request Sample.alice GET [] [("board", " 1_0 ")])
      Sample3.db1 = Ok [Sample.todo; Sample3.later]
  ∧ ListShow_get_queryset (Sample.request Sample.bob GET [] [("board", "10")])
      Sample3.db1 = Raise PermissionDenied
  ∧ (∃ board, can_view_board Sample3.db1 Sample.alice board = Ok true
       ∧ [Sample.todo; Sample3.later]
         ≡ₚ filter (λ l, list_board l = board_id board) (lists Sample3.db1))
  ∧ ∃ board,
      MoreViews.pk_of_param
        (query (Sample.request Sample.alice GET [] [("board", " 1_0 ")]) !! "board")
      = Ok (Some (board_id board))
      ∧ can_view_board Sample3.db1 Sample.alice board = Ok true.
Proof.
  assert (ListShow_get_queryset (Sample.request Sample.alice GET [] [("board", "10")])
            Sample3.db1 = Ok [Sample.todo; Sample3.later]) as E
    by (vm_compute; reflexivity).
  assert (ListShow_get_queryset
            (Sample.request Sample.alice GET [] [("board", " 1_0 ")])
            Sample3.db1 = Ok [Sample.todo; Sample3.later]) as E'
    by (vm_compute; reflexivity).
  split; [exact E|]. split; [exact E'|]. split; [|split].
  - exact (proj1 (proj2 (list_show_only_for_viewable_board
             (Sample.request Sample.bob GET [] [("board", "10")]) Sample3.db1))
             Sample.alice_board (Some 10) eq_refl eq_refl eq_refl).
  - destruct (proj1 (list_show_only_for_viewable_board
                (Sample.request Sample.alice GET [] [("board", "10")]) Sample3.db1)
                _ E) as (board & _ & _ & Hc & Hp & _).
    exists board. split; [exact Hc|exact Hp].
  - destruct (proj1 (list_show_only_for_viewable_board
                (Sample.request Sample.alice GET [] [("board", " 1_0 ")]) Sample3.db1)
                _ E') as (board & _ & Hpk & Hc & _).
    exists board. split; [exact Hpk|exact Hc].
Defined.

(** X21.  Comments are handed out only through the parent chain: when the
    comment list answers, the item named by the request exists, the board
    of its list passes the Access Evaluator, and the answer holds exactly
    the comments of that item.  The labels of a board are handed out the
    same way, for a board that passes the evaluator. *)
Theorem comments_and_labels_only_for_viewable_board (req : Request) (d : DB) :
  (∀ qs, CommentList_get_queryset req d = Ok qs →
     ∃ item board, item ∈ items d
       ∧ Item_list_board d item = Ok board
       ∧ can_view_board d (user req) board = Ok true
       ∧ qs = filter (λ c, comment_item c = item_id item) (comments d))
  ∧ (∀ qs, LabelList_get_queryset req d = Ok qs →
       ∃ board, board ∈ boards d
         ∧ can_view_board d (user req) board = Ok true
         ∧ qs = filter (λ l, label_board l = board_id board) (label_rows d)).
Proof.
  split.
  - intros qs. unfold CommentList_get_queryset, CommentList_get_item.
    destruct (pk_of_param _) as [pk|e]; [|done]. simpl.
    destruct (get_object_or_404 _) as [item|e] eqn:E; [|done]. simpl.
    destruct (Item_list_board d item) as [board|e] eqn:Eb; [|done]. simpl.
    destruct (can_view_board d (user req) board) as [[]|e] eqn:Ec; [|done..]. simpl.
    intros [= <-]. apply get_object_or_404_Ok in E.
    assert (item ∈ filter (λ i, Some (item_id i) = pk) (items d)) as Hin
      by (rewrite E; left).
    apply list_elem_of_filter in Hin as [_ Hin]. by exists item, board.
  - intros qs. unfold LabelList_get_queryset, LabelList_get_board.
    destruct (pk_of_param _) as [pk|e]; [|done]. simpl.
    destruct (get_object_or_404 _) as [board|e] eqn:E; [|done]. simpl.
    destruct (can_view_board d (user req) board) as [[]|e] eqn:Ec; [|done..]. simpl.
    intros [= <-]. apply get_object_or_404_Ok in E.
    assert (board ∈ filter (λ b, Some (board_id b) = pk) (boards d)) as Hin
      by (rewrite E; left).
    apply list_elem_of_filter in Hin as [_ Hin]. by exists board.
Qed.

Lemma comments_and_labels_only_for_viewable_board_witness :
  CommentList_get_queryset (Sample.request Sample.alice GET [] [("item", "30")])
    Sample.db0 = Ok [Sample.note; Sample.remark]
  ∧ CommentList_get_queryset (Sample.request Sample.bob GET [] [("item", "30")])
      Sample.db0 = Raise PermissionDenied
  ∧ ∃ item board,
      Item_list_board Sample.db0 item = Ok board
      ∧ can_view_board Sample.db0 Sample.alice board = Ok true.
Proof.
  assert (CommentList_get_queryset
            (Sample.request Sample.alice GET [] [("item", "30")]) Sample.db0
          = Ok [Sample.note; Sample.remark]) as E by (vm_compute; reflexivity).
  split; [exact E|]. split; [vm_compute; reflexivity|].
  destruct (proj1 (comments_and_labels_only_for_viewable_board
              (Sample.request Sample.alice GET [] [("item", "30")]) Sample.db0) _ E)
    as (item & board & _ & Hb & Hc & _).
  exists item, board. split; [exact Hb|exact Hc].
Defined.

End ListViews.

(** ** Notifications *)

Section Notifications.

Import MoreViews.

#[local] Instance newer_first_total : Total newer_first.
Proof. intros a b. unfold newer_first. lia. Qed.

#[local] Instance newer_first_trans : Transitive newer_first.
Proof. intros a b c. unfold newer_first. lia. Qed.

Lemma post_leaves_none_unread (req : Request) (table : list Notification) n :
  n ∈ (NotificationList_post req table).2 →
  recipient n = user_id (user req) → unread n = false.
Proof.
  unfold NotificationList_post. cbn [snd]. intros Hn Hr.
  apply list_elem_of_fmap in Hn as (m & -> & _).
  destruct (decide (recipient m = user_id (user req) ∧ unread m = true))
    as [|Hno]; [done|].
  destruct (unread m) eqn:Eu; [|done]. exfalso. by apply Hno.
Qed.

(** X22.  Marking as read touches the requester's notifications only.
    After the request none of the requester's notifications is unread;
    the notifications of every other recipient are what they were, the
    table keeps its rows, their keys, recipients and dates; and a second
    request changes nothing more. *)
Theorem notifications_mark_all_read (req : Request) (table : list Notification) :
  let table' := (NotificationList_post req table).2 in
  (∀ n, n ∈ table' → recipient n = user_id (user req) → unread n = false)
  ∧ filter (λ n, recipient n ≠ user_id (user req)) table'
    = filter (λ n, recipient n ≠ user_id (user req)) table
  ∧ (λ n, (notification_id n, recipient n, notification_created_at n)) <$> table'
    = (λ n, (notification_id n, recipient n, notification_created_at n)) <$> table
  ∧ (NotificationList_post req table).1 = HTTP_204_NO_CONTENT
  ∧ NotificationList_post req table' = (HTTP_204_NO_CONTENT, table').
Proof.
  intros table'. unfold table', NotificationList_post. cbn [fst snd].
  split; [|split; [|split; [|split; [done|]]]].
  - apply post_leaves_none_unread.
  - induction table as [|m l IH]; [done|]. rewrite fmap_cons, !filter_cons, IH.
    destruct (decide (recipient m = user_id (user req) ∧ unread m = true))
      as [[Hr _]|Hno]; simpl.
    + rewrite !decide_False by (intros H; by apply H). done.
    + done.
  - induction table as [|m l IH]; [done|]. rewrite !fmap_cons, IH. f_equal.
    by destruct (decide (recipient m = user_id (user req) ∧ unread m = true)).
  - f_equal. rewrite <- list_fmap_compose.
    induction table as [|m l IH]; [done|]. rewrite !fmap_cons, IH. f_equal. simpl.
    destruct (decide (recipient m = user_id (user req) ∧ unread m = true))
      as [[Hr Hu]|Hno]; simpl.
    + rewrite decide_False; [done|]. by intros [_ ?].
    + by rewrite decide_False.
Qed.

Lemma notifications_mark_all_read_witness :
  (NotificationList_post (Sample.request Sample.alice POST [] []) Sample4.table).2
  = [ {| notification_id := 1; recipient := 1; unread := false;
         notification_created_at := 100 |};
      {| notification_id := 2; recipient := 2; unread := true;
         notification_created_at := 150 |};
      {| notification_id := 3; recipient := 1; unread := false;
         notification_created_at := 200 |} ]
  ∧ ∀ n, n ∈ (NotificationList_post (Sample.request Sample.alice POST [] [])
               Sample4.table).2 →
         recipient n = user_id Sample.alice → unread n = false.
Proof.
  split; [reflexivity|].
  exact (proj1 (notifications_mark_all_read
                  (Sample.request Sample.alice POST [] []) Sample4.table)).
Defined.

(** X23.  The notification list holds the requester's notifications and
    no others, each as often as the table holds it, the newest first; read
    after the mark-as-read request, none of them is unread. *)
Theorem notifications_listed_newest_first (req : Request) (table : list Notification) :
  NotificationList_get req table
  ≡ₚ filter (λ n, recipient n = user_id (user req)) table
  ∧ StronglySorted newer_first (NotificationList_get req table)
  ∧ (∀ n, n ∈ NotificationList_get req table →
          n ∈ table ∧ recipient n = user_id (user req))
  ∧ (∀ n, n ∈ NotificationList_get req (NotificationList_post req table).2 →
          unread n = false).
Proof.
  unfold NotificationList_get.
  split; [apply merge_sort_Permutation|].
  split; [apply StronglySorted_merge_sort; apply _|]. split.
  - intros n Hn. rewrite merge_sort_Permutation in Hn.
    apply list_elem_of_filter in Hn as [? ?]. done.
  - intros n Hn. rewrite merge_sort_Permutation in Hn.
    apply list_elem_of_filter in Hn as [Hr Hn].
    by apply (post_leaves_none_unread req table n).
Qed.

Lemma notifications_listed_newest_first_witness :
  notification_id <$>
    NotificationList_get (Sample.request Sample.alice GET [] []) Sample4.table
  = [3; 1]
  ∧ ∀ n, n ∈ NotificationList_get (Sample.request Sample.alice GET [] [])
               Sample4.table →
         n ∈ Sample4.table ∧ recipient n = user_id Sample.alice.
Proof.
  split; [reflexivity|].
  exact (proj1 (proj2 (proj2 (notifications_listed_newest_first
                  (Sample.request Sample.alice GET [] []) Sample4.table)))).
Defined.

End Notifications.
